(** * Structural document editing: the Google Docs service of the MCP server

    A shallow embedding of [src/services/DocumentService.ts].  The service
    talks to the Docs backend through two calls, [documents.get] and
    [documents.batchUpdate]; both are kept abstract ([DocsApi]) and every call
    the service makes is recorded, in order, in the run state, so that the
    theorems speak about the batches that are really submitted. *)

From Stdlib Require Import ZArith NArith List String Ascii Bool Lia.
From Stdlib Require Import Permutation Sorted QArith.
Import ListNotations.
Local Open Scope Z_scope.

(** ** JavaScript values *)

(** A JS string is a sequence of UTF-16 code units; [length] counts them. *)
Definition jsstring := list N.

Definition js (s : string) : jsstring :=
  List.map N_of_ascii (list_ascii_of_string s).

Definition js_length (s : jsstring) : Z := Z.of_nat (List.length s).

(** WhiteSpace and LineTerminator code units, as stripped by
    [String.prototype.trim]. *)
Definition isWhiteSpace (c : N) : bool :=
  (((9 <=? c) && (c <=? 13)) || (c =? 32) || (c =? 160) || (c =? 5760)
   || ((8192 <=? c) && (c <=? 8202)) || (c =? 8232) || (c =? 8233)
   || (c =? 8239) || (c =? 8287) || (c =? 12288) || (c =? 65279))%N.

Fixpoint trimStart (s : jsstring) : jsstring :=
  match s with
  | [] => []
  | c :: s' => if isWhiteSpace c then trimStart s' else s
  end.

Definition trimEnd (s : jsstring) : jsstring := rev (trimStart (rev s)).

Definition trim (s : jsstring) : jsstring := trimEnd (trimStart s).

(** [x || d] on an optional number: [undefined], [null] and [0] are falsy. *)
Definition or_num (x : option Z) (d : Z) : Z :=
  match x with
  | Some v => if v =? 0 then d else v
  | None => d
  end.

(** [a[i]] on an array: [undefined] outside the bounds. *)
Definition js_nth {A : Type} (a : list A) (i : Z) : option A :=
  if i <? 0 then None else nth_error a (Z.to_nat i).

(** A thrown value: an error object with its name and message. *)
Record JsError := { err_name : string; err_message : string }.

Definition new_Error (message : string) : JsError :=
  {| err_name := "Error"; err_message := message |}.

(** [`${error}`], that is [Error.prototype.toString]: the message alone
    when the name is empty, the name alone when the message is empty,
    [name: message] otherwise. *)
Definition error_toString (e : JsError) : string :=
  match err_name e, err_message e with
  | EmptyString, message => message
  | name, EmptyString => name
  | name, message => (name ++ ": " ++ message)%string
  end.

(** ** Document snapshots *)

Record TextRun := { textRun_content : option jsstring }.

Record ParagraphElement := {
  pe_startIndex : option Z;
  pe_endIndex : option Z;
  pe_textRun : option TextRun
}.

(** The structural tree.  An element carries at most one of [paragraph] and
    [table]; anything else (section break, table of contents) is [OtherKind].
    Absent arrays are read by the service as [x || []], so they are lists. *)
Inductive StructuralElement : Type :=
  mkElement (startIndex endIndex : option Z) (kind : ElementKind)
with ElementKind : Type :=
  | Paragraph (elements : list ParagraphElement)
  | Table (tableRows : list TableRow)
  | OtherKind
with TableRow : Type :=
  mkRow (tableCells : list TableCell)
with TableCell : Type :=
  mkCell (content : list StructuralElement).

Definition startIndex (e : StructuralElement) : option Z :=
  let (s, _, _) := e in s.
Definition endIndex (e : StructuralElement) : option Z :=
  let (_, n, _) := e in n.
Definition kind (e : StructuralElement) : ElementKind :=
  let (_, _, k) := e in k.
Definition tableCells (r : TableRow) : list TableCell :=
  let (cs) := r in cs.
Definition content (c : TableCell) : list StructuralElement :=
  let (es) := c in es.

Definition paragraph (e : StructuralElement) : option (list ParagraphElement) :=
  match kind e with Paragraph els => Some els | _ => None end.
Definition table (e : StructuralElement) : option (list TableRow) :=
  match kind e with Table rows => Some rows | _ => None end.

(** [doc.data.body?.content || []] *)
Record Document := { body_content : list StructuralElement }.

(** ** Edit operations, shaped as the requests of [documents.batchUpdate] *)

Record Range := { range_startIndex : Z; range_endIndex : Z }.

Record RgbColor := { red : Q; green : Q; blue : Q }.

Record TextStyle := { bold : option bool; link_url : option string }.

Record Border := {
  border_color : RgbColor;
  width_magnitude : Z;
  width_unit : string;
  dashStyle : string
}.

Record TableCellStyle := {
  borderTop : option Border;
  borderBottom : option Border;
  borderLeft : option Border;
  borderRight : option Border;
  backgroundColor : option RgbColor
}.

Record TableRange := {
  tableStartLocation : Z;
  rowIndex : Z;
  columnIndex : Z;
  rowSpan : Z;
  columnSpan : Z
}.

Inductive Request : Type :=
  | InsertTextRequest (location_index : Z) (text : jsstring)
  | DeleteContentRangeRequest (range : Range)
  | InsertTableRequest (rows columns : Z) (location_index : Z)
  | UpdateTextStyleRequest (range : Range) (textStyle : TextStyle)
      (fields : string)
  | UpdateParagraphStyleRequest (range : Range) (alignment : string)
      (fields : string)
  | UpdateTableCellStyleRequest (tableCellStyle : TableCellStyle)
      (tableRange : TableRange) (fields : string).

(** ** The backend and the monad of the service *)

(** The two backend calls.  Either may reject; both may change the world. *)
Record DocsApi (World : Type) := {
  documents_get : string -> World -> (JsError + Document) * World;
  documents_batchUpdate :
    string -> list Request -> World -> option JsError * World
}.
Arguments documents_get {World}.
Arguments documents_batchUpdate {World}.

Inductive Call : Type :=
  | CallGet (documentId : string)
  | CallBatchUpdate (documentId : string) (requests : list Request).

Record RunState (World : Type) := {
  world : World;
  calls : list Call
}.
Arguments world {World}.
Arguments calls {World}.
Arguments Build_RunState {World}.

Definition M (World A : Type) : Type :=
  RunState World -> (JsError + A) * RunState World.

Definition ret {World A} (a : A) : M World A := fun st => (inr a, st).

Definition throw {World A} (e : JsError) : M World A := fun st => (inl e, st).

Definition bind {World A B} (m : M World A) (k : A -> M World B) : M World B :=
  fun st =>
    match m st with
    | (inl e, st') => (inl e, st')
    | (inr a, st') => k a st'
    end.

Definition try_catch {World A} (m : M World A) (handler : JsError -> M World A)
  : M World A :=
  fun st =>
    match m st with
    | (inl e, st') => handler e st'
    | (inr a, st') => (inr a, st')
    end.

Notation "x <- m ;; k" := (bind m (fun x => k))
  (at level 61, m at next level, right associativity).
Notation "m ;;; k" := (bind m (fun _ => k))
  (at level 61, right associativity).

Section Calls.
Context {World : Type} (docs : DocsApi World).

  (** [await this.docs.documents.get({ documentId })] *)
Definition docs_get (documentId : string) : M World Document :=
    fun st =>
      let (r, w) := documents_get docs documentId (world st) in
      (r, {| world := w; calls := calls st ++ [CallGet documentId] |}).

  (** [await this.docs.documents.batchUpdate({ documentId, requestBody })] *)
Definition docs_batchUpdate (documentId : string) (requests : list Request)
    : M World unit :=
    fun st =>
      let (r, w) := documents_batchUpdate docs documentId requests (world st) in
      (match r with Some e => inl e | None => inr tt end,
       {| world := w;
          calls := calls st ++ [CallBatchUpdate documentId requests] |}).
End Calls.

(** ** The first copy of the service (the variant the later one replaced) *)

Module Legacy.
Section Service.
Context {World : Type} (docs : DocsApi World).

  (** [doc.data.body?.content?.[0]?.endIndex || 1] *)
Definition contentLength (doc : Document) : Z :=
    or_num (match js_nth (body_content doc) 0 with
            | Some e => endIndex e
            | None => None
            end) 1.

Definition updateRequests (contentLength : Z) (text : jsstring)
    : list Request :=
    (if contentLength >? 2
     then [DeleteContentRangeRequest
             {| range_startIndex := 1; range_endIndex := contentLength - 1 |}]
     else [])
    ++ [InsertTextRequest 1 text].

Definition updateDocument (documentId : string) (text : jsstring)
    : M World unit :=
    try_catch
      (doc <- docs_get docs documentId ;;
       docs_batchUpdate docs documentId
         (updateRequests (contentLength doc) text))
      (fun error =>
         throw (new_Error ("Failed to update document: "
                           ++ error_toString error))).
End Service.
End Legacy.

(** ** The service *)

Section Service.
Context {World : Type} (docs : DocsApi World).

  (** [body[body.length - 1]?.endIndex || 1] *)
Definition documentEndIndex (doc : Document) : Z :=
    let body := body_content doc in
    let lastElement := js_nth body (Z.of_nat (List.length body) - 1) in
    or_num (match lastElement with
            | Some e => endIndex e
            | None => None
            end) 1.

Definition updateRequests (documentEndIndex : Z) (text : jsstring)
    : list Request :=
    (if documentEndIndex >? 2
     then [DeleteContentRangeRequest
             {| range_startIndex := 1;
                range_endIndex := documentEndIndex - 1 |}]
     else [])
    ++ [InsertTextRequest 1 text].

Definition updateDocument (documentId : string) (text : jsstring)
    : M World unit :=
    try_catch
      (doc <- docs_get docs documentId ;;
       docs_batchUpdate docs documentId
         (updateRequests (documentEndIndex doc) text))
      (fun error =>
         throw (new_Error ("Failed to update document: "
                           ++ error_toString error))).

  (** [insertLink]: text and link style in one batch. *)
Definition insertLink (documentId : string) (index : Z) (text : jsstring)
      (url : string) : M World unit :=
    try_catch
      (let endIndex := index + js_length text in
       docs_batchUpdate docs documentId
         [InsertTextRequest index text;
          UpdateTextStyleRequest
            {| range_startIndex := index; range_endIndex := endIndex |}
            {| bold := None; link_url := Some url |}
            "link"])
      (fun error =>
         throw (new_Error ("Failed to insert link: "
                           ++ error_toString error))).

  (** [appendText]: one insertion just before the trailing newline. *)
Definition appendIndex (doc : Document) : Z :=
    let body := body_content doc in
    let lastElement := js_nth body (Z.of_nat (List.length body) - 1) in
    or_num (match lastElement with
            | Some e => endIndex e
            | None => None
            end) 2 - 1.

Definition appendText (documentId : string) (text : jsstring)
    : M World unit :=
    try_catch
      (doc <- docs_get docs documentId ;;
       docs_batchUpdate docs documentId
         [InsertTextRequest (appendIndex doc) text])
      (fun error =>
         throw (new_Error ("Failed to append text: "
                           ++ error_toString error))).
End Service.

(** ** Table insertion *)

Definition newline : jsstring := [10%N].

(** One pending cell insertion ([cellInserts] elements). *)
Record CellInsert := {
  ci_index : Z;
  ci_text : jsstring;
  ci_isHeader : bool
}.

(** The caller's row-major data.  The service tolerates holes
    ([data[rowIdx]?.length || 0], [cellContent && ...]): [None] is a missing
    row or a missing entry. *)
Definition TableData := list (option (list (option jsstring))).

(** The lookup loop shared by the cell-fill and the formatting phase: the
    first top-level element that is a table, has a start index, and starts at
    or after [tableIndex]. *)
Definition findTable (body : list StructuralElement) (tableIndex : Z)
  : option StructuralElement :=
  find (fun element =>
          match table element, startIndex element with
          | Some _, Some s => s >=? tableIndex
          | _, _ => false
          end) body.

(** [table.table.tableRows || []] *)
Definition tableRows (element : StructuralElement) : list TableRow :=
  match table element with Some rows => rows | None => [] end.

(** The inner [for ... of cellElements] loop: the start of the first
    paragraph that has one; the loop breaks there. *)
Fixpoint firstParagraphStart (cellElements : list StructuralElement)
  : option Z :=
  match cellElements with
  | [] => None
  | cellElement :: rest =>
      match paragraph cellElement, startIndex cellElement with
      | Some _, Some s => Some s
      | _, _ => firstParagraphStart rest
      end
  end.

(** The body of the column loop for one cell and its data entry. *)
Definition cellInsert (headerRow : bool) (rowIdx : nat) (cell : TableCell)
    (cellContent : option jsstring) : list CellInsert :=
  match cellContent with
  | Some s =>
      if js_length s >? 0 then
        match firstParagraphStart (content cell) with
        | Some i =>
            [{| ci_index := i; ci_text := s;
                ci_isHeader := headerRow && (rowIdx =? 0)%nat |}]
        | None => []
        end
      else []
  | None => []
  end.

(** The column loop, [colIdx < tableCells.length && colIdx < rowData.length],
    walks both sequences together. *)
Fixpoint rowCellInserts (headerRow : bool) (rowIdx : nat)
    (cells : list TableCell) (rowData : list (option jsstring))
  : list CellInsert :=
  match cells, rowData with
  | cell :: cells', cellContent :: rowData' =>
      cellInsert headerRow rowIdx cell cellContent
      ++ rowCellInserts headerRow rowIdx cells' rowData'
  | _, _ => []
  end.

(** The row loop, [rowIdx < tableRows.length && rowIdx < data.length]. *)
Fixpoint collectCellInserts (headerRow : bool) (rowIdx : nat)
    (rows : list TableRow) (data : TableData) : list CellInsert :=
  match rows, data with
  | row :: rows', d :: data' =>
      rowCellInserts headerRow rowIdx (tableCells row)
        (match d with Some r => r | None => [] end)
      ++ collectCellInserts headerRow (S rowIdx) rows' data'
  | _, _ => []
  end.

(** [cellInserts.sort((a, b) => b.index - a.index)]: [Array.prototype.sort]
    is stable, and so is this insertion sort; an element goes in front of the
    first one whose index is not greater. *)
Fixpoint insertDesc (x : CellInsert) (l : list CellInsert) : list CellInsert :=
  match l with
  | [] => [x]
  | y :: l' =>
      if ci_index y <=? ci_index x then x :: l else y :: insertDesc x l'
  end.

Definition sortDesc (l : list CellInsert) : list CellInsert :=
  fold_right insertDesc [] l.

Definition insertRequest (cell : CellInsert) : Request :=
  InsertTextRequest (ci_index cell) (ci_text cell).

(** The requests of the cell-fill batch, from the table found in the
    snapshot: the sorted insertions, mapped to [insertText] requests. *)
Definition cellFillRequests (headerRow : bool) (tableElement : StructuralElement)
    (data : TableData) : list Request :=
  List.map insertRequest
    (sortDesc (collectCellInserts headerRow 0 (tableRows tableElement) data)).

(** Loop counters [0, 1, ..., n - 1]. *)
Definition upto (n : Z) : list Z := List.map Z.of_nat (seq 0 (Z.to_nat n)).

Definition indexed {A : Type} (l : list A) : list (Z * A) :=
  combine (List.map Z.of_nat (seq 0 (List.length l))) l.

Definition black : RgbColor := {| red := 0; green := 0; blue := 0 |}.
Definition lightGray : RgbColor :=
  {| red := 9 # 10; green := 9 # 10; blue := 9 # 10 |}.

Definition borderStyle : Border :=
  {| border_color := black; width_magnitude := 1; width_unit := "PT";
     dashStyle := "SOLID" |}.

Definition cellAt (tableStartIndex rowIdx colIdx : Z) : TableRange :=
  {| tableStartLocation := tableStartIndex;
     rowIndex := rowIdx; columnIndex := colIdx;
     rowSpan := 1; columnSpan := 1 |}.

Definition borderRequest (tableStartIndex rowIdx colIdx : Z) : Request :=
  UpdateTableCellStyleRequest
    {| borderTop := Some borderStyle; borderBottom := Some borderStyle;
       borderLeft := Some borderStyle; borderRight := Some borderStyle;
       backgroundColor := None |}
    (cellAt tableStartIndex rowIdx colIdx)
    "borderTop,borderBottom,borderLeft,borderRight".

(** Borders for all cells: [numRows] by [numCols]. *)
Definition borderRequests (tableStartIndex numRows numCols : Z)
  : list Request :=
  flat_map (fun rowIdx =>
              List.map (fun colIdx =>
                          borderRequest tableStartIndex rowIdx colIdx)
                       (upto numCols))
           (upto numRows).

Definition boldRequest (s e : Z) : Request :=
  UpdateTextStyleRequest
    {| range_startIndex := s; range_endIndex := e |}
    {| bold := Some true; link_url := None |} "bold".

Definition centerRequest (s e : Z) : Request :=
  UpdateParagraphStyleRequest
    {| range_startIndex := s; range_endIndex := e |} "CENTER" "alignment".

Definition backgroundRequest (tableStartIndex colIdx : Z) : Request :=
  UpdateTableCellStyleRequest
    {| borderTop := None; borderBottom := None; borderLeft := None;
       borderRight := None; backgroundColor := Some lightGray |}
    (cellAt tableStartIndex 0 colIdx) "backgroundColor".

(** [elem.textRun.content || ''] *)
Definition runContent (tr : TextRun) : jsstring :=
  match textRun_content tr with Some c => c | None => [] end.

(** Bold for one paragraph element: only a text run with both indices and
    with something left after trimming. *)
Definition boldOfElement (elem : ParagraphElement) : list Request :=
  match pe_textRun elem, pe_startIndex elem, pe_endIndex elem with
  | Some tr, Some s, Some e =>
      if js_length (trim (runContent tr)) >? 0 then [boldRequest s e] else []
  | _, _, _ => []
  end.

(** Header styling of one element of a header cell. *)
Definition headerElementRequests (cellElement : StructuralElement)
  : list Request :=
  match paragraph cellElement with
  | Some paragraphElements =>
      (match startIndex cellElement, endIndex cellElement with
       | Some paragraphStart, Some paragraphEnd =>
           [centerRequest paragraphStart paragraphEnd]
       | _, _ => []
       end)
      ++ flat_map boldOfElement paragraphElements
  | None => []
  end.

(** Header styling of one header cell: its paragraphs, then the gray
    background. *)
Definition headerCellRequests (tableStartIndex colIdx : Z) (cell : TableCell)
  : list Request :=
  flat_map headerElementRequests (content cell)
  ++ [backgroundRequest tableStartIndex colIdx].

(** The header phase: [if (headerRow && updatedTableRows.length > 0)] over
    the cells of [updatedTableRows[0]]. *)
Definition headerRequests (headerRow : bool) (tableStartIndex : Z)
    (updatedTableRows : list TableRow) : list Request :=
  if headerRow && (Z.of_nat (List.length updatedTableRows) >? 0) then
    match js_nth updatedTableRows 0 with
    | Some firstRow =>
        flat_map (fun ic => headerCellRequests tableStartIndex (fst ic) (snd ic))
                 (indexed (tableCells firstRow))
    | None => []
    end
  else [].

(** [updatedTableRows[0]?.tableCells?.length || columns] *)
Definition numColsOf (updatedTableRows : list TableRow) (columns : Z) : Z :=
  or_num (option_map (fun r => Z.of_nat (List.length (tableCells r)))
                     (js_nth updatedTableRows 0))
         columns.

(** [updatedTable.startIndex]; the lookup only returns elements that have
    one. *)
Definition tableStartIndexOf (updatedTable : StructuralElement) : Z :=
  match startIndex updatedTable with Some s => s | None => 0 end.

(** All requests of the formatting phase, from the table found in the
    re-fetched snapshot: borders first, then the header styling. *)
Definition formattingRequests (headerRow : bool) (columns : Z)
    (updatedTable : StructuralElement) : list Request :=
  let tableStartIndex := tableStartIndexOf updatedTable in
  let updatedTableRows := tableRows updatedTable in
  let numRows := Z.of_nat (List.length updatedTableRows) in
  let numCols := numColsOf updatedTableRows columns in
  borderRequests tableStartIndex numRows numCols
  ++ headerRequests headerRow tableStartIndex updatedTableRows.

Section TableService.
Context {World : Type} (docs : DocsApi World).

  (** Steps 1 and 2: the newline, then the table after it. *)
Definition insertEmptyTable (documentId : string) (index rows columns : Z)
    : M World unit :=
    docs_batchUpdate docs documentId [InsertTextRequest index newline] ;;;
    let tableIndex := index + 1 in
    docs_batchUpdate docs documentId
      [InsertTableRequest rows columns tableIndex].

  (** Steps 3 and 4: read, find the table, fill the cells. *)
Definition fillCells (documentId : string) (tableIndex : Z)
      (data : TableData) (headerRow : bool) : M World unit :=
    doc <- docs_get docs documentId ;;
    match findTable (body_content doc) tableIndex with
    | None =>
        throw (new_Error "Failed to find the inserted table in document")
    | Some tableElement =>
        let cellInserts :=
          sortDesc (collectCellInserts headerRow 0 (tableRows tableElement)
                      data) in
        if Z.of_nat (List.length cellInserts) >? 0
        then docs_batchUpdate docs documentId
               (List.map insertRequest cellInserts)
        else ret tt
    end.

  (** Steps 5 and 6: read again, find the table again, borders and header. *)
Definition formatTable (documentId : string) (tableIndex columns : Z)
      (headerRow : bool) : M World unit :=
    updatedDoc <- docs_get docs documentId ;;
    match findTable (body_content updatedDoc) tableIndex with
    | None => ret tt
    | Some updatedTable =>
        let requests := formattingRequests headerRow columns updatedTable in
        if Z.of_nat (List.length requests) >? 0
        then docs_batchUpdate docs documentId requests
        else ret tt
    end.

Definition insertTable (documentId : string) (index rows columns : Z)
      (data : TableData) (headerRow : bool) : M World unit :=
    try_catch
      (insertEmptyTable documentId index rows columns ;;;
       fillCells documentId (index + 1) data headerRow ;;;
       formatTable documentId (index + 1) columns headerRow)
      (fun error =>
         throw (new_Error ("Failed to insert table: "
                           ++ error_toString error))).
End TableService.

(** ** A scripted backend

    The world is the queue of snapshots still to be served: every read takes
    the next one, every batch is accepted. *)
Module Scripted.
Definition World := list Document.

Definition api : DocsApi World :=
    {| documents_get := fun _ w =>
         match w with
         | d :: w' => (inr d, w')
         | [] => (inl {| err_name := "GaxiosError";
                         err_message := "Requested entity was not found." |},
                  [])
         end;
       documents_batchUpdate := fun _ _ w => (None, w) |}.

Definition start (snapshots : list Document) : RunState World :=
    {| world := snapshots; calls := [] |}.
End Scripted.

(** ** Sample snapshots

    The document of scenario C: a table of two rows and two columns inserted
    at index 1 of an empty document, before and after its cells are filled
    with A, B, C, D. *)
Module Samples.
Definition textCell (s : Z) (txt : jsstring) : TableCell :=
  let e := s + js_length txt + 1 in
  mkCell [mkElement (Some s) (Some e)
            (Paragraph [{| pe_startIndex := Some s; pe_endIndex := Some e;
                           pe_textRun :=
                             Some {| textRun_content :=
                                       Some (txt ++ newline) |} |}])].

Definition blankCell (s : Z) : TableCell := textCell s [].

Definition textParagraph (s : Z) (txt : jsstring) : StructuralElement :=
  let e := s + js_length txt + 1 in
  mkElement (Some s) (Some e)
    (Paragraph [{| pe_startIndex := Some s; pe_endIndex := Some e;
                   pe_textRun :=
                     Some {| textRun_content := Some (txt ++ newline) |} |}]).

Definition sectionBreak : StructuralElement :=
  mkElement None (Some 1) OtherKind.

Definition emptyTable : StructuralElement :=
  mkElement (Some 2) (Some 13)
    (Table [mkRow [blankCell 5; blankCell 7];
            mkRow [blankCell 10; blankCell 12]]).

Definition filledTable : StructuralElement :=
  mkElement (Some 2) (Some 17)
    (Table [mkRow [textCell 5 (js "A"); textCell 8 (js "B")];
            mkRow [textCell 12 (js "C"); textCell 15 (js "D")]]).

Definition afterInsert : Document :=
  {| body_content :=
       [sectionBreak; textParagraph 1 []; emptyTable; textParagraph 13 []] |}.

Definition afterFill : Document :=
  {| body_content :=
       [sectionBreak; textParagraph 1 []; filledTable; textParagraph 17 []] |}.

(** The same document with the table gone from the second read. *)
Definition tableGone : Document :=
  {| body_content := [sectionBreak; textParagraph 1 []] |}.

Definition abcd : TableData :=
  [Some [Some (js "A"); Some (js "B")]; Some [Some (js "C"); Some (js "D")]].

(** Data that does not fit the table: an empty entry, an entry beyond the
    second column, a short row, a missing row and a row beyond the second. *)
Definition ragged : TableData :=
  [Some [Some (js "A"); Some []; Some (js "X")];
   Some [Some (js "C")];
   None;
   Some [Some (js "E")]].

(** An empty document, and one holding ten characters of text. *)
Definition emptyDoc : Document :=
  {| body_content := [sectionBreak; textParagraph 1 []] |}.

Definition tenChars : Document :=
  {| body_content := [sectionBreak; textParagraph 1 (js "0123456789")] |}.

(** A paragraph followed by a table. *)
Definition paragraphThenTable : Document :=
  {| body_content :=
       [textParagraph 1 (js "0123456789");
        mkElement (Some 12) (Some 23)
          (Table [mkRow [blankCell 15; blankCell 17];
                  mkRow [blankCell 20; blankCell 22]])] |}.
End Samples.

(** ** Reading a document and formatting its titles *)

(** The inner loop of [readDocument]: [text += elem.textRun.content] for
    every element whose text run has a non-empty content. *)
Definition appendRun (text : jsstring) (elem : ParagraphElement) : jsstring :=
  match pe_textRun elem with
  | Some tr =>
      match textRun_content tr with
      | Some (c :: cs) => text ++ c :: cs
      | _ => text
      end
  | None => text
  end.

(** The outer loop of [readDocument], over the top-level elements. *)
Definition appendElement (text : jsstring) (element : StructuralElement)
  : jsstring :=
  match paragraph element with
  | Some paragraphElements => fold_left appendRun paragraphElements text
  | None => text
  end.

Definition documentText (body : list StructuralElement) : jsstring :=
  fold_left appendElement body [].

(** [/^[\u{1F300}-\u{1F9FF}]/u]: the first code point, read from a surrogate
    pair, lies in the range; a single unit is below it. *)
Definition startsWithEmoji (trimmed : jsstring) : bool :=
  match trimmed with
  | hi :: lo :: _ =>
      if ((55296 <=? hi) && (hi <=? 56319)
          && (56320 <=? lo) && (lo <=? 57343))%N
      then
        let cp := (65536 + (hi - 55296) * 1024 + (lo - 56320))%N in
        ((127744 <=? cp) && (cp <=? 129535))%N
      else false
  | _ => false
  end.

(** [trimmed.endsWith(':')] *)
Definition endsWithColon (trimmed : jsstring) : bool :=
  match rev trimmed with
  | c :: _ => (c =? 58)%N
  | [] => false
  end.

(** [trimmed.includes('.')] *)
Definition includesPeriod (trimmed : jsstring) : bool :=
  existsb (fun c => (c =? 46)%N) trimmed.

Definition isShortLine (trimmed : jsstring) : bool :=
  (js_length trimmed >? 0) && (js_length trimmed <? 100)
  && negb (includesPeriod trimmed).

(** [/^[A-Z][^.]*$/.test(trimmed) && trimmed.length < 60] *)
Definition looksLikeHeader (trimmed : jsstring) : bool :=
  match trimmed with
  | c :: rest =>
      ((65 <=? c) && (c <=? 90))%N
      && forallb (fun x => negb (x =? 46)%N) rest
  | [] => false
  end
  && (js_length trimmed <? 60).

Definition looksLikeTitle (trimmed : jsstring) : bool :=
  (startsWithEmoji trimmed || endsWithColon trimmed || looksLikeHeader trimmed)
  && isShortLine trimmed.

(** One pass of the inner loop of [formatTitles] over the pair
    [(requests, titlesFormatted)]. *)
Definition titleStep (acc : list Request * Z) (elem : ParagraphElement)
  : list Request * Z :=
  match pe_textRun elem, pe_startIndex elem, pe_endIndex elem with
  | Some tr, Some s, Some e =>
      let content := runContent tr in
      let trimmed := trim content in
      if looksLikeTitle trimmed
      then (fst acc ++ [boldRequest s e], snd acc + 1)
      else acc
  | _, _, _ => acc
  end.

Definition titleElementStep (acc : list Request * Z)
    (element : StructuralElement) : list Request * Z :=
  match paragraph element with
  | Some paragraphElements => fold_left titleStep paragraphElements acc
  | None => acc
  end.

Definition titleScan (body : list StructuralElement) : list Request * Z :=
  fold_left titleElementStep body ([], 0).

Section ReadService.
Context {World : Type} (docs : DocsApi World).

Definition readDocument (documentId : string) : M World jsstring :=
  try_catch
    (response <- docs_get docs documentId ;;
     ret (documentText (body_content response)))
    (fun error =>
       throw (new_Error ("Failed to read document: "
                         ++ error_toString error))).

(** Returns [titlesFormatted]. *)
Definition formatTitles (documentId : string) : M World Z :=
  try_catch
    (doc <- docs_get docs documentId ;;
     let scan := titleScan (body_content doc) in
     let requests := fst scan in
     let titlesFormatted := snd scan in
     (if Z.of_nat (List.length requests) >? 0
      then docs_batchUpdate docs documentId requests
      else ret tt) ;;;
     ret titlesFormatted)
    (fun error =>
       throw (new_Error ("Failed to format titles: "
                         ++ error_toString error))).
End ReadService.

(** ** Table insertion in the first copy of the service *)

Module LegacyTable.

(** The body of the column loop: the request is pushed as it is found. *)
Definition cellRequest (cell : TableCell) (cellContent : option jsstring)
  : list Request :=
  match cellContent with
  | Some s =>
      if js_length s >? 0 then
        match firstParagraphStart (content cell) with
        | Some insertIndex => [InsertTextRequest insertIndex s]
        | None => []
        end
      else []
  | None => []
  end.

Fixpoint rowRequests (cells : list TableCell)
    (rowData : list (option jsstring)) : list Request :=
  match cells, rowData with
  | cell :: cells', cellContent :: rowData' =>
      cellRequest cell cellContent ++ rowRequests cells' rowData'
  | _, _ => []
  end.

(** [elem.textRun.content && elem.textRun.content.trim().length > 0] *)
Definition boldOfElement (elem : ParagraphElement) : list Request :=
  match pe_textRun elem, pe_startIndex elem, pe_endIndex elem with
  | Some tr, Some s, Some e =>
      match textRun_content tr with
      | Some (c :: cs) =>
          if js_length (trim (c :: cs)) >? 0 then [boldRequest s e] else []
      | _ => []
      end
  | _, _, _ => []
  end.

Definition headerElementRequests (cellElement : StructuralElement)
  : list Request :=
  match paragraph cellElement with
  | Some paragraphElements => flat_map boldOfElement paragraphElements
  | None => []
  end.

Definition headerCellRequests (tableStartIndex colIdx : Z) (cell : TableCell)
  : list Request :=
  flat_map headerElementRequests (content cell)
  ++ [backgroundRequest tableStartIndex colIdx].

(** [if (headerRow) { const firstRow = tableRows[0]; if (firstRow) ... }] *)
Definition headerRequests (headerRow : bool) (tableStartIndex : Z)
    (rows : list TableRow) : list Request :=
  if headerRow then
    match js_nth rows 0 with
    | Some firstRow =>
        flat_map (fun ic => headerCellRequests tableStartIndex (fst ic) (snd ic))
                 (indexed (tableCells firstRow))
    | None => []
    end
  else [].

Definition formattingRequests (headerRow : bool) (columns : Z)
    (updatedTable : StructuralElement) : list Request :=
  let tableStartIndex := tableStartIndexOf updatedTable in
  let rows := tableRows updatedTable in
  let numRows := Z.of_nat (List.length rows) in
  let numCols := numColsOf rows columns in
  borderRequests tableStartIndex numRows numCols
  ++ headerRequests headerRow tableStartIndex rows.

Section Service.
Context {World : Type} (docs : DocsApi World).

(** The message the engine gives to the [TypeError] of reading [length] of
    [undefined]. *)
Variable undefinedLengthMessage : string.

Definition undefinedLength : JsError :=
  {| err_name := "TypeError"; err_message := undefinedLengthMessage |}.

(** The row loop.  The column loop's condition reads [data[rowIdx].length]
    without a guard, once the row of the table is known to have a cell: a
    missing row raises there. *)
Fixpoint collectRequests (rows : list TableRow) (data : TableData)
  : JsError + list Request :=
  match rows, data with
  | row :: rows', d :: data' =>
      match d with
      | Some rowData =>
          match collectRequests rows' data' with
          | inr rest => inr (rowRequests (tableCells row) rowData ++ rest)
          | inl e => inl e
          end
      | None =>
          match tableCells row with
          | [] => collectRequests rows' data'
          | _ :: _ => inl undefinedLength
          end
      end
  | _, _ => inr []
  end.

Definition insertTable (documentId : string) (index rows columns : Z)
    (data : TableData) (headerRow : bool) : M World unit :=
  try_catch
    (docs_batchUpdate docs documentId [InsertTableRequest rows columns index] ;;;
     doc <- docs_get docs documentId ;;
     match findTable (body_content doc) index with
     | None =>
         throw (new_Error "Failed to find the inserted table in document")
     | Some tableElement =>
         match collectRequests (tableRows tableElement) data with
         | inl e => throw e
         | inr requests =>
             (if Z.of_nat (List.length requests) >? 0
              then docs_batchUpdate docs documentId (rev requests)
              else ret tt) ;;;
             updatedDoc <- docs_get docs documentId ;;
             match findTable (body_content updatedDoc) index with
             | Some updatedTable =>
                 let formatting :=
                   formattingRequests headerRow columns updatedTable in
                 if Z.of_nat (List.length formatting) >? 0
                 then docs_batchUpdate docs documentId formatting
                 else ret tt
             | None => ret tt
             end
         end
     end)
    (fun error =>
       throw (new_Error ("Failed to insert table: "
                         ++ error_toString error))).
End Service.
End LegacyTable.

(** ** Text formatting ([FormattingHelper]) *)

(** [TextFormatting]: every option may be absent. *)
Record TextFormatting := {
  tf_bold : option bool;
  tf_italic : option bool;
  tf_underline : option bool;
  tf_foregroundColor : option RgbColor
}.

(** [CellFormatting extends TextFormatting] *)
Record CellFormatting := {
  cf_bold : option bool;
  cf_italic : option bool;
  cf_underline : option bool;
  cf_foregroundColor : option RgbColor;
  cf_backgroundColor : option RgbColor
}.

Definition noFormatting : TextFormatting :=
  {| tf_bold := None; tf_italic := None; tf_underline := None;
     tf_foregroundColor := None |}.

(** [buildTextFormatting]: the style object and the field names, one [if]
    after the other. *)
Definition buildTextFormatting (formatting : TextFormatting)
  : TextFormatting * list string :=
  let step1 :=
    match tf_bold formatting with
    | Some b =>
        ({| tf_bold := Some b; tf_italic := None; tf_underline := None;
            tf_foregroundColor := None |}, ["bold"%string])
    | None => (noFormatting, [])
    end in
  let step2 :=
    match tf_italic formatting with
    | Some b =>
        ({| tf_bold := tf_bold (fst step1); tf_italic := Some b;
            tf_underline := None; tf_foregroundColor := None |},
         snd step1 ++ ["italic"%string])
    | None => step1
    end in
  let step3 :=
    match tf_underline formatting with
    | Some b =>
        ({| tf_bold := tf_bold (fst step2); tf_italic := tf_italic (fst step2);
            tf_underline := Some b; tf_foregroundColor := None |},
         snd step2 ++ ["underline"%string])
    | None => step2
    end in
  match tf_foregroundColor formatting with
  | Some c =>
      ({| tf_bold := tf_bold (fst step3); tf_italic := tf_italic (fst step3);
          tf_underline := tf_underline (fst step3);
          tf_foregroundColor := Some c |},
       snd step3 ++ ["foregroundColor"%string])
  | None => step3
  end.

(** [Object.keys(textFormat).length] *)
Definition keyCount (f : TextFormatting) : nat :=
  (match tf_bold f with Some _ => 1 | None => 0 end
   + match tf_italic f with Some _ => 1 | None => 0 end
   + match tf_underline f with Some _ => 1 | None => 0 end
   + match tf_foregroundColor f with Some _ => 1 | None => 0 end)%nat.

Record CellFormat := {
  textFormat : TextFormatting;
  cellFormat_backgroundColor : option RgbColor;
  hasTextFormat : bool;
  hasCellFormat : bool
}.

Definition buildCellFormatting (formatting : CellFormatting) : CellFormat :=
  let t1 :=
    match cf_bold formatting with
    | Some b =>
        {| tf_bold := Some b; tf_italic := None; tf_underline := None;
           tf_foregroundColor := None |}
    | None => noFormatting
    end in
  let t2 :=
    match cf_italic formatting with
    | Some b =>
        {| tf_bold := tf_bold t1; tf_italic := Some b; tf_underline := None;
           tf_foregroundColor := None |}
    | None => t1
    end in
  let t3 :=
    match cf_underline formatting with
    | Some b =>
        {| tf_bold := tf_bold t2; tf_italic := tf_italic t2;
           tf_underline := Some b; tf_foregroundColor := None |}
    | None => t2
    end in
  let t4 :=
    match cf_foregroundColor formatting with
    | Some c =>
        {| tf_bold := tf_bold t3; tf_italic := tf_italic t3;
           tf_underline := tf_underline t3; tf_foregroundColor := Some c |}
    | None => t3
    end in
  {| textFormat := t4;
     cellFormat_backgroundColor := cf_backgroundColor formatting;
     hasTextFormat := (0 <? keyCount t4)%nat;
     hasCellFormat :=
       match cf_backgroundColor formatting with
       | Some _ => true
       | None => false
       end |}.

(** [value < 0 || value > 1] *)
Definition outOfRange (value : Q) : bool :=
  negb (Qle_bool 0 value) || negb (Qle_bool value 1).

Section Validation.
(** [`${value}`] for a number. *)
Variable numberToString : Q -> string.

Definition invalidComponent (component : string) (value : Q) : JsError :=
  new_Error ("Invalid " ++ component ++ " value: " ++ numberToString value
             ++ ". Must be between 0 and 1.").

(** The loop of [validateColor] over the components still to be checked;
    [Some e] is the error thrown. *)
Fixpoint firstInvalid (components : list (string * Q)) : option JsError :=
  match components with
  | [] => None
  | (component, value) :: rest =>
      if outOfRange value then Some (invalidComponent component value)
      else firstInvalid rest
  end.

Definition validateColor (color : RgbColor) : option JsError :=
  firstInvalid [("red"%string, red color); ("green"%string, green color);
                ("blue"%string, blue color)].
End Validation.

(** ** Text style requests with all their fields *)

(** [{ color: { rgbColor } }] *)
Record OptionalColor := { color_rgbColor : RgbColor }.

Record Dimension := { dim_magnitude : Q; dim_unit : string }.

Record DocsTextStyle := {
  ts_bold : option bool;
  ts_italic : option bool;
  ts_underline : option bool;
  ts_foregroundColor : option OptionalColor;
  ts_fontSize : option Dimension
}.

(** An [updateTextStyle] request. *)
Record StyleRequest := {
  sr_range : Range;
  sr_textStyle : DocsTextStyle;
  sr_fields : string
}.

(** The backend as the styling operations use it: the read, and batches of
    style requests. *)
Record StyleApi (World : Type) := {
  style_get : string -> World -> (JsError + Document) * World;
  style_batchUpdate :
    string -> list StyleRequest -> World -> option JsError * World
}.
Arguments style_get {World}.
Arguments style_batchUpdate {World}.

Inductive StyleCall : Type :=
  | StyleGet (documentId : string)
  | StyleBatchUpdate (documentId : string) (requests : list StyleRequest).

Record StyleState (World : Type) := {
  sworld : World;
  scalls : list StyleCall
}.
Arguments sworld {World}.
Arguments scalls {World}.
Arguments Build_StyleState {World}.

Definition SM (World A : Type) : Type :=
  StyleState World -> (JsError + A) * StyleState World.

Definition sret {World A} (a : A) : SM World A := fun st => (inr a, st).

Definition sthrow {World A} (e : JsError) : SM World A :=
  fun st => (inl e, st).

Definition sbind {World A B} (m : SM World A) (k : A -> SM World B)
  : SM World B :=
  fun st =>
    match m st with
    | (inl e, st') => (inl e, st')
    | (inr a, st') => k a st'
    end.

Definition stry {World A} (m : SM World A) (handler : JsError -> SM World A)
  : SM World A :=
  fun st =>
    match m st with
    | (inl e, st') => handler e st'
    | (inr a, st') => (inr a, st')
    end.

Section StyleService.
Context {World : Type} (docs : StyleApi World).
Variable numberToString : Q -> string.

Definition style_docs_get (documentId : string) : SM World Document :=
  fun st =>
    let (r, w) := style_get docs documentId (sworld st) in
    (r, {| sworld := w; scalls := scalls st ++ [StyleGet documentId] |}).

Definition style_docs_batchUpdate (documentId : string)
    (requests : list StyleRequest) : SM World unit :=
  fun st =>
    let (r, w) := style_batchUpdate docs documentId requests (sworld st) in
    (match r with Some e => inl e | None => inr tt end,
     {| sworld := w;
        scalls := scalls st ++ [StyleBatchUpdate documentId requests] |}).

(** The request [formatText] builds from the helper's style and fields:
    the color is nested, the fields are joined with commas. *)
Definition formatTextRequest (startIndex endIndex : Z)
    (formatting : TextFormatting) : StyleRequest :=
  let (style, fields) := buildTextFormatting formatting in
  {| sr_range :=
       {| range_startIndex := startIndex; range_endIndex := endIndex |};
     sr_textStyle :=
       {| ts_bold := tf_bold style; ts_italic := tf_italic style;
          ts_underline := tf_underline style;
          ts_foregroundColor :=
            match tf_foregroundColor style with
            | Some c => Some {| color_rgbColor := c |}
            | None => None
            end;
          ts_fontSize := None |};
     sr_fields := String.concat "," fields |}.

Definition formatText (documentId : string) (startIndex endIndex : Z)
    (formatting : TextFormatting) : SM World unit :=
  stry
    (sbind
       (match tf_foregroundColor formatting with
        | Some c =>
            match validateColor numberToString c with
            | Some e => sthrow e
            | None => sret tt
            end
        | None => sret tt
        end)
       (fun _ =>
          style_docs_batchUpdate documentId
            [formatTextRequest startIndex endIndex formatting]))
    (fun error =>
       sthrow (new_Error ("Failed to format text: "
                          ++ error_toString error))).

(** The loop of [formatFirstLineAsTitle]: the range of the first element of
    the first paragraph whose first element is a text run with both
    indices; paragraphs that do not qualify are passed over. *)
Fixpoint firstTitleRun (body : list StructuralElement) : option (Z * Z) :=
  match body with
  | [] => None
  | element :: rest =>
      match paragraph element with
      | Some (firstElem :: _) =>
          match pe_textRun firstElem, pe_startIndex firstElem,
                pe_endIndex firstElem with
          | Some _, Some s, Some e => Some (s, e)
          | _, _, _ => firstTitleRun rest
          end
      | _ => firstTitleRun rest
      end
  end.

Definition titleRequest (s e : Z) (fontSize : Q) : StyleRequest :=
  {| sr_range := {| range_startIndex := s; range_endIndex := e |};
     sr_textStyle :=
       {| ts_bold := Some true; ts_italic := None; ts_underline := None;
          ts_foregroundColor := None;
          ts_fontSize :=
            Some {| dim_magnitude := fontSize; dim_unit := "PT" |} |};
     sr_fields := "bold,fontSize" |}.

Definition formatFirstLineAsTitle (documentId : string) (fontSize : Q)
  : SM World unit :=
  stry
    (sbind (style_docs_get documentId)
       (fun doc =>
          match firstTitleRun (body_content doc) with
          | Some (s, e) =>
              style_docs_batchUpdate documentId [titleRequest s e fontSize]
          | None => sret tt
          end))
    (fun error =>
       sthrow (new_Error ("Failed to format first line as title: "
                          ++ error_toString error))).
End StyleService.

(** More sample data. *)
Module Samples2.
(** The second row is missing. *)
Definition holed : TableData :=
  [Some [Some (js "A"); Some (js "B")]; None].

(** A scripted backend for the styling operations. *)
Definition styleApi : StyleApi (list Document) :=
  {| style_get := fun _ w =>
       match w with
       | d :: w' => (inr d, w')
       | [] => (inl {| err_name := "GaxiosError";
                       err_message := "Requested entity was not found." |},
                [])
       end;
     style_batchUpdate := fun _ _ w => (None, w) |}.

Definition styleStart (snapshots : list Document)
  : StyleState (list Document) :=
  {| sworld := snapshots; scalls := [] |}.

(** Numbers are not printed in the samples. *)
Definition showNumber (q : Q) : string := "n".

Definition image : StructuralElement :=
  mkElement (Some 1) (Some 3)
    (Paragraph [{| pe_startIndex := Some 1; pe_endIndex := Some 2;
                   pe_textRun := None |};
                {| pe_startIndex := Some 2; pe_endIndex := Some 3;
                   pe_textRun :=
                     Some {| textRun_content := Some newline |} |}]).

Definition imageThenText : Document :=
  {| body_content :=
       [Samples.sectionBreak; image; Samples.textParagraph 3 (js "Title")] |}.
(** A backend that rejects every batch, and one that rejects the batches
    that insert a table; both serve the snapshots in turn. *)
Definition quota : JsError :=
  {| err_name := "GaxiosError"; err_message := "Quota exceeded." |}.

Definition rejectAll : DocsApi (list Document) :=
  {| documents_get := documents_get Scripted.api;
     documents_batchUpdate := fun _ _ w => (Some quota, w) |}.

Definition rejectTables : DocsApi (list Document) :=
  {| documents_get := documents_get Scripted.api;
     documents_batchUpdate := fun _ requests w =>
       match requests with
       | InsertTableRequest _ _ _ :: _ => (Some quota, w)
       | _ => (None, w)
       end |}.


Definition fresh : RunState unit := {| world := tt; calls := [] |}.
End Samples2.

(** ** Notions used to state the properties *)

(** Index [i] lies in the half-open range [r]. *)
Definition inRange (r : Range) (i : Z) : Prop :=
  range_startIndex r <= i < range_endIndex r.

(** Index [i] lies in the span of element [e]. *)
Definition inElement (e : StructuralElement) (i : Z) : Prop :=
  exists s n, startIndex e = Some s /\ endIndex e = Some n /\ s <= i < n.

(** The last element of a body, as the specification reads it. *)
Definition lastElementOf (doc : Document) : option StructuralElement :=
  match rev (body_content doc) with
  | e :: _ => Some e
  | [] => None
  end.

(** Calls are only ever added at the end of the record. *)
Definition extends {World A : Type} (m : M World A) : Prop :=
  forall st, exists more, calls (snd (m st)) = calls st ++ more.

(** The cells of row 0. *)
Definition headerCells (rows : list TableRow) : list TableCell :=
  match rows with
  | firstRow :: _ => tableCells firstRow
  | [] => []
  end.

Definition isCellStyle (r : Request) : bool :=
  match r with
  | UpdateTableCellStyleRequest _ _ _ => true
  | _ => false
  end.

(** The shape of a table: how many cells each row has.  Text inserted into
    cells moves character indices and leaves the shape alone. *)
Definition shape (rows : list TableRow) : list nat :=
  List.map (fun r => List.length (tableCells r)) rows.

(** The caller's data cut down to the dimensions of the table. *)
Fixpoint clipData (rows : list TableRow) (data : TableData) : TableData :=
  match rows, data with
  | row :: rows', d :: data' =>
      option_map (firstn (List.length (tableCells row))) d
      :: clipData rows' data'
  | _, _ => []
  end.

(** A cell none of whose text runs has anything but white space, as a cell
    that received no text reads back. *)
Definition blankCellText (cell : TableCell) : Prop :=
  forall el els pe tr,
    In el (content cell) -> paragraph el = Some els -> In pe els ->
    pe_textRun pe = Some tr -> trim (runContent tr) = [].

(** The text runs of the top-level paragraphs, in document order. *)
Definition runText (elem : ParagraphElement) : jsstring :=
  match pe_textRun elem with
  | Some tr => runContent tr
  | None => []
  end.

Definition topLevelRuns (body : list StructuralElement) : list jsstring :=
  flat_map (fun element =>
              match paragraph element with
              | Some paragraphElements => List.map runText paragraphElements
              | None => []
              end) body.

(** The title requests of a body, element by element. *)
Definition titleOfElement (elem : ParagraphElement) : list Request :=
  match pe_textRun elem, pe_startIndex elem, pe_endIndex elem with
  | Some tr, Some s, Some e =>
      if looksLikeTitle (trim (runContent tr)) then [boldRequest s e] else []
  | _, _, _ => []
  end.

Definition titleRequests (body : list StructuralElement) : list Request :=
  flat_map (fun element =>
              match paragraph element with
              | Some paragraphElements =>
                  flat_map titleOfElement paragraphElements
              | None => []
              end) body.

Definition isParagraphStyle (r : Request) : bool :=
  match r with
  | UpdateParagraphStyleRequest _ _ _ => true
  | _ => false
  end.

Definition isGet (c : Call) : bool :=
  match c with
  | CallGet _ => true
  | CallBatchUpdate _ _ => false
  end.

(** A color all of whose components lie in [0, 1]. *)
Definition validColor (color : RgbColor) : Prop :=
  (0 <= red color /\ red color <= 1)%Q
  /\ (0 <= green color /\ green color <= 1)%Q
  /\ (0 <= blue color /\ blue color <= 1)%Q.

(** The name of an option, when the option is set. *)
Definition fieldIf {A : Type} (name : string) (o : option A) : list string :=
  match o with
  | Some _ => [name]
  | None => []
  end.

(** The text options of a cell formatting. *)
Definition textPart (formatting : CellFormatting) : TextFormatting :=
  {| tf_bold := cf_bold formatting; tf_italic := cf_italic formatting;
     tf_underline := cf_underline formatting;
     tf_foregroundColor := cf_foregroundColor formatting |}.



(** What the backend answers to a recorded call made in world [w]: the
    rejection, if any, and the world after. *)
Definition answer {World : Type} (docs : DocsApi World) (c : Call) (w : World)
  : option JsError * World :=
  match c with
  | CallGet documentId =>
      let (r, w') := documents_get docs documentId w in
      (match r with inl e => Some e | inr _ => None end, w')
  | CallBatchUpdate documentId requests =>
      documents_batchUpdate docs documentId requests w
  end.

(** The world the backend is in after a sequence of calls. *)
Fixpoint worldAfter {World : Type} (docs : DocsApi World) (cs : list Call)
    (w : World) : World :=
  match cs with
  | [] => w
  | c :: cs' => worldAfter docs cs' (snd (answer docs c w))
  end.

(** [cause] is what the backend answered to the last call of the run from
    [st] to [st'], made in the world the calls before it had led to. *)
Definition rejectedLast {World : Type} (docs : DocsApi World)
    (st st' : RunState World) (cause : JsError) : Prop :=
  exists before last,
    calls st' = calls st ++ before ++ [last]
    /\ fst (answer docs last (worldAfter docs before (world st))) = Some cause.

(** The end index a snapshot of an empty document shows: 2, or none. *)
Definition emptyEnd (doc : Document) : Prop :=
  body_content doc = []
  \/ exists others lastElement,
       body_content doc = others ++ [lastElement]
       /\ (endIndex lastElement = Some 2 \/ endIndex lastElement = None
           \/ endIndex lastElement = Some 0).

(** An element that [formatFirstLineAsTitle] stops at. *)
Definition titleCandidate (element : StructuralElement) : option (Z * Z) :=
  match paragraph element with
  | Some (firstElem :: _) =>
      match pe_textRun firstElem, pe_startIndex firstElem,
            pe_endIndex firstElem with
      | Some _, Some s, Some e => Some (s, e)
      | _, _, _ => None
      end
  | _ => None
  end.

(** A table that [findTable] accepts for [tableIndex]. *)
Definition tableAtOrAfter (tableIndex : Z) (element : StructuralElement)
  : Prop :=
  table element <> None
  /\ exists s, startIndex element = Some s /\ s >= tableIndex.

(** * Properties *)

(** ** Arrays and optional numbers *)

Lemma js_nth_last {A : Type} (l : list A) (x : A) :
  js_nth (l ++ [x]) (Z.of_nat (List.length (l ++ [x])) - 1) = Some x.
Proof.
  unfold js_nth.
  rewrite length_app; simpl.
  replace (Z.of_nat (List.length l + 1) - 1) with (Z.of_nat (List.length l))
    by lia.
  destruct (Z.of_nat (List.length l) <? 0) eqn:Hneg.
  - apply Z.ltb_lt in Hneg. lia.
  - rewrite Nat2Z.id, nth_error_app2 by lia.
    now rewrite Nat.sub_diag.
Qed.

Lemma lastElementOf_inv (doc : Document) e :
  lastElementOf doc = Some e ->
  exists others, body_content doc = others ++ [e].
Proof.
  unfold lastElementOf. intros Hlast.
  destruct (rev (body_content doc)) as [ | e' l] eqn:Hrev; [discriminate | ].
  injection Hlast as ->. exists (rev l).
  rewrite <- (rev_involutive (body_content doc)), Hrev. reflexivity.
Qed.

Lemma or_num_nonzero (v d : Z) : v <> 0 -> or_num (Some v) d = v.
Proof.
  intros Hv. unfold or_num.
  destruct (v =? 0) eqn:E; [apply Z.eqb_eq in E; contradiction | reflexivity].
Qed.

(** ** Full-document replace *)

Lemma documentEndIndex_snoc (doc : Document) others e (E : Z) :
  body_content doc = others ++ [e] ->
  endIndex e = Some E ->
  documentEndIndex doc = if E =? 0 then 1 else E.
Proof.
  intros Hbody HE. unfold documentEndIndex.
  rewrite Hbody, js_nth_last, HE. reflexivity.
Qed.

Lemma updateRequests_gt (E : Z) (text : jsstring) :
  E > 2 ->
  updateRequests E text =
  [DeleteContentRangeRequest {| range_startIndex := 1; range_endIndex := E - 1 |};
   InsertTextRequest 1 text].
Proof.
  intros H. unfold updateRequests.
  destruct (E >? 2) eqn:G; [reflexivity | ].
  rewrite Z.gtb_ltb in G. apply Z.ltb_ge in G. lia.
Qed.

Lemma updateRequests_le (E : Z) (text : jsstring) :
  E <= 2 -> updateRequests E text = [InsertTextRequest 1 text].
Proof.
  intros H. unfold updateRequests.
  destruct (E >? 2) eqn:G; [ | reflexivity].
  rewrite Z.gtb_ltb in G. apply Z.ltb_lt in G. lia.
Qed.

(** Whatever the backend answers to the batch sent from world [w], the
    record of calls ends the same way. *)
Ltac either_answer docs documentId w :=
  destruct (documents_batchUpdate docs documentId _ w) as [[? | ] ?];
  cbn [snd calls]; now rewrite <- app_assoc.

(** What [updateDocument] does once the read has answered: one read, then
    one batch, whatever the backend says about the batch. *)
Lemma updateDocument_calls {World : Type} (docs : DocsApi World)
    documentId text (st : RunState World) doc w :
  documents_get docs documentId (world st) = (inr doc, w) ->
  calls (snd (updateDocument docs documentId text st)) =
  calls st ++ [CallGet documentId;
               CallBatchUpdate documentId
                 (updateRequests (documentEndIndex doc) text)].
Proof.
  intros Hget.
  unfold updateDocument, try_catch, bind, docs_get, docs_batchUpdate, throw.
  rewrite Hget. cbn [world calls].
  either_answer docs documentId w.
Qed.

(** When the read is rejected nothing is submitted and the failure is
    reported. *)
Lemma updateDocument_read_rejected {World : Type} (docs : DocsApi World)
    documentId text (st : RunState World) err w :
  documents_get docs documentId (world st) = (inl err, w) ->
  updateDocument docs documentId text st =
  (inl (new_Error ("Failed to update document: " ++ error_toString err)),
   {| world := w; calls := calls st ++ [CallGet documentId] |}).
Proof.
  intros Hget.
  unfold updateDocument, try_catch, bind, docs_get, throw.
  now rewrite Hget.
Qed.

(** C1: [updateDocument] takes E from the last top-level element of the
    fresh snapshot and submits one batch: a delete of [1, E-1) followed by
    the insertion at 1 when E > 2, the insertion alone when E <= 2; a
    delete that is emitted always has start 1 strictly below its end E-1,
    so no zero-length delete is ever submitted. *)
Theorem updateDocument_batch :
  forall (World : Type) (docs : DocsApi World) (documentId : string)
         (text : jsstring) (st : RunState World) (doc : Document) (w : World)
         (lastElement : StructuralElement) (E : Z),
    documents_get docs documentId (world st) = (inr doc, w) ->
    lastElementOf doc = Some lastElement ->
    endIndex lastElement = Some E ->
    exists batch,
      calls (snd (updateDocument docs documentId text st)) =
        calls st ++ [CallGet documentId; CallBatchUpdate documentId batch]
      /\ (E > 2 ->
          batch = [DeleteContentRangeRequest
                     {| range_startIndex := 1; range_endIndex := E - 1 |};
                   InsertTextRequest 1 text])
      /\ (E <= 2 -> batch = [InsertTextRequest 1 text])
      /\ (forall r, In (DeleteContentRangeRequest r) batch ->
                    range_startIndex r = 1 /\ range_endIndex r = E - 1
                    /\ range_startIndex r < range_endIndex r).
Proof.
  intros World docs documentId text st doc w lastElement E Hget Hlast HE.
  destruct (lastElementOf_inv doc lastElement Hlast) as [others Hbody].
  exists (updateRequests (documentEndIndex doc) text).
  split; [now apply updateDocument_calls with (w := w) | ].
  rewrite (documentEndIndex_snoc doc others lastElement E Hbody HE).
  destruct (E =? 0) eqn:E0.
  - apply Z.eqb_eq in E0; subst E.
    rewrite (updateRequests_le 1 text) by lia.
    split; [intros; lia | ].
    split; [reflexivity | ].
    intros r [Hr | []]; discriminate.
  - destruct (Z_gt_dec E 2) as [Hgt | Hle].
    + rewrite (updateRequests_gt E text Hgt).
      split; [reflexivity | ].
      split; [intros; lia | ].
      intros r [Hr | [Hr | []]]; [injection Hr as <- | discriminate].
      simpl. lia.
    + rewrite (updateRequests_le E text) by lia.
      split; [intros; lia | ].
      split; [reflexivity | ].
      intros r [Hr | []]; discriminate.
Qed.

Lemma updateDocument_batch_witness :
  documents_get Scripted.api "d" (world (Scripted.start [Samples.tenChars])) =
    (inr Samples.tenChars, [])
  /\ exists batch,
      calls (snd (updateDocument Scripted.api "d" (js "Bye")
                    (Scripted.start [Samples.tenChars]))) =
        calls (Scripted.start [Samples.tenChars])
        ++ [CallGet "d"; CallBatchUpdate "d" batch]
      /\ (12 > 2 ->
          batch = [DeleteContentRangeRequest
                     {| range_startIndex := 1; range_endIndex := 12 - 1 |};
                   InsertTextRequest 1 (js "Bye")])
      /\ (12 <= 2 -> batch = [InsertTextRequest 1 (js "Bye")])
      /\ (forall r, In (DeleteContentRangeRequest r) batch ->
                    range_startIndex r = 1 /\ range_endIndex r = 12 - 1
                    /\ range_startIndex r < range_endIndex r).
Proof.
  split; [reflexivity | ].
  apply (updateDocument_batch Scripted.World Scripted.api "d" (js "Bye")
           (Scripted.start [Samples.tenChars]) Samples.tenChars []
           (Samples.textParagraph 1 (js "0123456789")) 12);
    reflexivity.
Defined.

(** Scenarios A and B of the specification, run on the scripted backend. *)
Example scenario_A :
  calls (snd (updateDocument Scripted.api "d" (js "Hello")
                (Scripted.start [Samples.emptyDoc]))) =
  [CallGet "d"; CallBatchUpdate "d" [InsertTextRequest 1 (js "Hello")]].
Proof. reflexivity. Qed.

Example scenario_B :
  calls (snd (updateDocument Scripted.api "d" (js "Bye")
                (Scripted.start [Samples.tenChars]))) =
  [CallGet "d";
   CallBatchUpdate "d"
     [DeleteContentRangeRequest
        {| range_startIndex := 1; range_endIndex := 11 |};
      InsertTextRequest 1 (js "Bye")]].
Proof. reflexivity. Qed.

(** A body without any element counts as end index 1: insertion only. *)
Lemma updateDocument_empty_body {World : Type} (docs : DocsApi World)
    documentId text (st : RunState World) doc w :
  documents_get docs documentId (world st) = (inr doc, w) ->
  body_content doc = [] ->
  calls (snd (updateDocument docs documentId text st)) =
  calls st ++ [CallGet documentId;
               CallBatchUpdate documentId [InsertTextRequest 1 text]].
Proof.
  intros Hget Hbody.
  rewrite (updateDocument_calls docs documentId text st doc w Hget).
  unfold documentEndIndex. now rewrite Hbody.
Qed.

(** ** The two replace variants *)

Lemma legacy_updateDocument_calls {World : Type} (docs : DocsApi World)
    documentId text (st : RunState World) doc w :
  documents_get docs documentId (world st) = (inr doc, w) ->
  calls (snd (Legacy.updateDocument docs documentId text st)) =
  calls st ++ [CallGet documentId;
               CallBatchUpdate documentId
                 (Legacy.updateRequests (Legacy.contentLength doc) text)].
Proof.
  intros Hget.
  unfold Legacy.updateDocument, try_catch, bind, docs_get, docs_batchUpdate,
    throw.
  rewrite Hget. cbn [world calls].
  either_answer docs documentId w.
Qed.

Lemma single_element_lengths (e : StructuralElement) :
  Legacy.contentLength {| body_content := [e] |} =
  documentEndIndex {| body_content := [e] |}.
Proof. reflexivity. Qed.

(** C4: the variant that reads the end index from the first top-level
    element and the one that reads it from the last submit the same batch
    (indeed behave identically) on every document with a single element;
    on a paragraph followed by a table the first-element variant deletes a
    strictly shorter range, and indices of the table stay outside it. *)
Theorem replace_variants :
  forall (World : Type) (docs : DocsApi World) (documentId : string)
         (text : jsstring) (st : RunState World) (e : StructuralElement)
         (w : World),
    documents_get docs documentId (world st) =
      (inr {| body_content := [e] |}, w) ->
    Legacy.updateDocument docs documentId text st =
      updateDocument docs documentId text st
    /\ Legacy.updateRequests (Legacy.contentLength {| body_content := [e] |}) text =
       updateRequests (documentEndIndex {| body_content := [e] |}) text
    /\ exists (doc : Document) (r1 r2 : Range) (tbl : StructuralElement),
         (List.length (body_content doc) > 1)%nat
         /\ calls (snd (Legacy.updateDocument Scripted.api documentId text
                          (Scripted.start [doc]))) =
            [CallGet documentId;
             CallBatchUpdate documentId
               [DeleteContentRangeRequest r1; InsertTextRequest 1 text]]
         /\ calls (snd (updateDocument Scripted.api documentId text
                          (Scripted.start [doc]))) =
            [CallGet documentId;
             CallBatchUpdate documentId
               [DeleteContentRangeRequest r2; InsertTextRequest 1 text]]
         /\ range_startIndex r1 = range_startIndex r2
         /\ range_endIndex r1 < range_endIndex r2
         /\ In tbl (body_content doc)
         /\ table tbl <> None
         /\ exists i, inElement tbl i /\ inRange r2 i /\ ~ inRange r1 i.
Proof.
  intros World docs documentId text st e w Hget.
  split.
  - unfold Legacy.updateDocument, updateDocument, try_catch, bind, docs_get.
    rewrite Hget. now rewrite single_element_lengths.
  - split; [reflexivity | ].
    exists Samples.paragraphThenTable,
      {| range_startIndex := 1; range_endIndex := 11 |},
      {| range_startIndex := 1; range_endIndex := 22 |},
      (mkElement (Some 12) (Some 23)
         (Table [mkRow [Samples.blankCell 15; Samples.blankCell 17];
                 mkRow [Samples.blankCell 20; Samples.blankCell 22]])).
    split; [simpl; lia | ].
    split; [reflexivity | ].
    split; [reflexivity | ].
    split; [reflexivity | ].
    split; [simpl; lia | ].
    split; [simpl; right; left; reflexivity | ].
    split; [discriminate | ].
    exists 12. unfold inElement, inRange; simpl.
    split; [exists 12, 23; repeat split; lia | ].
    split; lia.
Qed.

Lemma replace_variants_witness :
  Legacy.updateDocument Scripted.api "d" (js "X")
    (Scripted.start [{| body_content := [Samples.textParagraph 1 (js "abc")] |}]) =
  updateDocument Scripted.api "d" (js "X")
    (Scripted.start [{| body_content := [Samples.textParagraph 1 (js "abc")] |}]).
Proof.
  apply (replace_variants Scripted.World Scripted.api "d" (js "X")
           (Scripted.start
              [{| body_content := [Samples.textParagraph 1 (js "abc")] |}])
           (Samples.textParagraph 1 (js "abc")) []).
  reflexivity.
Defined.

(** ** Hyperlink insertion *)

(** C8: [insertLink] submits exactly one batch: the insertion of the text at
    [index], immediately followed by the link style over
    [index, index + length text), the end being computed from the length of
    the input text; nothing is read before or after. *)
Theorem insertLink_batch :
  forall (World : Type) (docs : DocsApi World) (documentId : string)
         (index : Z) (text : jsstring) (url : string) (st : RunState World),
    calls (snd (insertLink docs documentId index text url st)) =
    calls st ++
    [CallBatchUpdate documentId
       [InsertTextRequest index text;
        UpdateTextStyleRequest
          {| range_startIndex := index;
             range_endIndex := index + Z.of_nat (List.length text) |}
          {| bold := None; link_url := Some url |}
          "link"]].
Proof.
  intros World docs documentId index text url st.
  unfold insertLink, try_catch, docs_batchUpdate, throw, js_length.
  destruct (documents_batchUpdate docs documentId _ (world st))
    as [[err | ] w']; reflexivity.
Qed.

Example scenario_D :
  calls (snd (insertLink Scripted.api "d" 5 (js "click here")
                "https://example.com" (Scripted.start []))) =
  [CallBatchUpdate "d"
     [InsertTextRequest 5 (js "click here");
      UpdateTextStyleRequest
        {| range_startIndex := 5; range_endIndex := 15 |}
        {| bold := None; link_url := Some "https://example.com"%string |}
        "link"]].
Proof. reflexivity. Qed.

(** ** Append *)

(** C9: [appendText] reads one fresh snapshot and submits exactly one
    insertion, at E - 1 where E is the end index of the snapshot's last
    top-level element (indices are 1-based, so E is not 0). *)
Theorem appendText_batch :
  forall (World : Type) (docs : DocsApi World) (documentId : string)
         (text : jsstring) (st : RunState World) (doc : Document) (w : World)
         (lastElement : StructuralElement) (E : Z),
    documents_get docs documentId (world st) = (inr doc, w) ->
    lastElementOf doc = Some lastElement ->
    endIndex lastElement = Some E ->
    E <> 0 ->
    calls (snd (appendText docs documentId text st)) =
    calls st ++ [CallGet documentId;
                 CallBatchUpdate documentId [InsertTextRequest (E - 1) text]].
Proof.
  intros World docs documentId text st doc w lastElement E Hget Hlast HE HE0.
  destruct (lastElementOf_inv doc lastElement Hlast) as [others Hbody].
  unfold appendText, try_catch, bind, docs_get, docs_batchUpdate, throw.
  rewrite Hget. cbn [world calls].
  unfold appendIndex.
  rewrite Hbody, js_nth_last, HE, (or_num_nonzero E 2 HE0).
  either_answer docs documentId w.
Qed.

Lemma appendText_batch_witness :
  calls (snd (appendText Scripted.api "d" (js "Bye")
                (Scripted.start [Samples.tenChars]))) =
  calls (Scripted.start [Samples.tenChars])
  ++ [CallGet "d"; CallBatchUpdate "d" [InsertTextRequest (12 - 1) (js "Bye")]].
Proof.
  apply (appendText_batch Scripted.World Scripted.api "d" (js "Bye")
           (Scripted.start [Samples.tenChars]) Samples.tenChars []
           (Samples.textParagraph 1 (js "0123456789")) 12);
    [reflexivity | reflexivity | reflexivity | lia].
Defined.

(** ** Running the service: one step at a time *)

Create HintDb calls.

Section Steps.
Context {World : Type} (docs : DocsApi World).

Lemma bind_ok {A B} (m : M World A) (k : A -> M World B) st a st' :
  m st = (inr a, st') -> bind m k st = k a st'.
Proof. unfold bind. now intros ->. Qed.

Lemma bind_err {A B} (m : M World A) (k : A -> M World B) st e st' :
  m st = (inl e, st') -> bind m k st = (inl e, st').
Proof. unfold bind. now intros ->. Qed.

Lemma try_catch_ok {A} (m : M World A) handler st a st' :
  m st = (inr a, st') -> try_catch m handler st = (inr a, st').
Proof. unfold try_catch. now intros ->. Qed.

Lemma try_catch_err {A} (m : M World A) handler st e st' :
  m st = (inl e, st') -> try_catch m handler st = handler e st'.
Proof. unfold try_catch. now intros ->. Qed.

Lemma docs_get_ok documentId (st : RunState World) doc w :
  documents_get docs documentId (world st) = (inr doc, w) ->
  docs_get docs documentId st =
  (inr doc, {| world := w; calls := calls st ++ [CallGet documentId] |}).
Proof. unfold docs_get. now intros ->. Qed.

Lemma docs_get_err documentId (st : RunState World) e w :
  documents_get docs documentId (world st) = (inl e, w) ->
  docs_get docs documentId st =
  (inl e, {| world := w; calls := calls st ++ [CallGet documentId] |}).
Proof. unfold docs_get. now intros ->. Qed.

Lemma docs_batchUpdate_ok documentId requests (st : RunState World) w :
  documents_batchUpdate docs documentId requests (world st) = (None, w) ->
  docs_batchUpdate docs documentId requests st =
  (inr tt, {| world := w;
              calls := calls st ++ [CallBatchUpdate documentId requests] |}).
Proof. unfold docs_batchUpdate. now intros ->. Qed.

Lemma docs_batchUpdate_err documentId requests (st : RunState World) e w :
  documents_batchUpdate docs documentId requests (world st) = (Some e, w) ->
  docs_batchUpdate docs documentId requests st =
  (inl e, {| world := w;
             calls := calls st ++ [CallBatchUpdate documentId requests] |}).
Proof. unfold docs_batchUpdate. now intros ->. Qed.

Lemma extends_ret {A} (a : A) : extends (@ret World A a).
Proof. intros st. exists []. simpl. now rewrite app_nil_r. Qed.

Lemma extends_throw {A} (e : JsError) : extends (@throw World A e).
Proof. intros st. exists []. simpl. now rewrite app_nil_r. Qed.

Lemma extends_docs_get documentId : extends (docs_get docs documentId).
Proof.
  intros st. exists [CallGet documentId]. unfold docs_get.
  now destruct (documents_get docs documentId (world st)).
Qed.

Lemma extends_docs_batchUpdate documentId requests :
  extends (docs_batchUpdate docs documentId requests).
Proof.
  intros st. exists [CallBatchUpdate documentId requests].
  unfold docs_batchUpdate.
  now destruct (documents_batchUpdate docs documentId requests (world st)).
Qed.

Lemma extends_bind {A B} (m : M World A) (k : A -> M World B) :
  extends m -> (forall a, extends (k a)) -> extends (bind m k).
Proof.
  intros Hm Hk st. unfold bind.
  destruct (Hm st) as [more1 H1].
  destruct (m st) as [[e | a] st1]; simpl in H1.
  - now exists more1.
  - destruct (Hk a st1) as [more2 H2].
    exists (more1 ++ more2). now rewrite H2, H1, app_assoc.
Qed.

Lemma extends_try_catch {A} (m : M World A) handler :
  extends m -> (forall e, extends (handler e)) -> extends (try_catch m handler).
Proof.
  intros Hm Hh st. unfold try_catch.
  destruct (Hm st) as [more1 H1].
  destruct (m st) as [[e | a] st1]; simpl in H1.
  - destruct (Hh e st1) as [more2 H2].
    exists (more1 ++ more2). now rewrite H2, H1, app_assoc.
  - now exists more1.
Qed.

#[local] Hint Resolve extends_ret extends_throw extends_docs_get
  extends_docs_batchUpdate : calls.

Lemma extends_fillCells documentId tableIndex data headerRow :
  extends (fillCells docs documentId tableIndex data headerRow).
Proof.
  unfold fillCells. apply extends_bind; [auto with calls | ].
  intros doc. destruct (findTable _ _); [ | auto with calls].
  destruct (_ >? 0); auto with calls.
Qed.

Lemma extends_formatTable documentId tableIndex columns headerRow :
  extends (formatTable docs documentId tableIndex columns headerRow).
Proof.
  unfold formatTable. apply extends_bind; [auto with calls | ].
  intros doc. destruct (findTable _ _); [ | auto with calls].
  destruct (_ >? 0); auto with calls.
Qed.

(** The whole of [insertTable] only adds calls. *)
Lemma extends_insertTable documentId index rows columns data headerRow :
  extends (insertTable docs documentId index rows columns data headerRow).
Proof.
  unfold insertTable, insertEmptyTable.
  apply extends_try_catch; [ | auto with calls].
  apply extends_bind.
  - apply extends_bind; [ | intros _]; auto with calls.
  - intros _.
    apply extends_bind; [apply extends_fillCells | intros _].
    apply extends_formatTable.
Qed.

(** The first call of the two reading phases is the read. *)
Lemma fillCells_reads_first documentId tableIndex data headerRow st :
  exists more,
    calls (snd (fillCells docs documentId tableIndex data headerRow st)) =
    calls st ++ CallGet documentId :: more.
Proof.
  unfold fillCells, bind, docs_get.
  destruct (documents_get docs documentId (world st)) as [[e | doc] w].
  - now exists [].
  - destruct (findTable _ _).
    + destruct (_ >? 0).
      * destruct (extends_docs_batchUpdate documentId
                    (List.map insertRequest
                       (sortDesc (collectCellInserts headerRow 0 (tableRows s)
                                    data)))
                    {| world := w; calls := calls st ++ [CallGet documentId] |})
          as [more Hmore].
        exists more. rewrite Hmore. cbn [calls]. now rewrite <- app_assoc.
      * now exists [].
    + now exists [].
Qed.
End Steps.

(** ** Table insertion, phase 1 *)


(** C3 (as the code has it): phase 1 of [insertTable] is two submissions of
    one operation each.  The first call of every request is the batch
    holding only the newline insertion at [index]; once the backend accepts
    it, the very next call is the batch holding only the table insertion at
    [index + 1]; no read and no other submission lies between the two, and
    what follows, if anything, starts with the read of the fresh snapshot. *)
Theorem insertTable_phase1 :
  forall (World : Type) (docs : DocsApi World) (documentId : string)
         (index rows columns : Z) (data : TableData) (headerRow : bool)
         (st : RunState World) (w1 : World),
    documents_batchUpdate docs documentId [InsertTextRequest index newline]
      (world st) = (None, w1) ->
    exists rest,
      calls (snd (insertTable docs documentId index rows columns data
                    headerRow st)) =
      calls st
      ++ CallBatchUpdate documentId [InsertTextRequest index newline]
      :: CallBatchUpdate documentId
           [InsertTableRequest rows columns (index + 1)]
      :: rest
      /\ (rest = [] \/ exists rest', rest = CallGet documentId :: rest').
Proof.
  intros World docs documentId index rows columns data headerRow st w1 H1.
  unfold insertTable, insertEmptyTable.
  set (st1 := {| world := w1;
                 calls := calls st ++ [CallBatchUpdate documentId
                                         [InsertTextRequest index newline]] |}).
  assert (Hb1 : docs_batchUpdate docs documentId
                  [InsertTextRequest index newline] st = (inr tt, st1))
    by now apply docs_batchUpdate_ok.
  destruct (documents_batchUpdate docs documentId
              [InsertTableRequest rows columns (index + 1)] w1)
    as [[err | ] w2] eqn:H2.
  - (* the table insertion is rejected *)
    exists []. split; [ | now left].
    assert (Hb2 : docs_batchUpdate docs documentId
                    [InsertTableRequest rows columns (index + 1)] st1 =
                  (inl err,
                   {| world := w2;
                      calls := calls st1
                               ++ [CallBatchUpdate documentId
                                     [InsertTableRequest rows columns
                                        (index + 1)]] |}))
      by now apply docs_batchUpdate_err.
    erewrite try_catch_err.
    2:{ erewrite bind_err; [reflexivity | ].
        erewrite bind_ok by exact Hb1. exact Hb2. }
    unfold throw. cbn [snd calls]. subst st1. cbn [calls].
    now rewrite <- app_assoc.
  - set (st2 := {| world := w2;
                   calls := calls st1
                            ++ [CallBatchUpdate documentId
                                  [InsertTableRequest rows columns
                                     (index + 1)]] |}).
    assert (Hb2 : docs_batchUpdate docs documentId
                    [InsertTableRequest rows columns (index + 1)] st1 =
                  (inr tt, st2))
      by now apply docs_batchUpdate_ok.
    assert (Hcalls2 : calls st2 =
                      calls st
                      ++ [CallBatchUpdate documentId
                            [InsertTextRequest index newline];
                          CallBatchUpdate documentId
                            [InsertTableRequest rows columns (index + 1)]]).
    { subst st2 st1. cbn [calls]. now rewrite <- app_assoc. }
    set (tail := fillCells docs documentId (index + 1) data headerRow ;;;
                 formatTable docs documentId (index + 1) columns headerRow).
    assert (Htail : exists rest',
               calls (snd (tail st2)) = calls st2 ++ CallGet documentId :: rest').
    { subst tail. unfold bind at 1.
      destruct (fillCells_reads_first docs documentId (index + 1) data
                  headerRow st2) as [more Hmore].
      destruct (fillCells docs documentId (index + 1) data headerRow st2)
        as [[e | []] st3]; cbn [snd] in Hmore.
      - now exists more.
      - destruct (extends_formatTable docs documentId (index + 1) columns
                    headerRow st3) as [more' Hmore'].
        exists (more ++ more').
        rewrite Hmore', Hmore, <- app_assoc. reflexivity. }
    destruct Htail as [rest' Hrest'].
    exists (CallGet documentId :: rest'). split; [ | right; now exists rest'].
    unfold try_catch.
    rewrite (bind_ok _ _ st tt st2).
    2:{ erewrite bind_ok by exact Hb1. exact Hb2. }
    fold tail.
    destruct (tail st2) as [[e | []] st4]; cbn [snd] in Hrest'; unfold throw;
      cbn [snd]; rewrite Hrest', Hcalls2, <- app_assoc; reflexivity.
Qed.

Lemma insertTable_phase1_witness :
  exists rest,
    calls (snd (insertTable Scripted.api "d" 1 2 2 Samples.abcd true
                  (Scripted.start [Samples.afterInsert; Samples.afterFill]))) =
    calls (Scripted.start [Samples.afterInsert; Samples.afterFill])
    ++ CallBatchUpdate "d" [InsertTextRequest 1 newline]
    :: CallBatchUpdate "d" [InsertTableRequest 2 2 (1 + 1)]
    :: rest
    /\ (rest = [] \/ exists rest', rest = CallGet "d" :: rest').
Proof.
  apply (insertTable_phase1 Scripted.World Scripted.api "d" 1 2 2 Samples.abcd
           true (Scripted.start [Samples.afterInsert; Samples.afterFill])
           [Samples.afterInsert; Samples.afterFill]).
  reflexivity.
Defined.

(** C3 as stated fails: on scenario C no submitted batch holds the newline
    insertion together with the table insertion; the first two calls are two
    batches of one operation. *)
Lemma insertTable_phase1_two_batches :
  ~ In (CallBatchUpdate "d"
          [InsertTextRequest 1 newline; InsertTableRequest 2 2 2])
       (calls (snd (insertTable Scripted.api "d" 1 2 2 Samples.abcd true
                      (Scripted.start
                         [Samples.afterInsert; Samples.afterFill]))))
  /\ firstn 2
       (calls (snd (insertTable Scripted.api "d" 1 2 2 Samples.abcd true
                      (Scripted.start
                         [Samples.afterInsert; Samples.afterFill])))) =
     [CallBatchUpdate "d" [InsertTextRequest 1 newline];
      CallBatchUpdate "d" [InsertTableRequest 2 2 2]].
Proof.
  split; [ | reflexivity].
  vm_compute.
  intros [H | [H | [H | [H | [H | [H | []]]]]]]; discriminate H.
Qed.

(** ** Table insertion: when the table cannot be found *)

(** C7 (as the code has it): when the snapshot read for the cell fill holds
    no table starting at or after [index + 1], [insertTable] fails with an
    error and makes no further call; when the snapshot read for the
    formatting holds none, [insertTable] ends there and reports success,
    without submitting any formatting. *)
Theorem insertTable_lookup_failures :
  forall (World : Type) (docs : DocsApi World) (documentId : string)
         (index rows columns : Z) (data : TableData) (headerRow : bool)
         (st st2 : RunState World),
    insertEmptyTable docs documentId index rows columns st = (inr tt, st2) ->
    (forall doc w,
        documents_get docs documentId (world st2) = (inr doc, w) ->
        findTable (body_content doc) (index + 1) = None ->
        insertTable docs documentId index rows columns data headerRow st =
        (inl (new_Error
                "Failed to insert table: Error: Failed to find the inserted table in document"),
         {| world := w; calls := calls st2 ++ [CallGet documentId] |}))
    /\ (forall st3 doc w,
           fillCells docs documentId (index + 1) data headerRow st2 =
             (inr tt, st3) ->
           documents_get docs documentId (world st3) = (inr doc, w) ->
           findTable (body_content doc) (index + 1) = None ->
           insertTable docs documentId index rows columns data headerRow st =
           (inr tt,
            {| world := w; calls := calls st3 ++ [CallGet documentId] |})).
Proof.
  intros World docs documentId index rows columns data headerRow st st2 H1.
  split.
  - intros doc w Hget Hnone.
    unfold insertTable.
    rewrite (try_catch_err _ _ st
               (new_Error "Failed to find the inserted table in document")
               {| world := w; calls := calls st2 ++ [CallGet documentId] |});
      [reflexivity | ].
    erewrite bind_ok by exact H1.
    erewrite bind_err; [reflexivity | ].
    unfold fillCells.
    erewrite bind_ok by (apply docs_get_ok; exact Hget).
    rewrite Hnone. reflexivity.
  - intros st3 doc w Hfill Hget Hnone.
    unfold insertTable.
    rewrite (try_catch_ok _ _ st tt
               {| world := w; calls := calls st3 ++ [CallGet documentId] |});
      [reflexivity | ].
    erewrite bind_ok by exact H1.
    erewrite bind_ok by exact Hfill.
    unfold formatTable.
    erewrite bind_ok by (apply docs_get_ok; exact Hget).
    rewrite Hnone. reflexivity.
Qed.

Lemma insertTable_lookup_failures_witness :
  insertTable Scripted.api "d" 1 2 2 Samples.abcd true
    (Scripted.start [Samples.tableGone; Samples.tableGone]) =
  (inl (new_Error
          "Failed to insert table: Error: Failed to find the inserted table in document"),
   {| world := [Samples.tableGone];
      calls := [CallBatchUpdate "d" [InsertTextRequest 1 newline];
                CallBatchUpdate "d" [InsertTableRequest 2 2 2]]
               ++ [CallGet "d"] |})
  /\ insertTable Scripted.api "d" 1 2 2 Samples.abcd true
       (Scripted.start [Samples.afterInsert; Samples.tableGone]) =
     (inr tt,
      {| world := [];
         calls := [CallBatchUpdate "d" [InsertTextRequest 1 newline];
                   CallBatchUpdate "d" [InsertTableRequest 2 2 2];
                   CallGet "d";
                   CallBatchUpdate "d"
                     [InsertTextRequest 12 (js "D");
                      InsertTextRequest 10 (js "C");
                      InsertTextRequest 7 (js "B");
                      InsertTextRequest 5 (js "A")]]
                  ++ [CallGet "d"] |}).
Proof.
  split.
  - apply (proj1 (insertTable_lookup_failures Scripted.World Scripted.api "d"
                    1 2 2 Samples.abcd true
                    (Scripted.start [Samples.tableGone; Samples.tableGone])
                    {| world := [Samples.tableGone; Samples.tableGone];
                       calls := [CallBatchUpdate "d"
                                   [InsertTextRequest 1 newline];
                                 CallBatchUpdate "d"
                                   [InsertTableRequest 2 2 2]] |}
                    eq_refl)
             Samples.tableGone [Samples.tableGone]);
      reflexivity.
  - apply (proj2 (insertTable_lookup_failures Scripted.World Scripted.api "d"
                    1 2 2 Samples.abcd true
                    (Scripted.start [Samples.afterInsert; Samples.tableGone])
                    {| world := [Samples.afterInsert; Samples.tableGone];
                       calls := [CallBatchUpdate "d"
                                   [InsertTextRequest 1 newline];
                                 CallBatchUpdate "d"
                                   [InsertTableRequest 2 2 2]] |}
                    eq_refl)
             {| world := [Samples.tableGone];
                calls := [CallBatchUpdate "d" [InsertTextRequest 1 newline];
                          CallBatchUpdate "d" [InsertTableRequest 2 2 2];
                          CallGet "d";
                          CallBatchUpdate "d"
                            [InsertTextRequest 12 (js "D");
                             InsertTextRequest 10 (js "C");
                             InsertTextRequest 7 (js "B");
                             InsertTextRequest 5 (js "A")]] |}
             Samples.tableGone []);
      reflexivity.
Defined.

(** C7 as stated fails: the second read of this run holds no table at or
    after index 2, and [insertTable] still reports success. *)
Lemma insertTable_format_lookup_silent :
  findTable (body_content Samples.tableGone) (1 + 1) = None
  /\ calls (snd (insertTable Scripted.api "d" 1 2 2 Samples.abcd true
                   (Scripted.start [Samples.afterInsert; Samples.tableGone]))) =
     [CallBatchUpdate "d" [InsertTextRequest 1 newline];
      CallBatchUpdate "d" [InsertTableRequest 2 2 2];
      CallGet "d";
      CallBatchUpdate "d"
        [InsertTextRequest 12 (js "D"); InsertTextRequest 10 (js "C");
         InsertTextRequest 7 (js "B"); InsertTextRequest 5 (js "A")];
      CallGet "d"]
  /\ ~ (exists err,
          fst (insertTable Scripted.api "d" 1 2 2 Samples.abcd true
                 (Scripted.start [Samples.afterInsert; Samples.tableGone])) =
          inl err).
Proof.
  split; [reflexivity | ].
  split; [reflexivity | ].
  intros [err H]. vm_compute in H. discriminate H.
Qed.

(** ** The descending sort of the pending insertions *)

Lemma insertDesc_perm (x : CellInsert) (l : list CellInsert) :
  Permutation (insertDesc x l) (x :: l).
Proof.
  induction l as [ | y l IH]; simpl; [reflexivity | ].
  destruct (ci_index y <=? ci_index x); [reflexivity | ].
  rewrite IH. apply perm_swap.
Qed.

Lemma sortDesc_perm (l : list CellInsert) : Permutation (sortDesc l) l.
Proof.
  induction l as [ | x l IH]; simpl; [reflexivity | ].
  rewrite insertDesc_perm. now apply perm_skip.
Qed.

Lemma sortDesc_length (l : list CellInsert) :
  List.length (sortDesc l) = List.length l.
Proof. apply Permutation_length, sortDesc_perm. Qed.

(** Weakly descending indices. *)
Lemma insertDesc_sorted (x : CellInsert) (l : list CellInsert) :
  StronglySorted Z.ge (List.map ci_index l) ->
  StronglySorted Z.ge (List.map ci_index (insertDesc x l)).
Proof.
  induction l as [ | y l IH]; simpl; intros Hs.
  - constructor; constructor.
  - apply StronglySorted_inv in Hs as [Hs Hall].
    destruct (ci_index y <=? ci_index x) eqn:Hle.
    + apply Z.leb_le in Hle. simpl.
      constructor; [constructor; assumption | ].
      constructor; [lia | ].
      eapply Forall_impl; [ | exact Hall]. simpl. intros; lia.
    + apply Z.leb_gt in Hle. simpl.
      constructor; [now apply IH | ].
      apply (Permutation_Forall
               (Permutation_sym (Permutation_map ci_index (insertDesc_perm x l)))).
      simpl. constructor; [lia | exact Hall].
Qed.

Lemma sortDesc_sorted (l : list CellInsert) :
  StronglySorted Z.ge (List.map ci_index (sortDesc l)).
Proof.
  induction l as [ | x l IH]; simpl; [constructor | ].
  now apply insertDesc_sorted.
Qed.

Lemma sorted_ge_nodup_gt (l : list Z) :
  StronglySorted Z.ge l -> NoDup l -> StronglySorted Z.gt l.
Proof.
  induction l as [ | a l IH]; intros Hs Hn; [constructor | ].
  apply StronglySorted_inv in Hs as [Hs Hall].
  inversion Hn as [ | ? ? Hnotin Hn']; subst.
  constructor; [now apply IH | ].
  rewrite Forall_forall in *. intros b Hb.
  specialize (Hall b Hb).
  assert (a <> b) by (intros ->; contradiction).
  lia.
Qed.

Lemma sorted_lt_nodup (l : list Z) : StronglySorted Z.lt l -> NoDup l.
Proof.
  induction l as [ | a l IH]; intros Hs; [constructor | ].
  apply StronglySorted_inv in Hs as [Hs Hall].
  constructor; [ | now apply IH].
  intros Hin. rewrite Forall_forall in Hall. specialize (Hall a Hin). lia.
Qed.

Lemma sorted_gt_snoc (l : list Z) (a : Z) :
  StronglySorted Z.gt l -> Forall (fun b => b > a) l ->
  StronglySorted Z.gt (l ++ [a]).
Proof.
  induction l as [ | b l IH]; simpl; intros Hs Hall.
  - constructor; constructor.
  - apply StronglySorted_inv in Hs as [Hs Hb].
    inversion Hall; subst.
    constructor; [now apply IH | ].
    apply Forall_app. split; [exact Hb | constructor; [assumption | constructor]].
Qed.

Lemma sorted_lt_rev (l : list Z) :
  StronglySorted Z.lt l -> StronglySorted Z.gt (rev l).
Proof.
  induction l as [ | a l IH]; simpl; intros Hs; [constructor | ].
  apply StronglySorted_inv in Hs as [Hs Hall].
  apply sorted_gt_snoc; [now apply IH | ].
  rewrite Forall_forall in *. intros b Hb.
  apply In_rev in Hb. specialize (Hall b Hb). lia.
Qed.

(** A strictly descending list is determined by its elements. *)
Lemma sorted_gt_unique (l1 l2 : list Z) :
  StronglySorted Z.gt l1 -> StronglySorted Z.gt l2 ->
  Permutation l1 l2 -> l1 = l2.
Proof.
  revert l2. induction l1 as [ | a l1 IH]; intros l2 H1 H2 Hp.
  - apply Permutation_nil in Hp. now subst.
  - destruct l2 as [ | b l2];
      [apply Permutation_sym, Permutation_nil in Hp; discriminate | ].
    apply StronglySorted_inv in H1 as [H1 Ha].
    apply StronglySorted_inv in H2 as [H2 Hb].
    rewrite Forall_forall in Ha, Hb.
    assert (a = b).
    { assert (Hina : In a (b :: l2))
        by (apply (Permutation_in _ Hp); now left).
      assert (Hinb : In b (a :: l1))
        by (apply (Permutation_in _ (Permutation_sym Hp)); now left).
      destruct Hina as [-> | Hina]; [reflexivity | ].
      destruct Hinb as [-> | Hinb]; [reflexivity | ].
      specialize (Ha b Hinb). specialize (Hb a Hina). lia. }
    subst b. f_equal.
    apply IH; try assumption.
    now apply Permutation_cons_inv in Hp.
Qed.

(** With pairwise distinct indices i1 < ... < iN the sort returns them as
    iN, ..., i1. *)
Lemma sortDesc_indices (l : list CellInsert) (idx : list Z) :
  StronglySorted Z.lt idx ->
  Permutation (List.map ci_index l) idx ->
  List.map ci_index (sortDesc l) = rev idx.
Proof.
  intros Hs Hp.
  assert (Hp' : Permutation (List.map ci_index (sortDesc l)) (rev idx)).
  { rewrite (Permutation_map ci_index (sortDesc_perm l)), Hp.
    apply Permutation_rev. }
  apply sorted_gt_unique; [ | now apply sorted_lt_rev | exact Hp'].
  apply sorted_ge_nodup_gt; [apply sortDesc_sorted | ].
  apply (Permutation_NoDup (Permutation_sym Hp')).
  apply (Permutation_NoDup (Permutation_rev idx)).
  now apply sorted_lt_nodup.
Qed.

(** Equal indices keep their collection order (the sort is stable). *)
Example sortDesc_stable :
  List.map ci_text
    (sortDesc [{| ci_index := 5; ci_text := js "a"; ci_isHeader := false |};
               {| ci_index := 7; ci_text := js "b"; ci_isHeader := false |};
               {| ci_index := 5; ci_text := js "c"; ci_isHeader := false |}]) =
  [js "b"; js "a"; js "c"].
Proof. reflexivity. Qed.

(** ** Table insertion: the cell fill *)

Lemma formatTable_reads_first {World : Type} (docs : DocsApi World)
    documentId tableIndex columns headerRow (st : RunState World) :
  exists more,
    calls (snd (formatTable docs documentId tableIndex columns headerRow st)) =
    calls st ++ CallGet documentId :: more.
Proof.
  unfold formatTable, bind, docs_get.
  destruct (documents_get docs documentId (world st)) as [[e | doc] w].
  - now exists [].
  - destruct (findTable _ _) as [t | ].
    + destruct (_ >? 0).
      * destruct (extends_docs_batchUpdate docs documentId
                    (formattingRequests headerRow columns t)
                    {| world := w; calls := calls st ++ [CallGet documentId] |})
          as [more Hmore].
        exists more. rewrite Hmore. cbn [calls]. now rewrite <- app_assoc.
      * now exists [].
    + now exists [].
Qed.

(** What the cell fill does when the table is found and something is to be
    inserted: one read, then one batch. *)
Lemma fillCells_found {World : Type} (docs : DocsApi World)
    documentId tableIndex data headerRow (st : RunState World) doc w
    tableElement :
  documents_get docs documentId (world st) = (inr doc, w) ->
  findTable (body_content doc) tableIndex = Some tableElement ->
  collectCellInserts headerRow 0 (tableRows tableElement) data <> [] ->
  fillCells docs documentId tableIndex data headerRow st =
  docs_batchUpdate docs documentId
    (cellFillRequests headerRow tableElement data)
    {| world := w; calls := calls st ++ [CallGet documentId] |}.
Proof.
  intros Hget Hfind Hne. unfold fillCells.
  erewrite bind_ok by (apply docs_get_ok; exact Hget).
  rewrite Hfind. cbv zeta. rewrite sortDesc_length. unfold cellFillRequests.
  destruct (collectCellInserts headerRow 0 (tableRows tableElement) data);
    [contradiction | reflexivity].
Qed.

(** C2: when the N non-empty data cells resolve, on the snapshot read after
    phase 1, to pairwise distinct insertion indices i1 < ... < iN, the cell
    fill submits one batch, right after that read, whose operations are the
    insertions at iN, ..., i1 in this order; all indices come from that one
    snapshot, and the next call, if any, is the following read. *)
Theorem cellFill_descending :
  forall (World : Type) (docs : DocsApi World) (documentId : string)
         (index rows columns : Z) (data : TableData) (headerRow : bool)
         (st st2 : RunState World) (doc : Document) (w : World)
         (tableElement : StructuralElement) (idx : list Z),
    insertEmptyTable docs documentId index rows columns st = (inr tt, st2) ->
    documents_get docs documentId (world st2) = (inr doc, w) ->
    findTable (body_content doc) (index + 1) = Some tableElement ->
    Permutation
      (List.map ci_index
         (collectCellInserts headerRow 0 (tableRows tableElement) data))
      idx ->
    StronglySorted Z.lt idx ->
    idx <> [] ->
    exists inserts rest,
      calls (snd (insertTable docs documentId index rows columns data
                    headerRow st)) =
      calls st2
      ++ CallGet documentId
      :: CallBatchUpdate documentId
           (List.map (fun c => InsertTextRequest (ci_index c) (ci_text c))
                     inserts)
      :: rest
      /\ List.map ci_index inserts = rev idx
      /\ Permutation inserts
           (collectCellInserts headerRow 0 (tableRows tableElement) data)
      /\ (rest = [] \/ exists rest', rest = CallGet documentId :: rest').
Proof.
  intros World docs documentId index rows columns data headerRow st st2 doc w
    tableElement idx H1 Hget Hfind Hperm Hsorted Hne.
  set (collected :=
         collectCellInserts headerRow 0 (tableRows tableElement) data) in *.
  assert (Hcol : collected <> []).
  { intros Hnil. rewrite Hnil in Hperm. apply Permutation_nil in Hperm.
    contradiction. }
  exists (sortDesc collected).
  assert (Hfill := fillCells_found docs documentId (index + 1) data headerRow
                     st2 doc w tableElement Hget Hfind Hcol).
  set (st2' := {| world := w; calls := calls st2 ++ [CallGet documentId] |})
    in *.
  assert (Hreq : cellFillRequests headerRow tableElement data =
                 List.map (fun c => InsertTextRequest (ci_index c) (ci_text c))
                          (sortDesc collected)) by reflexivity.
  rewrite Hreq in Hfill.
  set (batch := List.map
                  (fun c => InsertTextRequest (ci_index c) (ci_text c))
                  (sortDesc collected)) in *.
  destruct (documents_batchUpdate docs documentId batch w)
    as [[err | ] w3] eqn:Hb.
  - exists [].
    split; [ | split; [now apply sortDesc_indices
                      | split; [apply sortDesc_perm | now left]]].
    unfold insertTable.
    rewrite (try_catch_err _ _ st err
               {| world := w3;
                  calls := calls st2' ++ [CallBatchUpdate documentId batch] |}).
    + unfold throw. cbn [snd calls]. subst st2'. cbn [calls].
      now rewrite <- app_assoc.
    + erewrite bind_ok by exact H1.
      erewrite bind_err; [reflexivity | ].
      rewrite Hfill. now apply docs_batchUpdate_err.
  - set (st3 := {| world := w3;
                   calls := calls st2' ++ [CallBatchUpdate documentId batch] |}).
    assert (Hfill3 : fillCells docs documentId (index + 1) data headerRow st2 =
                     (inr tt, st3)).
    { rewrite Hfill. now apply docs_batchUpdate_ok. }
    destruct (formatTable_reads_first docs documentId (index + 1) columns
                headerRow st3) as [more Hmore].
    exists (CallGet documentId :: more).
    split; [ | split; [now apply sortDesc_indices
                      | split; [apply sortDesc_perm | right; now exists more]]].
    unfold insertTable, try_catch.
    erewrite bind_ok by exact H1.
    erewrite bind_ok by exact Hfill3.
    destruct (formatTable docs documentId (index + 1) columns headerRow st3)
      as [[e | []] st4]; cbn [snd] in Hmore; unfold throw; cbn [snd];
      rewrite Hmore; subst st3 st2'; cbn [calls];
      now rewrite <- !app_assoc.
Qed.

Lemma cellFill_descending_witness :
  exists inserts rest,
    calls (snd (insertTable Scripted.api "d" 1 2 2 Samples.abcd true
                  (Scripted.start [Samples.afterInsert; Samples.afterFill]))) =
    [CallBatchUpdate "d" [InsertTextRequest 1 newline];
     CallBatchUpdate "d" [InsertTableRequest 2 2 2]]
    ++ CallGet "d"
    :: CallBatchUpdate "d"
         (List.map (fun c => InsertTextRequest (ci_index c) (ci_text c))
                   inserts)
    :: rest
    /\ List.map ci_index inserts = rev [5; 7; 10; 12]
    /\ Permutation inserts
         (collectCellInserts true 0 (tableRows Samples.emptyTable)
            Samples.abcd)
    /\ (rest = [] \/ exists rest', rest = CallGet "d" :: rest').
Proof.
  apply (cellFill_descending Scripted.World Scripted.api "d" 1 2 2
           Samples.abcd true
           (Scripted.start [Samples.afterInsert; Samples.afterFill])
           {| world := [Samples.afterInsert; Samples.afterFill];
              calls := [CallBatchUpdate "d" [InsertTextRequest 1 newline];
                        CallBatchUpdate "d" [InsertTableRequest 2 2 2]] |}
           Samples.afterInsert [Samples.afterFill] Samples.emptyTable
           [5; 7; 10; 12]).
  - reflexivity.
  - reflexivity.
  - reflexivity.
  - simpl. apply Permutation_refl.
  - repeat constructor; lia.
  - discriminate.
Defined.

(** Scenario C, the fill batch: four insertions, highest index first. *)
Example scenario_C_fill :
  nth_error
    (calls (snd (insertTable Scripted.api "d" 1 2 2 Samples.abcd true
                   (Scripted.start [Samples.afterInsert; Samples.afterFill]))))
    3 =
  Some (CallBatchUpdate "d"
          [InsertTextRequest 12 (js "D"); InsertTextRequest 10 (js "C");
           InsertTextRequest 7 (js "B"); InsertTextRequest 5 (js "A")]).
Proof. reflexivity. Qed.

(** ** Trimming *)

Lemma trimStart_nil_iff (s : jsstring) :
  trimStart s = [] <-> Forall (fun c => isWhiteSpace c = true) s.
Proof.
  induction s as [ | c s IH]; simpl.
  - split; [constructor | reflexivity].
  - destruct (isWhiteSpace c) eqn:Hc.
    + rewrite IH. split; [now constructor | now inversion 1].
    + split; [discriminate | ].
      inversion 1; subst. congruence.
Qed.

Lemma trimStart_head (s : jsstring) c r :
  trimStart s = c :: r -> isWhiteSpace c = false.
Proof.
  induction s as [ | a s IH]; simpl; [discriminate | ].
  destruct (isWhiteSpace a) eqn:Ha; [exact IH | ].
  now intros [= <- _].
Qed.

Lemma trimStart_incl (s : jsstring) c : In c (trimStart s) -> In c s.
Proof.
  induction s as [ | a s IH]; simpl; [tauto | ].
  destruct (isWhiteSpace a); [intros H; right; now apply IH | tauto].
Qed.

(** Trimming leaves nothing exactly when every code unit is white space. *)
Lemma trim_nil_iff (s : jsstring) :
  trim s = [] <-> Forall (fun c => isWhiteSpace c = true) s.
Proof.
  unfold trim, trimEnd. split.
  - intros H.
    assert (H1 : trimStart (rev (trimStart s)) = []).
    { rewrite <- (rev_involutive (trimStart (rev (trimStart s)))), H.
      reflexivity. }
    apply trimStart_nil_iff in H1.
    apply trimStart_nil_iff.
    destruct (trimStart s) as [ | c r] eqn:Hs; [reflexivity | ].
    pose proof (trimStart_head s c r Hs) as Hc.
    rewrite Forall_forall in H1.
    rewrite (H1 c) in Hc; [discriminate | ].
    apply in_rev. rewrite rev_involutive. now left.
  - intros H. apply trimStart_nil_iff in H. now rewrite H.
Qed.

Lemma trim_nonempty_iff (s : jsstring) :
  trim s <> [] <-> exists c, In c s /\ isWhiteSpace c = false.
Proof.
  rewrite trim_nil_iff. split.
  - intros H. induction s as [ | a s IH].
    + exfalso. apply H. constructor.
    + destruct (isWhiteSpace a) eqn:Ha.
      * destruct IH as [c [Hin Hc]].
        { intros Hall. apply H. now constructor. }
        exists c. split; [now right | exact Hc].
      * exists a. split; [now left | exact Ha].
  - intros [c [Hin Hc]] Hall. rewrite Forall_forall in Hall.
    rewrite (Hall c Hin) in Hc. discriminate.
Qed.

Lemma js_length_pos_iff (s : jsstring) :
  (js_length s >? 0) = true <-> s <> [].
Proof.
  unfold js_length. destruct s; simpl; split; try congruence.
  - discriminate.
  - reflexivity.
Qed.

(** ** Loop counters *)

Lemma in_indexed_from {A : Type} (l : list A) (k : nat) (i : Z) (x : A) :
  In (i, x) (combine (List.map Z.of_nat (seq k (List.length l))) l) <->
  exists n, i = Z.of_nat (k + n) /\ nth_error l n = Some x.
Proof.
  revert k. induction l as [ | a l IH]; intros k; simpl.
  - split; [tauto | intros [[ | n] [_ H]]; discriminate].
  - split.
    + intros [H | H].
      * injection H as <- <-. exists 0%nat. now rewrite Nat.add_0_r.
      * apply IH in H as [n [-> Hn]]. exists (S n).
        split; [f_equal; lia | exact Hn].
    + intros [[ | n] [-> Hn]]; simpl in Hn.
      * injection Hn as <-. left. now rewrite Nat.add_0_r.
      * right. apply IH. exists n. split; [f_equal; lia | exact Hn].
Qed.

Lemma in_indexed {A : Type} (l : list A) (i : Z) (x : A) :
  In (i, x) (indexed l) <->
  exists n, i = Z.of_nat n /\ nth_error l n = Some x.
Proof. unfold indexed. now rewrite in_indexed_from. Qed.

Lemma in_upto (n i : Z) : In i (upto n) <-> 0 <= i < n.
Proof.
  unfold upto. rewrite in_map_iff. split.
  - intros [k [<- Hk]]. apply in_seq in Hk. lia.
  - intros Hi. exists (Z.to_nat i). split; [lia | ].
    apply in_seq. lia.
Qed.

(** ** Table insertion: the header styling *)

Lemma in_boldOfElement (elem : ParagraphElement) (req : Request) :
  In req (boldOfElement elem) ->
  exists tr s e,
    pe_textRun elem = Some tr /\ pe_startIndex elem = Some s
    /\ pe_endIndex elem = Some e /\ trim (runContent tr) <> []
    /\ req = boldRequest s e.
Proof.
  unfold boldOfElement.
  destruct (pe_textRun elem) as [tr | ]; [ | contradiction].
  destruct (pe_startIndex elem) as [s | ]; [ | contradiction].
  destruct (pe_endIndex elem) as [e | ]; [ | contradiction].
  destruct (js_length (trim (runContent tr)) >? 0) eqn:Hlen; [ | contradiction].
  intros [<- | []]. exists tr, s, e.
  repeat split; try reflexivity. now apply js_length_pos_iff.
Qed.

Lemma in_headerElementRequests (el : StructuralElement) (req : Request) :
  In req (headerElementRequests el) ->
  exists els,
    paragraph el = Some els
    /\ ((exists s e, startIndex el = Some s /\ endIndex el = Some e
                     /\ req = centerRequest s e)
        \/ (exists pe tr s e,
               In pe els /\ pe_textRun pe = Some tr
               /\ pe_startIndex pe = Some s /\ pe_endIndex pe = Some e
               /\ trim (runContent tr) <> [] /\ req = boldRequest s e)).
Proof.
  unfold headerElementRequests.
  destruct (paragraph el) as [els | ]; [ | contradiction].
  intros Hin. exists els. split; [reflexivity | ].
  apply in_app_or in Hin as [Hin | Hin].
  - left. destruct (startIndex el) as [s | ]; [ | contradiction].
    destruct (endIndex el) as [e | ]; [ | contradiction].
    destruct Hin as [<- | []]. now exists s, e.
  - right. apply in_flat_map in Hin as [pe [Hpe Hin]].
    apply in_boldOfElement in Hin as [tr [s [e [H1 [H2 [H3 [H4 H5]]]]]]].
    now exists pe, tr, s, e.
Qed.

Lemma headerRequests_cons (tableStartIndex : Z) (firstRow : TableRow)
    (others : list TableRow) :
  headerRequests true tableStartIndex (firstRow :: others) =
  flat_map (fun ic => headerCellRequests tableStartIndex (fst ic) (snd ic))
           (indexed (tableCells firstRow)).
Proof.
  unfold headerRequests.
  replace (Z.of_nat (List.length (firstRow :: others)) >? 0) with true;
    [reflexivity | ].
  symmetry. rewrite Z.gtb_ltb. apply Z.ltb_lt. simpl List.length. lia.
Qed.

(** Where each operation of the header phase comes from. *)
Lemma in_headerRequests (tableStartIndex : Z) (rows : list TableRow)
    (req : Request) :
  In req (headerRequests true tableStartIndex rows) ->
  exists (colIdx : nat) (cell : TableCell),
    nth_error (headerCells rows) colIdx = Some cell
    /\ (req = backgroundRequest tableStartIndex (Z.of_nat colIdx)
        \/ (exists el s e,
               In el (content cell) /\ paragraph el <> None
               /\ startIndex el = Some s /\ endIndex el = Some e
               /\ req = centerRequest s e)
        \/ (exists el els pe tr s e,
               In el (content cell) /\ paragraph el = Some els
               /\ In pe els /\ pe_textRun pe = Some tr
               /\ pe_startIndex pe = Some s /\ pe_endIndex pe = Some e
               /\ trim (runContent tr) <> []
               /\ req = boldRequest s e)).
Proof.
  destruct rows as [ | firstRow others]; [intros [] | ].
  rewrite headerRequests_cons. simpl headerCells.
  intros Hin.
  apply in_flat_map in Hin as [[i cell] [Hic Hin]].
  apply in_indexed in Hic as [n [-> Hn]].
  exists n, cell. split; [exact Hn | ].
  cbn [fst snd] in Hin. unfold headerCellRequests in Hin.
  apply in_app_or in Hin as [Hin | [<- | []]];
    [ | left; reflexivity].
  right.
  apply in_flat_map in Hin as [el [Hel Hin]].
  apply in_headerElementRequests in Hin as [els [Hpar [Hc | Hb]]].
  - left. destruct Hc as [s [e [Hs [He ->]]]].
    exists el, s, e. repeat split; try assumption. congruence.
  - right. destruct Hb as [pe [tr [s [e [H1 [H2 [H3 [H4 [H5 ->]]]]]]]]].
    exists el, els, pe, tr, s, e. repeat split; assumption.
Qed.

(** What the header phase emits for a cell of row 0 is part of what it
    emits for the table. *)
Lemma headerCellRequests_incl (tableStartIndex : Z) (rows : list TableRow)
    (colIdx : nat) (cell : TableCell) (req : Request) :
  nth_error (headerCells rows) colIdx = Some cell ->
  In req (headerCellRequests tableStartIndex (Z.of_nat colIdx) cell) ->
  In req (headerRequests true tableStartIndex rows).
Proof.
  destruct rows as [ | firstRow others];
    [destruct colIdx; discriminate | ].
  simpl headerCells. intros Hn Hin.
  rewrite headerRequests_cons. apply in_flat_map.
  exists (Z.of_nat colIdx, cell). split; [ | exact Hin].
  apply in_indexed. now exists colIdx.
Qed.

(** A paragraph with both indices is centered. *)
Lemma center_in_headerCellRequests (tableStartIndex colIdx : Z)
    (cell : TableCell) (el : StructuralElement) (s e : Z) :
  In el (content cell) -> paragraph el <> None ->
  startIndex el = Some s -> endIndex el = Some e ->
  In (centerRequest s e) (headerCellRequests tableStartIndex colIdx cell).
Proof.
  intros Hel Hpar Hs He. unfold headerCellRequests.
  apply in_or_app. left. apply in_flat_map. exists el. split; [exact Hel | ].
  unfold headerElementRequests.
  destruct (paragraph el) as [els | ]; [ | contradiction].
  rewrite Hs, He. now left.
Qed.

(** A text run with both indices and something left after trimming is made
    bold. *)
Lemma bold_in_headerCellRequests (tableStartIndex colIdx : Z)
    (cell : TableCell) (el : StructuralElement)
    (els : list ParagraphElement) (pe : ParagraphElement) (tr : TextRun)
    (s e : Z) :
  In el (content cell) -> paragraph el = Some els -> In pe els ->
  pe_textRun pe = Some tr -> pe_startIndex pe = Some s ->
  pe_endIndex pe = Some e -> trim (runContent tr) <> [] ->
  In (boldRequest s e) (headerCellRequests tableStartIndex colIdx cell).
Proof.
  intros Hel Hpar Hpe Htr Hs He Htrim. unfold headerCellRequests.
  apply in_or_app. left. apply in_flat_map. exists el. split; [exact Hel | ].
  unfold headerElementRequests. rewrite Hpar.
  apply in_or_app. right. apply in_flat_map. exists pe. split; [exact Hpe | ].
  unfold boldOfElement. rewrite Htr, Hs, He.
  apply js_length_pos_iff in Htrim. rewrite Htrim. now left.
Qed.

(** C5: with [headerRow = true] every operation of the header phase belongs
    to a cell of row 0: it is the gray background (0.9, 0.9, 0.9) addressed
    to (row 0, column c), or the centering of a paragraph of that cell, or
    bold over a text run of such a paragraph whose trimmed content is not
    empty.  Conversely every cell of row 0 gets its gray background, every
    paragraph of such a cell that has both indices is centered, and every
    text run of such a paragraph that has both indices and a non-empty
    trimmed content is made bold.  The rows after the first have no
    influence on what is emitted. *)
Theorem headerRequests_scope :
  forall (tableStartIndex : Z) (rows : list TableRow),
    (forall req,
        In req (headerRequests true tableStartIndex rows) ->
        exists (colIdx : nat) (cell : TableCell),
          nth_error (headerCells rows) colIdx = Some cell
          /\ (req = UpdateTableCellStyleRequest
                      {| borderTop := None; borderBottom := None;
                         borderLeft := None; borderRight := None;
                         backgroundColor :=
                           Some {| red := 9 # 10; green := 9 # 10;
                                   blue := 9 # 10 |} |}
                      {| tableStartLocation := tableStartIndex;
                         rowIndex := 0; columnIndex := Z.of_nat colIdx;
                         rowSpan := 1; columnSpan := 1 |}
                      "backgroundColor"
              \/ (exists el s e,
                     In el (content cell) /\ paragraph el <> None
                     /\ startIndex el = Some s /\ endIndex el = Some e
                     /\ req = UpdateParagraphStyleRequest
                                {| range_startIndex := s;
                                   range_endIndex := e |}
                                "CENTER" "alignment")
              \/ (exists el els pe tr s e,
                     In el (content cell) /\ paragraph el = Some els
                     /\ In pe els /\ pe_textRun pe = Some tr
                     /\ pe_startIndex pe = Some s /\ pe_endIndex pe = Some e
                     /\ trim (runContent tr) <> []
                     /\ req = UpdateTextStyleRequest
                                {| range_startIndex := s;
                                   range_endIndex := e |}
                                {| bold := Some true; link_url := None |}
                                "bold")))
    /\ (forall (colIdx : nat) (cell : TableCell),
           nth_error (headerCells rows) colIdx = Some cell ->
           In (UpdateTableCellStyleRequest
                 {| borderTop := None; borderBottom := None;
                    borderLeft := None; borderRight := None;
                    backgroundColor :=
                      Some {| red := 9 # 10; green := 9 # 10;
                              blue := 9 # 10 |} |}
                 {| tableStartLocation := tableStartIndex;
                    rowIndex := 0; columnIndex := Z.of_nat colIdx;
                    rowSpan := 1; columnSpan := 1 |}
                 "backgroundColor")
              (headerRequests true tableStartIndex rows))
    /\ (forall (colIdx : nat) (cell : TableCell) el s e,
           nth_error (headerCells rows) colIdx = Some cell ->
           In el (content cell) -> paragraph el <> None ->
           startIndex el = Some s -> endIndex el = Some e ->
           In (UpdateParagraphStyleRequest
                 {| range_startIndex := s; range_endIndex := e |}
                 "CENTER" "alignment")
              (headerRequests true tableStartIndex rows))
    /\ (forall (colIdx : nat) (cell : TableCell) el els pe tr s e,
           nth_error (headerCells rows) colIdx = Some cell ->
           In el (content cell) -> paragraph el = Some els ->
           In pe els -> pe_textRun pe = Some tr ->
           pe_startIndex pe = Some s -> pe_endIndex pe = Some e ->
           trim (runContent tr) <> [] ->
           In (UpdateTextStyleRequest
                 {| range_startIndex := s; range_endIndex := e |}
                 {| bold := Some true; link_url := None |}
                 "bold")
              (headerRequests true tableStartIndex rows))
    /\ (forall firstRow others others',
           rows = firstRow :: others ->
           headerRequests true tableStartIndex (firstRow :: others') =
           headerRequests true tableStartIndex rows).
Proof.
  intros tableStartIndex rows.
  split; [exact (in_headerRequests tableStartIndex rows) | ].
  split.
  { intros colIdx cell Hn.
    apply (headerCellRequests_incl tableStartIndex rows colIdx cell _ Hn).
    unfold headerCellRequests. apply in_or_app. right. now left. }
  split.
  { intros colIdx cell el s e Hn Hel Hpar Hs He.
    apply (headerCellRequests_incl tableStartIndex rows colIdx cell _ Hn).
    now apply (center_in_headerCellRequests _ _ cell el s e). }
  split.
  { intros colIdx cell el els pe tr s e Hn Hel Hpar Hpe Htr Hs He Htrim.
    apply (headerCellRequests_incl tableStartIndex rows colIdx cell _ Hn).
    now apply (bold_in_headerCellRequests _ _ cell el els pe tr s e). }
  intros firstRow others others' ->.
  now rewrite !headerRequests_cons.
Qed.

Lemma headerRequests_scope_witness :
  (exists (colIdx : nat) (cell : TableCell),
    nth_error (headerCells (tableRows Samples.filledTable)) colIdx = Some cell
    /\ (boldRequest 8 10 =
          UpdateTableCellStyleRequest
            {| borderTop := None; borderBottom := None;
               borderLeft := None; borderRight := None;
               backgroundColor :=
                 Some {| red := 9 # 10; green := 9 # 10; blue := 9 # 10 |} |}
            {| tableStartLocation := 2;
               rowIndex := 0; columnIndex := Z.of_nat colIdx;
               rowSpan := 1; columnSpan := 1 |}
            "backgroundColor"
        \/ (exists el s e,
               In el (content cell) /\ paragraph el <> None
               /\ startIndex el = Some s /\ endIndex el = Some e
               /\ boldRequest 8 10 =
                  UpdateParagraphStyleRequest
                    {| range_startIndex := s; range_endIndex := e |}
                    "CENTER" "alignment")
        \/ (exists el els pe tr s e,
               In el (content cell) /\ paragraph el = Some els
               /\ In pe els /\ pe_textRun pe = Some tr
               /\ pe_startIndex pe = Some s /\ pe_endIndex pe = Some e
               /\ trim (runContent tr) <> []
               /\ boldRequest 8 10 =
                  UpdateTextStyleRequest
                    {| range_startIndex := s; range_endIndex := e |}
                    {| bold := Some true; link_url := None |}
                    "bold")))
  /\ In (centerRequest 8 10)
        (headerRequests true 2 (tableRows Samples.filledTable))
  /\ In (boldRequest 8 10)
        (headerRequests true 2 (tableRows Samples.filledTable)).
Proof.
  split; [ | split].
  - apply (proj1 (headerRequests_scope 2 (tableRows Samples.filledTable))).
    vm_compute. do 4 right. left. reflexivity.
  - apply (proj1 (proj2 (proj2 (headerRequests_scope 2
                                  (tableRows Samples.filledTable))))
             1%nat (Samples.textCell 8 (js "B"))
             (mkElement (Some 8) (Some 10)
                (Paragraph [{| pe_startIndex := Some 8;
                               pe_endIndex := Some 10;
                               pe_textRun :=
                                 Some {| textRun_content :=
                                           Some (js "B" ++ newline) |} |}]))
             8 10).
    + reflexivity.
    + left. reflexivity.
    + discriminate.
    + reflexivity.
    + reflexivity.
  - apply (proj1 (proj2 (proj2 (proj2 (headerRequests_scope 2
                                         (tableRows Samples.filledTable)))))
             1%nat (Samples.textCell 8 (js "B"))
             (mkElement (Some 8) (Some 10)
                (Paragraph [{| pe_startIndex := Some 8;
                               pe_endIndex := Some 10;
                               pe_textRun :=
                                 Some {| textRun_content :=
                                           Some (js "B" ++ newline) |} |}]))
             [{| pe_startIndex := Some 8; pe_endIndex := Some 10;
                 pe_textRun :=
                   Some {| textRun_content := Some (js "B" ++ newline) |} |}]
             {| pe_startIndex := Some 8; pe_endIndex := Some 10;
                pe_textRun :=
                  Some {| textRun_content := Some (js "B" ++ newline) |} |}
             {| textRun_content := Some (js "B" ++ newline) |} 8 10).
    + reflexivity.
    + left. reflexivity.
    + reflexivity.
    + left. reflexivity.
    + reflexivity.
    + reflexivity.
    + reflexivity.
    + vm_compute. discriminate.
Defined.

(** Scenario C, the header phase: per header cell the centering, the bold
    and the gray background, all for row 0. *)
Example scenario_C_header :
  headerRequests true 2 (tableRows Samples.filledTable) =
  [centerRequest 5 7; boldRequest 5 7; backgroundRequest 2 0;
   centerRequest 8 10; boldRequest 8 10; backgroundRequest 2 1].
Proof. reflexivity. Qed.

Lemma headerRequests_off (tableStartIndex : Z) (rows : list TableRow) :
  headerRequests false tableStartIndex rows = [].
Proof. reflexivity. Qed.

(** ** Table insertion: how cell styles are addressed *)

(** The lookup returns the first table that has a start index at or after
    [tableIndex]; in particular the table found has a start index. *)
Lemma findTable_found (body : list StructuralElement) (tableIndex : Z)
    (t : StructuralElement) :
  findTable body tableIndex = Some t ->
  In t body /\ table t <> None
  /\ exists s, startIndex t = Some s /\ s >= tableIndex
               /\ tableStartIndexOf t = s.
Proof.
  unfold findTable. intros H. apply find_some in H as [Hin Hp].
  split; [exact Hin | ].
  destruct (table t) as [rows | ] eqn:Ht; [ | discriminate].
  split; [discriminate | ].
  unfold tableStartIndexOf.
  destruct (startIndex t) as [s | ]; [ | discriminate].
  exists s. repeat split. rewrite Z.geb_leb in Hp. apply Z.leb_le in Hp. lia.
Qed.

Lemma filter_all {A : Type} (f : A -> bool) (l : list A) :
  (forall x, In x l -> f x = true) -> filter f l = l.
Proof.
  induction l as [ | a l IH]; simpl; intros H; [reflexivity | ].
  rewrite (H a) by now left. f_equal. apply IH. intros x Hx. apply H. now right.
Qed.

Lemma filter_none {A : Type} (f : A -> bool) (l : list A) :
  (forall x, In x l -> f x = false) -> filter f l = [].
Proof.
  induction l as [ | a l IH]; simpl; intros H; [reflexivity | ].
  rewrite (H a) by now left. apply IH. intros x Hx. apply H. now right.
Qed.

Lemma in_borderRequests (tableStartIndex numRows numCols : Z) (req : Request) :
  In req (borderRequests tableStartIndex numRows numCols) <->
  exists rowIdx colIdx,
    0 <= rowIdx < numRows /\ 0 <= colIdx < numCols
    /\ req = borderRequest tableStartIndex rowIdx colIdx.
Proof.
  unfold borderRequests. rewrite in_flat_map. split.
  - intros [rowIdx [Hr Hin]]. apply in_map_iff in Hin as [colIdx [<- Hc]].
    exists rowIdx, colIdx. rewrite in_upto in Hr, Hc. now repeat split.
  - intros [rowIdx [colIdx [Hr [Hc ->]]]].
    exists rowIdx. split; [now apply in_upto | ].
    apply in_map_iff. exists colIdx. split; [reflexivity | now apply in_upto].
Qed.

Lemma filter_cellStyle_borders (tableStartIndex numRows numCols : Z) :
  filter isCellStyle (borderRequests tableStartIndex numRows numCols) =
  borderRequests tableStartIndex numRows numCols.
Proof.
  apply filter_all. intros req Hin.
  apply in_borderRequests in Hin as [r [c [_ [_ ->]]]]. reflexivity.
Qed.

Lemma filter_cellStyle_element (el : StructuralElement) :
  filter isCellStyle (headerElementRequests el) = [].
Proof.
  apply filter_none. intros req Hin.
  apply in_headerElementRequests in Hin as [els [_ [Hc | Hb]]].
  - destruct Hc as [s [e [_ [_ ->]]]]. reflexivity.
  - destruct Hb as [pe [tr [s [e [_ [_ [_ [_ [_ ->]]]]]]]]]. reflexivity.
Qed.

Lemma filter_cellStyle_cell (tableStartIndex colIdx : Z) (cell : TableCell) :
  filter isCellStyle (headerCellRequests tableStartIndex colIdx cell) =
  [backgroundRequest tableStartIndex colIdx].
Proof.
  unfold headerCellRequests. rewrite filter_app.
  rewrite (filter_none isCellStyle (flat_map _ _)); [reflexivity | ].
  intros req Hin. apply in_flat_map in Hin as [el [_ Hin]].
  assert (Hf : In req (filter isCellStyle (headerElementRequests el)) -> False)
    by (rewrite filter_cellStyle_element; tauto).
  destruct (isCellStyle req) eqn:Hreq; [ | reflexivity].
  exfalso. apply Hf. apply filter_In. now split.
Qed.

Lemma filter_cellStyle_cells (tableStartIndex : Z) (cells : list TableCell)
    (k : nat) :
  filter isCellStyle
    (flat_map (fun ic => headerCellRequests tableStartIndex (fst ic) (snd ic))
       (combine (List.map Z.of_nat (seq k (List.length cells))) cells)) =
  List.map (backgroundRequest tableStartIndex)
    (List.map Z.of_nat (seq k (List.length cells))).
Proof.
  revert k. induction cells as [ | cell cells IH]; intros k; [reflexivity | ].
  cbn [List.length seq List.map combine flat_map fst snd].
  rewrite filter_app, filter_cellStyle_cell, IH. reflexivity.
Qed.

(** Of the header phase only the backgrounds are cell styles: one per cell
    of row 0, in column order. *)
Lemma filter_cellStyle_header (headerRow : bool) (tableStartIndex : Z)
    (rows : list TableRow) :
  filter isCellStyle (headerRequests headerRow tableStartIndex rows) =
  if headerRow
  then List.map (backgroundRequest tableStartIndex)
         (upto (Z.of_nat (List.length (headerCells rows))))
  else [].
Proof.
  destruct headerRow; [ | reflexivity].
  destruct rows as [ | firstRow others]; [reflexivity | ].
  rewrite headerRequests_cons. unfold indexed, upto. simpl headerCells.
  rewrite Nat2Z.id. apply filter_cellStyle_cells.
Qed.

Lemma shape_facts (rows rows' : list TableRow) (columns : Z) :
  shape rows = shape rows' ->
  List.length rows = List.length rows'
  /\ numColsOf rows columns = numColsOf rows' columns
  /\ List.length (headerCells rows) = List.length (headerCells rows').
Proof.
  intros H.
  split; [rewrite <- (length_map (fun r => List.length (tableCells r)) rows),
            <- (length_map (fun r => List.length (tableCells r)) rows');
          unfold shape in H; now rewrite H | ].
  destruct rows as [ | r rows], rows' as [ | r' rows'];
    try discriminate H; [now split | ].
  injection H as H0 H. unfold numColsOf. simpl. now rewrite H0.
Qed.

(** C6: every cell style submitted by the formatting phase (the borders of
    all cells and the header backgrounds) addresses its cell by the start
    index of the table read from the fresh snapshot, a row index and a
    column index, with row span and column span 1; there is no character
    range in it.  The cell styles depend on the table only through its
    start index and its shape, so a snapshot whose cell texts and character
    indices differ yields the same cell styles for the same cells. *)
Theorem cellStyle_addressing :
  forall (headerRow : bool) (columns : Z) (t t' : StructuralElement)
         (style : TableCellStyle) (tr : TableRange) (fields : string),
    In (UpdateTableCellStyleRequest style tr fields)
       (formattingRequests headerRow columns t) ->
    startIndex t' = startIndex t ->
    shape (tableRows t') = shape (tableRows t) ->
    (tableStartLocation tr = tableStartIndexOf t
     /\ rowSpan tr = 1 /\ columnSpan tr = 1
     /\ 0 <= rowIndex tr < Z.of_nat (List.length (tableRows t))
     /\ 0 <= columnIndex tr < numColsOf (tableRows t) columns)
    /\ filter isCellStyle (formattingRequests headerRow columns t') =
       filter isCellStyle (formattingRequests headerRow columns t)
    /\ In (UpdateTableCellStyleRequest style tr fields)
          (formattingRequests headerRow columns t').
Proof.
  intros headerRow columns t t' style tr fields Hin Hstart Hshape.
  assert (Hsame : filter isCellStyle (formattingRequests headerRow columns t') =
                  filter isCellStyle (formattingRequests headerRow columns t)).
  { unfold formattingRequests. cbv zeta.
    destruct (shape_facts _ _ columns Hshape) as [Hlen [Hcols Hhead]].
    unfold tableStartIndexOf. rewrite Hstart, Hlen, Hcols.
    rewrite !filter_app, !filter_cellStyle_header, Hhead. reflexivity. }
  split; [ | split; [exact Hsame | ]].
  - unfold formattingRequests in Hin. cbv zeta in Hin.
    apply in_app_or in Hin as [Hin | Hin].
    + apply in_borderRequests in Hin as [r [c [Hr [Hc Heq]]]].
      injection Heq as -> -> ->. cbn. repeat split; lia.
    + destruct headerRow; [ | contradiction].
      apply in_headerRequests in Hin as [colIdx [cell [Hn Hreq]]].
      destruct Hreq as [Heq | [Hc | Hb]].
      * injection Heq as -> -> ->. cbn.
        assert (Hlt : (colIdx < List.length (headerCells (tableRows t)))%nat).
        { apply nth_error_Some. congruence. }
        destruct (tableRows t) as [ | firstRow others];
          [simpl in Hlt; lia | ].
        simpl headerCells in Hlt. unfold numColsOf. simpl.
        destruct (Z.of_nat (List.length (tableCells firstRow)) =? 0) eqn:E0;
          [apply Z.eqb_eq in E0 | ]; repeat split; lia.
      * destruct Hc as [el [s [e [_ [_ [_ [_ Heq]]]]]]]. discriminate Heq.
      * destruct Hb as [el [els [pe [tr' [s [e H]]]]]].
        destruct H as [_ [_ [_ [_ [_ [_ [_ Heq]]]]]]]. discriminate Heq.
  - assert (Hf : In (UpdateTableCellStyleRequest style tr fields)
                    (filter isCellStyle (formattingRequests headerRow columns t))).
    { apply filter_In. now split. }
    rewrite <- Hsame in Hf. now apply filter_In in Hf.
Qed.

Lemma cellStyle_addressing_witness :
  (tableStartLocation (cellAt 2 0 1) = tableStartIndexOf Samples.filledTable
   /\ rowSpan (cellAt 2 0 1) = 1 /\ columnSpan (cellAt 2 0 1) = 1
   /\ 0 <= rowIndex (cellAt 2 0 1)
        < Z.of_nat (List.length (tableRows Samples.filledTable))
   /\ 0 <= columnIndex (cellAt 2 0 1)
        < numColsOf (tableRows Samples.filledTable) 2)
  /\ filter isCellStyle (formattingRequests true 2 Samples.emptyTable) =
     filter isCellStyle (formattingRequests true 2 Samples.filledTable)
  /\ In (backgroundRequest 2 1)
        (formattingRequests true 2 Samples.emptyTable).
Proof.
  apply (cellStyle_addressing true 2 Samples.filledTable Samples.emptyTable
           {| borderTop := None; borderBottom := None; borderLeft := None;
              borderRight := None; backgroundColor := Some lightGray |}
           (cellAt 2 0 1) "backgroundColor").
  - vm_compute. do 9 right. left. reflexivity.
  - reflexivity.
  - reflexivity.
Defined.

(** ** Table insertion: data that does not fit the table *)

Lemma rowCellInserts_nil_data headerRow rowIdx (cells : list TableCell) :
  rowCellInserts headerRow rowIdx cells [] = [].
Proof. now destruct cells. Qed.

Lemma rowCellInserts_clip headerRow rowIdx (cells : list TableCell)
    (rowData : list (option jsstring)) :
  rowCellInserts headerRow rowIdx cells (firstn (List.length cells) rowData) =
  rowCellInserts headerRow rowIdx cells rowData.
Proof.
  revert rowData. induction cells as [ | cell cells IH]; intros rowData;
    [reflexivity | ].
  destruct rowData as [ | entry rowData]; [reflexivity | ].
  simpl. now rewrite IH.
Qed.

Lemma collectCellInserts_clip headerRow rowIdx (rows : list TableRow)
    (data : TableData) :
  collectCellInserts headerRow rowIdx rows (clipData rows data) =
  collectCellInserts headerRow rowIdx rows data.
Proof.
  revert rowIdx data. induction rows as [ | row rows IH]; intros rowIdx data;
    [reflexivity | ].
  destruct data as [ | d data]; [reflexivity | ].
  simpl. rewrite IH. f_equal.
  destruct d as [rowData | ]; simpl; [apply rowCellInserts_clip | ].
  reflexivity.
Qed.

Lemma in_cellInsert headerRow rowIdx cell entry (ci : CellInsert) :
  In ci (cellInsert headerRow rowIdx cell entry) ->
  exists s,
    entry = Some s /\ s <> []
    /\ firstParagraphStart (content cell) = Some (ci_index ci)
    /\ ci_text ci = s.
Proof.
  unfold cellInsert. destruct entry as [s | ]; [ | contradiction].
  destruct (js_length s >? 0) eqn:Hlen; [ | contradiction].
  destruct (firstParagraphStart (content cell)) as [i | ]; [ | contradiction].
  intros [<- | []]. exists s. repeat split. now apply js_length_pos_iff.
Qed.

Lemma in_rowCellInserts headerRow rowIdx (cells : list TableCell)
    (rowData : list (option jsstring)) (ci : CellInsert) :
  In ci (rowCellInserts headerRow rowIdx cells rowData) ->
  exists colIdx cell entry,
    nth_error cells colIdx = Some cell
    /\ nth_error rowData colIdx = Some entry
    /\ In ci (cellInsert headerRow rowIdx cell entry).
Proof.
  revert rowData. induction cells as [ | cell cells IH]; intros rowData Hin;
    [contradiction | ].
  destruct rowData as [ | entry rowData]; [contradiction | ].
  simpl in Hin. apply in_app_or in Hin as [Hin | Hin].
  - now exists 0%nat, cell, entry.
  - apply IH in Hin as [c [cell' [entry' [H1 [H2 H3]]]]].
    now exists (S c), cell', entry'.
Qed.

Lemma in_collectCellInserts headerRow rowIdx (rows : list TableRow)
    (data : TableData) (ci : CellInsert) :
  In ci (collectCellInserts headerRow rowIdx rows data) ->
  exists r row rowData,
    nth_error rows r = Some row
    /\ nth_error data r = Some (Some rowData)
    /\ In ci (rowCellInserts headerRow (rowIdx + r) (tableCells row) rowData).
Proof.
  revert rowIdx data. induction rows as [ | row rows IH]; intros rowIdx data Hin;
    [contradiction | ].
  destruct data as [ | d data]; [contradiction | ].
  simpl in Hin. apply in_app_or in Hin as [Hin | Hin].
  - destruct d as [rowData | ];
      [ | rewrite rowCellInserts_nil_data in Hin; contradiction].
    exists 0%nat, row, rowData. now rewrite Nat.add_0_r.
  - apply IH in Hin as [r [row' [rowData [H1 [H2 H3]]]]].
    exists (S r), row', rowData.
    repeat split; try assumption.
    now replace (rowIdx + S r)%nat with (S rowIdx + r)%nat by lia.
Qed.

(** Every insertion of the fill batch is the non-empty entry (r, c) of the
    data, for a cell (r, c) that the table has. *)
Lemma cellFillRequests_provenance headerRow (t : StructuralElement)
    (data : TableData) (req : Request) :
  In req (cellFillRequests headerRow t data) ->
  exists r c row cell rowData s i,
    nth_error (tableRows t) r = Some row
    /\ nth_error (tableCells row) c = Some cell
    /\ nth_error data r = Some (Some rowData)
    /\ nth_error rowData c = Some (Some s)
    /\ s <> []
    /\ firstParagraphStart (content cell) = Some i
    /\ req = InsertTextRequest i s.
Proof.
  unfold cellFillRequests. intros Hin.
  apply in_map_iff in Hin as [ci [<- Hin]].
  apply (Permutation_in _ (sortDesc_perm _)) in Hin.
  apply in_collectCellInserts in Hin as [r [row [rowData [H1 [H2 Hin]]]]].
  apply in_rowCellInserts in Hin as [c [cell [entry [H3 [H4 Hin]]]]].
  apply in_cellInsert in Hin as [s [-> [Hs [Hi Ht]]]].
  exists r, c, row, cell, rowData, s, (ci_index ci).
  repeat split; try assumption.
  unfold insertRequest. now rewrite Ht.
Qed.

(** With the table found, the cell fill fails only if the backend rejects
    its batch. *)
Lemma fillCells_no_error {World : Type} (docs : DocsApi World)
    documentId tableIndex data headerRow (st : RunState World) doc w t :
  documents_get docs documentId (world st) = (inr doc, w) ->
  findTable (body_content doc) tableIndex = Some t ->
  (forall requests,
      fst (documents_batchUpdate docs documentId requests w) = None) ->
  fst (fillCells docs documentId tableIndex data headerRow st) = inr tt.
Proof.
  intros Hget Hfind Hacc. unfold fillCells.
  erewrite bind_ok by (apply docs_get_ok; exact Hget).
  rewrite Hfind. cbv zeta.
  destruct (_ >? 0); [ | reflexivity].
  unfold docs_batchUpdate. cbn [world].
  specialize (Hacc (cellFillRequests headerRow t data)).
  unfold cellFillRequests in Hacc.
  destruct (documents_batchUpdate docs documentId _ w) as [[e | ] w'];
    [discriminate Hacc | reflexivity].
Qed.

(** A header cell whose text is blank gets the centering and the gray
    background, and no text style. *)
Lemma blank_header_cell (tableStartIndex colIdx : Z) (cell : TableCell) :
  blankCellText cell ->
  In (backgroundRequest tableStartIndex colIdx)
     (headerCellRequests tableStartIndex colIdx cell)
  /\ (forall el s e,
         In el (content cell) -> paragraph el <> None ->
         startIndex el = Some s -> endIndex el = Some e ->
         In (centerRequest s e)
            (headerCellRequests tableStartIndex colIdx cell))
  /\ (forall range style fields,
         ~ In (UpdateTextStyleRequest range style fields)
              (headerCellRequests tableStartIndex colIdx cell)).
Proof.
  intros Hblank. unfold headerCellRequests. split; [ | split].
  - apply in_or_app. right. now left.
  - intros el s e Hel Hpar Hs He.
    apply in_or_app. left. apply in_flat_map. exists el. split; [exact Hel | ].
    unfold headerElementRequests.
    destruct (paragraph el) as [els | ]; [ | contradiction].
    rewrite Hs, He. now left.
  - intros range style fields Hin.
    apply in_app_or in Hin as [Hin | [Hin | []]]; [ | discriminate Hin].
    apply in_flat_map in Hin as [el [Hel Hin]].
    apply in_headerElementRequests in Hin as [els [Hpar [Hc | Hb]]].
    + destruct Hc as [s [e [_ [_ Heq]]]]. discriminate Heq.
    + destruct Hb as [pe [tr [s [e [H1 [H2 [_ [_ [H5 _]]]]]]]]].
      apply H5. exact (Hblank el els pe tr Hel Hpar H1 H2).
Qed.

Lemma headerCell_in_headerRequests (tableStartIndex : Z)
    (rows : list TableRow) (colIdx : nat) (cell : TableCell) :
  nth_error (headerCells rows) colIdx = Some cell ->
  incl (headerCellRequests tableStartIndex (Z.of_nat colIdx) cell)
       (headerRequests true tableStartIndex rows).
Proof.
  destruct rows as [ | firstRow others];
    [destruct colIdx; discriminate | ].
  simpl headerCells. intros Hn req Hin.
  rewrite headerRequests_cons. apply in_flat_map.
  exists (Z.of_nat colIdx, cell). split; [ | exact Hin].
  apply in_indexed. now exists colIdx.
Qed.

(** C10: the cell fill cuts the caller's data down to the table: rows beyond
    the table's rows and entries beyond a row's cells produce nothing, every
    insertion comes from a non-empty entry (r, c) of a cell (r, c) the table
    has, and an entry that is the empty string or missing produces no
    insertion; none of this raises an error.  The header phase does not look
    at the data: a cell of row 0 that reads back blank still gets its gray
    background and the centering of its paragraphs, and no bold. *)
Theorem cellFill_tolerates_data :
  forall (World : Type) (docs : DocsApi World) (documentId : string)
         (tableIndex : Z) (data : TableData) (headerRow : bool)
         (st : RunState World) (doc : Document) (w : World)
         (t : StructuralElement)
         (updatedRows : list TableRow) (tableStartIndex : Z) (colIdx : nat)
         (cell : TableCell),
    documents_get docs documentId (world st) = (inr doc, w) ->
    findTable (body_content doc) tableIndex = Some t ->
    (forall requests,
        fst (documents_batchUpdate docs documentId requests w) = None) ->
    nth_error (headerCells updatedRows) colIdx = Some cell ->
    blankCellText cell ->
    cellFillRequests headerRow t (clipData (tableRows t) data) =
      cellFillRequests headerRow t data
    /\ (forall req,
           In req (cellFillRequests headerRow t data) ->
           exists r c row cell' rowData s i,
             nth_error (tableRows t) r = Some row
             /\ nth_error (tableCells row) c = Some cell'
             /\ nth_error data r = Some (Some rowData)
             /\ nth_error rowData c = Some (Some s)
             /\ s <> []
             /\ firstParagraphStart (content cell') = Some i
             /\ req = InsertTextRequest i s)
    /\ (forall rowIdx cell',
           cellInsert headerRow rowIdx cell' (Some []) = []
           /\ cellInsert headerRow rowIdx cell' None = [])
    /\ fst (fillCells docs documentId tableIndex data headerRow st) = inr tt
    /\ In (backgroundRequest tableStartIndex (Z.of_nat colIdx))
          (headerRequests true tableStartIndex updatedRows)
    /\ (forall el s e,
           In el (content cell) -> paragraph el <> None ->
           startIndex el = Some s -> endIndex el = Some e ->
           In (centerRequest s e)
              (headerRequests true tableStartIndex updatedRows))
    /\ (forall range style fields,
           ~ In (UpdateTextStyleRequest range style fields)
                (headerCellRequests tableStartIndex (Z.of_nat colIdx) cell)).
Proof.
  intros World docs documentId tableIndex data headerRow st doc w t
    updatedRows tableStartIndex colIdx cell Hget Hfind Hacc Hcell Hblank.
  destruct (blank_header_cell tableStartIndex (Z.of_nat colIdx) cell Hblank)
    as [Hgray [Hcenter Hnobold]].
  pose proof (headerCell_in_headerRequests tableStartIndex updatedRows colIdx
                cell Hcell) as Hincl.
  split; [unfold cellFillRequests; now rewrite collectCellInserts_clip | ].
  split; [intros req; apply cellFillRequests_provenance | ].
  split; [intros rowIdx cell'; split; reflexivity | ].
  split; [now apply fillCells_no_error with (doc := doc) (w := w) (t := t) | ].
  split; [now apply Hincl | ].
  split; [ | exact Hnobold].
  intros el s e Hel Hpar Hs He. apply Hincl.
  apply (Hcenter el s e); assumption.
Qed.

Lemma blankCell_is_blank (s : Z) : blankCellText (Samples.blankCell s).
Proof.
  intros el els pe tr Hel Hpar Hpe Htr.
  destruct Hel as [<- | []]. injection Hpar as <-.
  destruct Hpe as [<- | []]. injection Htr as <-.
  reflexivity.
Qed.

Lemma cellFill_tolerates_data_witness :
  cellFillRequests true Samples.emptyTable Samples.ragged =
    [InsertTextRequest 10 (js "C"); InsertTextRequest 5 (js "A")]
  /\ fst (fillCells Scripted.api "d" 2 Samples.ragged true
            (Scripted.start [Samples.afterInsert])) = inr tt
  /\ In (backgroundRequest 2 1)
        (headerRequests true 2 (tableRows Samples.emptyTable))
  /\ In (centerRequest 7 8)
        (headerRequests true 2 (tableRows Samples.emptyTable))
  /\ ~ In (boldRequest 7 8) (headerCellRequests 2 1 (Samples.blankCell 7)).
Proof.
  destruct (cellFill_tolerates_data Scripted.World Scripted.api "d" 2
              Samples.ragged true (Scripted.start [Samples.afterInsert])
              Samples.afterInsert [] Samples.emptyTable
              (tableRows Samples.emptyTable) 2 1%nat (Samples.blankCell 7)
              eq_refl eq_refl (fun _ => eq_refl) eq_refl
              (blankCell_is_blank 7))
    as [Hclip [_ [_ [Hok [Hgray [Hcenter Hnobold]]]]]].
  split; [rewrite <- Hclip; reflexivity | ].
  split; [exact Hok | ].
  split; [exact Hgray | ].
  split; [ | apply Hnobold].
  apply (Hcenter (mkElement (Some 7) (Some 8)
                    (Paragraph [{| pe_startIndex := Some 7;
                                   pe_endIndex := Some 8;
                                   pe_textRun :=
                                     Some {| textRun_content :=
                                               Some newline |} |}]))).
  - left. reflexivity.
  - discriminate.
  - reflexivity.
  - reflexivity.
Defined.

(** The blank header cell of the sample: centering and background only. *)
Example blank_header_cell_requests :
  headerCellRequests 2 1 (Samples.blankCell 7) =
  [centerRequest 7 8; backgroundRequest 2 1].
Proof. reflexivity. Qed.

(** * Further properties of the service *)

(** ** Reading *)

Lemma fold_appendRun (paragraphElements : list ParagraphElement)
    (text : jsstring) :
  fold_left appendRun paragraphElements text =
  text ++ List.concat (List.map runText paragraphElements).
Proof.
  revert text. induction paragraphElements as [ | elem els IH]; intros text;
    simpl; [now rewrite app_nil_r | ].
  rewrite IH, app_assoc. f_equal.
  unfold appendRun, runText, runContent.
  destruct (pe_textRun elem) as [tr | ]; [ | now rewrite app_nil_r].
  destruct (textRun_content tr) as [[ | c cs] | ];
    try reflexivity; now rewrite app_nil_r.
Qed.

Lemma fold_appendElement (body : list StructuralElement) (text : jsstring) :
  fold_left appendElement body text = text ++ List.concat (topLevelRuns body).
Proof.
  revert text. induction body as [ | element body IH]; intros text; simpl;
    [now rewrite app_nil_r | ].
  rewrite IH. unfold appendElement.
  destruct (paragraph element) as [els | ]; [ | reflexivity].
  rewrite fold_appendRun, concat_app, app_assoc. reflexivity.
Qed.

Lemma documentText_runs (body : list StructuralElement) :
  documentText body = List.concat (topLevelRuns body).
Proof. unfold documentText. now rewrite fold_appendElement. Qed.

(** X1: [readDocument] makes one read and never submits anything; what it
    returns is the concatenation, in document order, of the text runs of the
    top-level paragraphs; a rejected read is reported with the operation's
    prefix. *)
Theorem readDocument_result :
  forall (World : Type) (docs : DocsApi World) (documentId : string)
         (st : RunState World),
    calls (snd (readDocument docs documentId st)) =
      calls st ++ [CallGet documentId]
    /\ (forall doc w,
           documents_get docs documentId (world st) = (inr doc, w) ->
           fst (readDocument docs documentId st) =
           inr (List.concat (topLevelRuns (body_content doc))))
    /\ (forall e w,
           documents_get docs documentId (world st) = (inl e, w) ->
           fst (readDocument docs documentId st) =
           inl (new_Error ("Failed to read document: " ++ error_toString e))).
Proof.
  intros World docs documentId st.
  unfold readDocument, try_catch, bind, docs_get, ret, throw.
  destruct (documents_get docs documentId (world st)) as [[e | doc] w] eqn:Hget.
  - split; [reflexivity | ].
    split; [intros doc w' H; discriminate H | ].
    intros e' w' [= <- _]. reflexivity.
  - split; [reflexivity | ].
    split; [ | intros e w' H; discriminate H].
    intros doc' w' [= <- _]. cbn [fst]. now rewrite documentText_runs.
Qed.

Lemma readDocument_result_witness :
  fst (readDocument Scripted.api "d" (Scripted.start [Samples.afterFill])) =
  inr (List.concat (topLevelRuns (body_content Samples.afterFill))).
Proof.
  apply (proj1 (proj2 (readDocument_result Scripted.World Scripted.api "d"
                         (Scripted.start [Samples.afterFill])))
           Samples.afterFill []).
  reflexivity.
Defined.

(** X2: the text read is additive over the body, and an element that is not
    a paragraph (a table with all its cells, a section break) adds nothing
    to it: text inside a table is never read. *)
Theorem documentText_skips_tables :
  forall (before after : list StructuralElement) (element : StructuralElement),
    paragraph element = None ->
    documentText (before ++ element :: after) =
    documentText before ++ documentText after.
Proof.
  intros before after element Hnone.
  rewrite !documentText_runs. unfold topLevelRuns.
  rewrite flat_map_app, concat_app. simpl. now rewrite Hnone.
Qed.

Lemma documentText_skips_tables_witness :
  documentText
    ([Samples.sectionBreak; Samples.textParagraph 1 (js "x")]
     ++ Samples.filledTable :: [Samples.textParagraph 17 (js "y")]) =
  documentText [Samples.sectionBreak; Samples.textParagraph 1 (js "x")]
  ++ documentText [Samples.textParagraph 17 (js "y")].
Proof.
  apply (documentText_skips_tables
           [Samples.sectionBreak; Samples.textParagraph 1 (js "x")]
           [Samples.textParagraph 17 (js "y")] Samples.filledTable).
  reflexivity.
Defined.

(** ** Formatting titles *)

Lemma titleStep_spec (acc : list Request * Z) (elem : ParagraphElement) :
  titleStep acc elem =
  (fst acc ++ titleOfElement elem,
   snd acc + Z.of_nat (List.length (titleOfElement elem))).
Proof.
  unfold titleStep, titleOfElement. destruct acc as [requests n]. cbn [fst snd].
  destruct (pe_textRun elem) as [tr | ];
    [ | now rewrite app_nil_r, Z.add_0_r].
  destruct (pe_startIndex elem) as [s | ];
    [ | now rewrite app_nil_r, Z.add_0_r].
  destruct (pe_endIndex elem) as [e | ];
    [ | now rewrite app_nil_r, Z.add_0_r].
  cbv zeta. destruct (looksLikeTitle _); [reflexivity | ].
  now rewrite app_nil_r, Z.add_0_r.
Qed.

Lemma fold_titleStep (paragraphElements : list ParagraphElement)
    (acc : list Request * Z) :
  fold_left titleStep paragraphElements acc =
  (fst acc ++ flat_map titleOfElement paragraphElements,
   snd acc
   + Z.of_nat (List.length (flat_map titleOfElement paragraphElements))).
Proof.
  revert acc. induction paragraphElements as [ | elem els IH]; intros acc.
  - destruct acc. simpl. now rewrite app_nil_r, Z.add_0_r.
  - simpl fold_left. rewrite IH, titleStep_spec. cbn [fst snd flat_map].
    rewrite length_app, <- app_assoc. f_equal. lia.
Qed.

Lemma fold_titleElementStep (body : list StructuralElement)
    (acc : list Request * Z) :
  fold_left titleElementStep body acc =
  (fst acc ++ titleRequests body,
   snd acc + Z.of_nat (List.length (titleRequests body))).
Proof.
  revert acc. induction body as [ | element body IH]; intros acc.
  - destruct acc. simpl. now rewrite app_nil_r, Z.add_0_r.
  - simpl fold_left. rewrite IH. unfold titleElementStep, titleRequests.
    cbn [flat_map]. fold (titleRequests body).
    destruct (paragraph element) as [els | ]; [ | reflexivity].
    rewrite fold_titleStep. cbn [fst snd].
    rewrite length_app, <- app_assoc. f_equal. lia.
Qed.

(** The loop keeps the counter equal to the number of requests. *)
Lemma titleScan_spec (body : list StructuralElement) :
  titleScan body =
  (titleRequests body, Z.of_nat (List.length (titleRequests body))).
Proof. unfold titleScan. now rewrite fold_titleElementStep. Qed.

(** X3: [formatTitles] reads once; if no text run qualifies it submits
    nothing and returns 0; otherwise it submits one batch, and the number it
    returns on success is the number of requests of that batch. *)
Theorem formatTitles_count :
  forall (World : Type) (docs : DocsApi World) (documentId : string)
         (st : RunState World) (doc : Document) (w : World),
    documents_get docs documentId (world st) = (inr doc, w) ->
    (fst (titleScan (body_content doc)) = [] ->
     formatTitles docs documentId st =
     (inr 0, {| world := w; calls := calls st ++ [CallGet documentId] |}))
    /\ (fst (titleScan (body_content doc)) <> [] ->
        calls (snd (formatTitles docs documentId st)) =
        calls st ++ [CallGet documentId;
                     CallBatchUpdate documentId
                       (fst (titleScan (body_content doc)))])
    /\ (forall n,
           fst (formatTitles docs documentId st) = inr n ->
           n = Z.of_nat (List.length (fst (titleScan (body_content doc))))).
Proof.
  intros World docs documentId st doc w Hget.
  unfold formatTitles, try_catch.
  rewrite (bind_ok _ _ _ _ _ (docs_get_ok docs documentId st doc w Hget)).
  cbv zeta. rewrite titleScan_spec. cbn [fst snd].
  destruct (titleRequests (body_content doc)) as [ | r rs] eqn:Hreq.
  - split; [intros _; reflexivity | ].
    split; [intros H; now contradiction H | ].
    cbn. intros n [= <-]. reflexivity.
  - split; [intros H; discriminate H | ].
    replace (Z.of_nat (List.length (r :: rs)) >? 0) with true
      by (symmetry; rewrite Z.gtb_ltb; apply Z.ltb_lt; simpl List.length; lia).
    unfold bind, docs_batchUpdate, ret, throw. cbn [world calls].
    destruct (documents_batchUpdate docs documentId (r :: rs) w)
      as [[err | ] w'].
    + split; [intros _; cbn [snd calls]; now rewrite <- app_assoc | ].
      intros n H. discriminate H.
    + split; [intros _; cbn [snd calls]; now rewrite <- app_assoc | ].
      cbn [fst]. now intros n [= <-].
Qed.

Lemma formatTitles_count_witness :
  formatTitles Scripted.api "d" (Scripted.start [Samples.tableGone]) =
  (inr 0, {| world := []; calls := [] ++ [CallGet "d"] |}).
Proof.
  apply (proj1 (formatTitles_count Scripted.World Scripted.api "d"
                  (Scripted.start [Samples.tableGone]) Samples.tableGone []
                  eq_refl)).
  reflexivity.
Defined.

Lemma includesPeriod_false (t : jsstring) :
  includesPeriod t = false <-> ~ In 46%N t.
Proof.
  unfold includesPeriod. split.
  - intros H Hin.
    assert (Ht : existsb (fun c => (c =? 46)%N) t = true).
    { apply existsb_exists. exists 46%N. split; [exact Hin | reflexivity]. }
    congruence.
  - intros H. destruct (existsb _ t) eqn:E; [ | reflexivity].
    apply existsb_exists in E as [c [Hin Hc]].
    apply N.eqb_eq in Hc. subst c. contradiction.
Qed.

Lemma endsWithColon_true (t : jsstring) :
  endsWithColon t = true <-> exists pre, t = pre ++ [58%N].
Proof.
  unfold endsWithColon. split.
  - destruct (rev t) as [ | c r] eqn:Hrev; [discriminate | ].
    intros Hc. apply N.eqb_eq in Hc. subst c. exists (rev r).
    rewrite <- (rev_involutive t), Hrev. reflexivity.
  - intros [pre ->]. rewrite rev_app_distr. reflexivity.
Qed.

Lemma looksLikeHeader_true (t : jsstring) :
  looksLikeHeader t = true <->
  (exists c rest, t = c :: rest /\ (65 <= c <= 90)%N /\ ~ In 46%N rest)
  /\ (List.length t < 60)%nat.
Proof.
  unfold looksLikeHeader. rewrite andb_true_iff.
  assert (Hlen : (js_length t <? 60) = true <-> (List.length t < 60)%nat).
  { unfold js_length. rewrite Z.ltb_lt. lia. }
  rewrite Hlen. apply and_iff_compat_r.
  destruct t as [ | c rest].
  - split; [discriminate | intros [c [rest [H _]]]; discriminate H].
  - rewrite !andb_true_iff, !N.leb_le, forallb_forall. split.
    + intros [[H1 H2] H3]. exists c, rest.
      repeat split; try assumption.
      intros Hin. specialize (H3 _ Hin). discriminate H3.
    + intros [c' [rest' [[= <- <-] [[H1 H2] H3]]]].
      repeat split; try assumption.
      intros x Hx. destruct (x =? 46)%N eqn:E; [ | reflexivity].
      apply N.eqb_eq in E. subst x. contradiction.
Qed.

Lemma isShortLine_true (t : jsstring) :
  isShortLine t = true <->
  t <> [] /\ (List.length t < 100)%nat /\ ~ In 46%N t.
Proof.
  unfold isShortLine.
  rewrite !andb_true_iff, negb_true_iff, includesPeriod_false,
    js_length_pos_iff.
  unfold js_length. rewrite Z.ltb_lt. split.
  - intros [[H1 H2] H3]. repeat split; try assumption. lia.
  - intros [H1 [H2 H3]]. repeat split; try assumption. lia.
Qed.

Lemma in_titleRequests (body : list StructuralElement) (req : Request) :
  In req (titleRequests body) <->
  exists el els pe tr s e,
    In el body /\ paragraph el = Some els /\ In pe els
    /\ pe_textRun pe = Some tr /\ pe_startIndex pe = Some s
    /\ pe_endIndex pe = Some e
    /\ looksLikeTitle (trim (runContent tr)) = true
    /\ req = boldRequest s e.
Proof.
  unfold titleRequests. rewrite in_flat_map. split.
  - intros [el [Hel Hin]].
    destruct (paragraph el) as [els | ] eqn:Hpar; [ | contradiction].
    apply in_flat_map in Hin as [pe [Hpe Hin]].
    unfold titleOfElement in Hin.
    destruct (pe_textRun pe) as [tr | ] eqn:Htr; [ | contradiction].
    destruct (pe_startIndex pe) as [s | ] eqn:Hs; [ | contradiction].
    destruct (pe_endIndex pe) as [e | ] eqn:He; [ | contradiction].
    destruct (looksLikeTitle _) eqn:Ht; [ | contradiction].
    destruct Hin as [<- | []].
    exists el, els, pe, tr, s, e. now repeat split.
  - intros [el [els [pe [tr [s [e [H1 [H2 [H3 [H4 [H5 [H6 [H7 ->]]]]]]]]]]]]].
    exists el. split; [exact H1 | ]. rewrite H2.
    apply in_flat_map. exists pe. split; [exact H3 | ].
    unfold titleOfElement. rewrite H4, H5, H6, H7. now left.
Qed.

(** X4: every request [formatTitles] builds is bold over the range of a text
    run of a top-level paragraph whose trimmed text is not empty, is shorter
    than 100 code units, contains no period, and either starts with an emoji
    of U+1F300..U+1F9FF, or ends with a colon, or starts with a capital
    letter A-Z and is shorter than 60 code units. *)
Theorem formatTitles_only_titles :
  forall (body : list StructuralElement) (req : Request),
    In req (fst (titleScan body)) ->
    exists el els pe tr s e,
      In el body /\ paragraph el = Some els /\ In pe els
      /\ pe_textRun pe = Some tr /\ pe_startIndex pe = Some s
      /\ pe_endIndex pe = Some e
      /\ req = UpdateTextStyleRequest
                 {| range_startIndex := s; range_endIndex := e |}
                 {| bold := Some true; link_url := None |} "bold"
      /\ trim (runContent tr) <> []
      /\ (List.length (trim (runContent tr)) < 100)%nat
      /\ ~ In 46%N (trim (runContent tr))
      /\ (startsWithEmoji (trim (runContent tr)) = true
          \/ (exists pre, trim (runContent tr) = pre ++ [58%N])
          \/ ((exists c rest,
                  trim (runContent tr) = c :: rest /\ (65 <= c <= 90)%N)
              /\ (List.length (trim (runContent tr)) < 60)%nat)).
Proof.
  intros body req Hin. rewrite titleScan_spec in Hin. cbn [fst] in Hin.
  apply in_titleRequests in Hin
    as [el [els [pe [tr [s [e [H1 [H2 [H3 [H4 [H5 [H6 [H7 ->]]]]]]]]]]]]].
  exists el, els, pe, tr, s, e.
  unfold looksLikeTitle in H7. apply andb_true_iff in H7 as [Hkind Hshort].
  apply isShortLine_true in Hshort as [Hne [Hlen Hdot]].
  repeat split; try assumption.
  apply orb_true_iff in Hkind as [Hkind | Hhead].
  - apply orb_true_iff in Hkind as [Hemoji | Hcolon]; [now left | ].
    right. left. now apply endsWithColon_true.
  - right. right. apply looksLikeHeader_true in Hhead as [[c [rest [H [Hc _]]]] Hl].
    split; [now exists c, rest | exact Hl].
Qed.

Lemma formatTitles_only_titles_witness :
  exists el els pe tr s e,
    In el [Samples.textParagraph 1 (js "Agenda")]
    /\ paragraph el = Some els /\ In pe els
    /\ pe_textRun pe = Some tr /\ pe_startIndex pe = Some s
    /\ pe_endIndex pe = Some e
    /\ boldRequest 1 8 =
       UpdateTextStyleRequest
         {| range_startIndex := s; range_endIndex := e |}
         {| bold := Some true; link_url := None |} "bold"
    /\ trim (runContent tr) <> []
    /\ (List.length (trim (runContent tr)) < 100)%nat
    /\ ~ In 46%N (trim (runContent tr))
    /\ (startsWithEmoji (trim (runContent tr)) = true
        \/ (exists pre, trim (runContent tr) = pre ++ [58%N])
        \/ ((exists c rest,
                trim (runContent tr) = c :: rest /\ (65 <= c <= 90)%N)
            /\ (List.length (trim (runContent tr)) < 60)%nat)).
Proof.
  apply (formatTitles_only_titles [Samples.textParagraph 1 (js "Agenda")]
           (boldRequest 1 8)).
  vm_compute. left. reflexivity.
Defined.

(** X5: a text run of a top-level paragraph that has both indices and whose
    trimmed text has no period and is a capitalised phrase shorter than 60
    code units, or ends with a colon and is shorter than 100, is made
    bold. *)
Theorem formatTitles_formats_headings :
  forall (body : list StructuralElement) (el : StructuralElement)
         (els : list ParagraphElement) (pe : ParagraphElement) (tr : TextRun)
         (s e : Z),
    In el body -> paragraph el = Some els -> In pe els ->
    pe_textRun pe = Some tr -> pe_startIndex pe = Some s ->
    pe_endIndex pe = Some e ->
    ~ In 46%N (trim (runContent tr)) ->
    ((exists c rest,
         trim (runContent tr) = c :: rest /\ (65 <= c <= 90)%N)
     /\ (List.length (trim (runContent tr)) < 60)%nat)
    \/ ((exists pre, trim (runContent tr) = pre ++ [58%N])
        /\ (List.length (trim (runContent tr)) < 100)%nat) ->
    In (boldRequest s e) (fst (titleScan body)).
Proof.
  intros body el els pe tr s e H1 H2 H3 H4 H5 H6 Hdot Hkind.
  rewrite titleScan_spec. cbn [fst]. apply in_titleRequests.
  exists el, els, pe, tr, s, e. repeat split; try assumption.
  unfold looksLikeTitle. apply andb_true_iff.
  destruct Hkind as [[[c [rest [Ht Hc]]] Hlen] | [[pre Ht] Hlen]].
  - split.
    + apply orb_true_iff. right. apply looksLikeHeader_true.
      split; [ | exact Hlen]. exists c, rest. repeat split; try tauto.
      intros Hin. apply Hdot. rewrite Ht. now right.
    + apply isShortLine_true. rewrite Ht in *. repeat split; try assumption.
      * discriminate.
      * lia.
  - split.
    + apply orb_true_iff. left. apply orb_true_iff. right.
      apply endsWithColon_true. now exists pre.
    + apply isShortLine_true. repeat split; try assumption.
      rewrite Ht. now destruct pre.
Qed.

Lemma formatTitles_formats_headings_witness :
  In (boldRequest 1 7)
     (fst (titleScan [Samples.sectionBreak;
                      Samples.textParagraph 1 (js "Note:")])).
Proof.
  apply (formatTitles_formats_headings
           [Samples.sectionBreak; Samples.textParagraph 1 (js "Note:")]
           (Samples.textParagraph 1 (js "Note:"))
           [{| pe_startIndex := Some 1; pe_endIndex := Some 7;
               pe_textRun :=
                 Some {| textRun_content := Some (js "Note:" ++ newline) |} |}]
           {| pe_startIndex := Some 1; pe_endIndex := Some 7;
              pe_textRun :=
                Some {| textRun_content := Some (js "Note:" ++ newline) |} |}
           {| textRun_content := Some (js "Note:" ++ newline) |} 1 7).
  - right. left. reflexivity.
  - reflexivity.
  - left. reflexivity.
  - reflexivity.
  - reflexivity.
  - reflexivity.
  - vm_compute. intuition discriminate.
  - right. split; [exists (js "Note"); reflexivity | vm_compute; lia].
Defined.

(** X6: an element that is not a paragraph contributes no title: headings
    inside table cells are never formatted, and the count does not see
    them. *)
Theorem formatTitles_skips_tables :
  forall (before after : list StructuralElement) (element : StructuralElement),
    paragraph element = None ->
    titleScan (before ++ element :: after) = titleScan (before ++ after).
Proof.
  intros before after element Hnone.
  rewrite !titleScan_spec. unfold titleRequests.
  rewrite !flat_map_app. simpl. now rewrite Hnone.
Qed.

Lemma formatTitles_skips_tables_witness :
  titleScan ([Samples.textParagraph 1 (js "Agenda")]
             ++ Samples.filledTable :: []) =
  titleScan ([Samples.textParagraph 1 (js "Agenda")] ++ []).
Proof.
  apply (formatTitles_skips_tables [Samples.textParagraph 1 (js "Agenda")] []
           Samples.filledTable).
  reflexivity.
Defined.

(** ** The first copy's table insertion against the later one *)








Lemma legacy_collect_missing_row message (rows : list TableRow)
    (data : TableData) (r : nat) (row : TableRow) :
  nth_error rows r = Some row ->
  tableCells row <> [] ->
  nth_error data r = Some None ->
  LegacyTable.collectRequests message rows data =
  inl (LegacyTable.undefinedLength message).
Proof.
  revert rows data. induction r as [ | r IH]; intros rows data Hrow Hcells Hdata.
  - destruct rows as [ | row0 rows]; [discriminate | ].
    destruct data as [ | d data]; [discriminate | ].
    simpl in Hrow, Hdata. injection Hrow as ->. injection Hdata as ->.
    simpl. destruct (tableCells row); [contradiction | reflexivity].
  - destruct rows as [ | row0 rows]; [discriminate | ].
    destruct data as [ | d data]; [discriminate | ].
    simpl in Hrow, Hdata. simpl.
    rewrite (IH rows data Hrow Hcells Hdata).
    destruct d as [rowData | ]; [reflexivity | ].
    now destruct (tableCells row0).
Qed.

(** X8: in the first copy a missing data row, for a table row that has
    cells, raises a [TypeError] after the empty table has been inserted and
    read back: the call fails, nothing is filled or formatted, and the table
    stays in the document.  The message is the prefix followed by the
    rendering of the [TypeError]: [TypeError: message] for the non-empty
    message an engine gives. *)
Theorem legacy_missing_row :
  forall (World : Type) (docs : DocsApi World) (message : string)
         (documentId : string) (index rows columns : Z) (data : TableData)
         (headerRow : bool) (st : RunState World) (w1 w2 : World)
         (doc : Document) (t : StructuralElement) (r : nat) (row : TableRow),
    documents_batchUpdate docs documentId
      [InsertTableRequest rows columns index] (world st) = (None, w1) ->
    documents_get docs documentId w1 = (inr doc, w2) ->
    findTable (body_content doc) index = Some t ->
    nth_error (tableRows t) r = Some row ->
    tableCells row <> [] ->
    nth_error data r = Some None ->
    LegacyTable.insertTable docs message documentId index rows columns data
      headerRow st =
    (inl (new_Error ("Failed to insert table: "
                     ++ error_toString (LegacyTable.undefinedLength message))),
     {| world := w2;
        calls := calls st
                 ++ [CallBatchUpdate documentId
                       [InsertTableRequest rows columns index];
                     CallGet documentId] |})
    /\ (message <> EmptyString ->
        ("Failed to insert table: "
         ++ error_toString (LegacyTable.undefinedLength message))%string =
        ("Failed to insert table: TypeError: " ++ message)%string).
Proof.
  intros World docs message documentId index rows columns data headerRow st
    w1 w2 doc t r row Hb Hget Hfind Hrow Hcells Hdata.
  split; [ | intros Hmsg; destruct message; [contradiction | reflexivity]].
  unfold LegacyTable.insertTable.
  rewrite (try_catch_err _ _ st (LegacyTable.undefinedLength message)
             {| world := w2;
                calls := calls st
                         ++ [CallBatchUpdate documentId
                               [InsertTableRequest rows columns index];
                             CallGet documentId] |});
    [reflexivity | ].
  erewrite bind_ok by (apply docs_batchUpdate_ok; exact Hb).
  erewrite bind_ok by (apply docs_get_ok; exact Hget).
  rewrite Hfind,
    (legacy_collect_missing_row message _ _ r row Hrow Hcells Hdata).
  unfold throw. cbn [calls]. now rewrite <- app_assoc.
Qed.

Lemma legacy_missing_row_witness :
  LegacyTable.insertTable Scripted.api "m" "d" 2 2 2 Samples2.holed true
    (Scripted.start [Samples.afterInsert; Samples.afterFill]) =
  (inl (new_Error ("Failed to insert table: "
                   ++ error_toString (LegacyTable.undefinedLength "m"))),
   {| world := [Samples.afterFill];
      calls := [] ++ [CallBatchUpdate "d" [InsertTableRequest 2 2 2];
                      CallGet "d"] |})
  /\ ("m"%string <> EmptyString ->
      ("Failed to insert table: "
       ++ error_toString (LegacyTable.undefinedLength "m"))%string =
      ("Failed to insert table: TypeError: " ++ "m")%string).
Proof.
  apply (legacy_missing_row Scripted.World Scripted.api "m" "d" 2 2 2
           Samples2.holed true
           (Scripted.start [Samples.afterInsert; Samples.afterFill])
           [Samples.afterInsert; Samples.afterFill] [Samples.afterFill]
           Samples.afterInsert Samples.emptyTable 1%nat
           (mkRow [Samples.blankCell 10; Samples.blankCell 12]));
    try reflexivity.
  discriminate.
Defined.

Lemma filter_flat_map {A B : Type} (f : B -> bool) (g : A -> list B)
    (l : list A) :
  filter f (flat_map g l) = flat_map (fun x => filter f (g x)) l.
Proof.
  induction l as [ | a l IH]; simpl; [reflexivity | ].
  now rewrite filter_app, IH.
Qed.

Lemma legacy_boldOfElement (elem : ParagraphElement) :
  LegacyTable.boldOfElement elem = boldOfElement elem.
Proof.
  unfold LegacyTable.boldOfElement, boldOfElement, runContent.
  destruct (pe_textRun elem) as [tr | ]; [ | reflexivity].
  destruct (pe_startIndex elem) as [s | ]; [ | reflexivity].
  destruct (pe_endIndex elem) as [e | ]; [ | reflexivity].
  now destruct (textRun_content tr) as [[ | c cs] | ].
Qed.

Lemma boldOfElement_kept (elem : ParagraphElement) :
  filter (fun r => negb (isParagraphStyle r)) (boldOfElement elem) =
  boldOfElement elem.
Proof.
  apply filter_all. intros req Hin.
  apply in_boldOfElement in Hin as [tr [s [e [_ [_ [_ [_ ->]]]]]]].
  reflexivity.
Qed.

Lemma legacy_headerElementRequests (el : StructuralElement) :
  LegacyTable.headerElementRequests el =
  filter (fun r => negb (isParagraphStyle r)) (headerElementRequests el).
Proof.
  unfold LegacyTable.headerElementRequests, headerElementRequests.
  destruct (paragraph el) as [els | ]; [ | reflexivity].
  rewrite filter_app, filter_flat_map.
  replace (filter _ (match startIndex el with Some _ => _ | None => _ end))
    with (@nil Request)
    by (destruct (startIndex el), (endIndex el); reflexivity).
  simpl. apply flat_map_ext. intros elem.
  now rewrite boldOfElement_kept, legacy_boldOfElement.
Qed.

Lemma legacy_headerCellRequests (tableStartIndex colIdx : Z)
    (cell : TableCell) :
  LegacyTable.headerCellRequests tableStartIndex colIdx cell =
  filter (fun r => negb (isParagraphStyle r))
         (headerCellRequests tableStartIndex colIdx cell).
Proof.
  unfold LegacyTable.headerCellRequests, headerCellRequests.
  rewrite filter_app, filter_flat_map. simpl. f_equal.
  apply flat_map_ext. intros el. apply legacy_headerElementRequests.
Qed.

Lemma legacy_headerRequests (headerRow : bool) (tableStartIndex : Z)
    (rows : list TableRow) :
  LegacyTable.headerRequests headerRow tableStartIndex rows =
  filter (fun r => negb (isParagraphStyle r))
         (headerRequests headerRow tableStartIndex rows).
Proof.
  destruct headerRow; [ | reflexivity].
  destruct rows as [ | firstRow others]; [reflexivity | ].
  rewrite headerRequests_cons. unfold LegacyTable.headerRequests.
  cbn [js_nth Z.ltb Z.to_nat nth_error]. simpl.
  rewrite filter_flat_map. apply flat_map_ext. intros [i cell].
  apply legacy_headerCellRequests.
Qed.

(** X9: the formatting batch of the first copy is the later copy's without
    the paragraph centering: the same borders, the same bold runs and the
    same gray backgrounds, in the same order. *)
Theorem legacy_formatting_without_centering :
  forall (headerRow : bool) (columns : Z) (updatedTable : StructuralElement),
    LegacyTable.formattingRequests headerRow columns updatedTable =
    filter (fun r => negb (isParagraphStyle r))
           (formattingRequests headerRow columns updatedTable).
Proof.
  intros headerRow columns updatedTable.
  unfold LegacyTable.formattingRequests, formattingRequests. cbv zeta.
  rewrite filter_app, legacy_headerRequests. f_equal.
  symmetry. apply filter_all. intros req Hin.
  apply in_borderRequests in Hin as [r [c [_ [_ ->]]]]. reflexivity.
Qed.

(** ** Table insertion: the whole run and its failures *)





(** X11: a rejection in phase 1 ends [insertTable] at once.  If the newline
    batch is rejected, the table batch is never sent; if the table batch is
    rejected, nothing follows it, and no call takes the newline back.  In
    both cases the rejection is reported under the operation's prefix. *)
Theorem insertTable_phase1_rejected :
  forall (World : Type) (docs : DocsApi World) (documentId : string)
         (index rows columns : Z) (data : TableData) (headerRow : bool)
         (st : RunState World) (e : JsError),
    (forall w1,
        documents_batchUpdate docs documentId
          [InsertTextRequest index newline] (world st) = (Some e, w1) ->
        insertTable docs documentId index rows columns data headerRow st =
        (inl (new_Error ("Failed to insert table: " ++ error_toString e)),
         {| world := w1;
            calls := calls st
                     ++ [CallBatchUpdate documentId
                           [InsertTextRequest index newline]] |}))
    /\ (forall w1 w2,
           documents_batchUpdate docs documentId
             [InsertTextRequest index newline] (world st) = (None, w1) ->
           documents_batchUpdate docs documentId
             [InsertTableRequest rows columns (index + 1)] w1 = (Some e, w2) ->
           insertTable docs documentId index rows columns data headerRow st =
           (inl (new_Error ("Failed to insert table: " ++ error_toString e)),
            {| world := w2;
               calls := calls st
                        ++ [CallBatchUpdate documentId
                              [InsertTextRequest index newline];
                            CallBatchUpdate documentId
                              [InsertTableRequest rows columns (index + 1)]]
            |})).
Proof.
  intros World docs documentId index rows columns data headerRow st e.
  split.
  - intros w1 H1. unfold insertTable, insertEmptyTable.
    rewrite (try_catch_err _ _ st e
               {| world := w1;
                  calls := calls st
                           ++ [CallBatchUpdate documentId
                                 [InsertTextRequest index newline]] |});
      [reflexivity | ].
    erewrite bind_err; [reflexivity | ].
    erewrite bind_err; [reflexivity | ].
    now apply docs_batchUpdate_err.
  - intros w1 w2 H1 H2. unfold insertTable, insertEmptyTable.
    rewrite (try_catch_err _ _ st e
               {| world := w2;
                  calls := calls st
                           ++ [CallBatchUpdate documentId
                                 [InsertTextRequest index newline];
                               CallBatchUpdate documentId
                                 [InsertTableRequest rows columns (index + 1)]]
               |});
      [reflexivity | ].
    erewrite bind_err; [reflexivity | ].
    erewrite bind_ok by (apply docs_batchUpdate_ok; exact H1).
    rewrite (docs_batchUpdate_err docs documentId _ _ e w2) by exact H2.
    cbn [calls]. now rewrite <- app_assoc.
Qed.

Lemma insertTable_phase1_rejected_witness :
  insertTable Samples2.rejectAll "d" 1 2 2 Samples.abcd true
    (Scripted.start [Samples.afterInsert]) =
  (inl (new_Error ("Failed to insert table: "
                   ++ error_toString Samples2.quota)),
   {| world := [Samples.afterInsert];
      calls := [] ++ [CallBatchUpdate "d" [InsertTextRequest 1 newline]] |})
  /\ insertTable Samples2.rejectTables "d" 1 2 2 Samples.abcd true
       (Scripted.start [Samples.afterInsert]) =
     (inl (new_Error ("Failed to insert table: "
                      ++ error_toString Samples2.quota)),
      {| world := [Samples.afterInsert];
         calls := [] ++ [CallBatchUpdate "d" [InsertTextRequest 1 newline];
                         CallBatchUpdate "d" [InsertTableRequest 2 2 (1 + 1)]]
      |}).
Proof.
  split.
  - apply (proj1 (insertTable_phase1_rejected (list Document)
                    Samples2.rejectAll "d" 1 2 2 Samples.abcd true
                    (Scripted.start [Samples.afterInsert]) Samples2.quota)
             [Samples.afterInsert]).
    reflexivity.
  - apply (proj2 (insertTable_phase1_rejected (list Document)
                    Samples2.rejectTables "d" 1 2 2 Samples.abcd true
                    (Scripted.start [Samples.afterInsert]) Samples2.quota)
             [Samples.afterInsert] [Samples.afterInsert]);
      reflexivity.
Defined.

(** ** Replace and append on an empty document *)

Lemma emptyEnd_indices (doc : Document) :
  emptyEnd doc -> documentEndIndex doc <= 2 /\ appendIndex doc = 1.
Proof.
  unfold documentEndIndex, appendIndex.
  intros [Hnil | [others [lastElement [Hbody Hend]]]].
  - rewrite Hnil. simpl. lia.
  - rewrite Hbody, js_nth_last.
    destruct Hend as [-> | [-> | ->]]; simpl; lia.
Qed.

(** X12: on the snapshot of an empty document (no element at all, or a last
    element whose end index is 2, 0 or absent) [appendText] and
    [updateDocument] make the same calls: the read, then the single
    insertion of the text at index 1. *)
Theorem append_is_replace_on_empty :
  forall (World : Type) (docs : DocsApi World) (documentId : string)
         (text : jsstring) (st : RunState World) (doc : Document) (w : World),
    documents_get docs documentId (world st) = (inr doc, w) ->
    emptyEnd doc ->
    calls (snd (appendText docs documentId text st)) =
      calls st ++ [CallGet documentId;
                   CallBatchUpdate documentId [InsertTextRequest 1 text]]
    /\ calls (snd (updateDocument docs documentId text st)) =
       calls (snd (appendText docs documentId text st)).
Proof.
  intros World docs documentId text st doc w Hget Hempty.
  destruct (emptyEnd_indices doc Hempty) as [Hend Happend].
  assert (Ha : calls (snd (appendText docs documentId text st)) =
               calls st ++ [CallGet documentId;
                            CallBatchUpdate documentId
                              [InsertTextRequest 1 text]]).
  { unfold appendText, try_catch, bind, docs_get, docs_batchUpdate, throw.
    rewrite Hget. cbn [world calls]. rewrite Happend.
    either_answer docs documentId w. }
  split; [exact Ha | ].
  rewrite Ha, (updateDocument_calls docs documentId text st doc w Hget).
  now rewrite (updateRequests_le _ text Hend).
Qed.

Lemma append_is_replace_on_empty_witness :
  calls (snd (updateDocument Scripted.api "d" (js "Hi")
                (Scripted.start [Samples.emptyDoc]))) =
  calls (snd (appendText Scripted.api "d" (js "Hi")
                (Scripted.start [Samples.emptyDoc]))).
Proof.
  apply (append_is_replace_on_empty Scripted.World Scripted.api "d" (js "Hi")
           (Scripted.start [Samples.emptyDoc]) Samples.emptyDoc []);
    [reflexivity | ].
  right. exists [Samples.sectionBreak], (Samples.textParagraph 1 []).
  split; [reflexivity | left; reflexivity].
Defined.

(** ** Failures carry the name of the operation *)

Lemma caught_failure {World A : Type} (m : M World A) (prefix : string)
    (st : RunState World) (e : JsError) :
  fst (try_catch m
         (fun error => throw (new_Error (prefix ++ error_toString error))) st) =
    inl e ->
  exists cause,
    fst (m st) = inl cause
    /\ e = new_Error (prefix ++ error_toString cause).
Proof.
  unfold try_catch, throw. destruct (m st) as [[cause | a] st'].
  - cbn [fst]. intros [= <-]. now exists cause.
  - discriminate.
Qed.

Lemma rejectedLast_intro {World : Type} (docs : DocsApi World)
    (st st' : RunState World) (cause : JsError) (more : list Call) :
  calls st' = calls st ++ more ->
  more <> [] ->
  fst (answer docs (last more (CallGet EmptyString))
         (worldAfter docs (removelast more) (world st))) = Some cause ->
  rejectedLast docs st st' cause.
Proof.
  intros Hcalls Hne Hanswer.
  exists (removelast more), (last more (CallGet EmptyString)).
  split; [ | exact Hanswer].
  now rewrite <- app_removelast_last.
Qed.

(** Every answer of the backend and every test of the run, case by case,
    remembering the answers. *)
Ltac run_cases :=
  repeat match goal with
    | _ => progress cbn [world calls fst snd]
    | |- context [documents_batchUpdate ?docs ?d ?r ?w] =>
        let H := fresh "Hanswer" in
        destruct (documents_batchUpdate docs d r w) as [[? | ] ?] eqn:H
    | |- context [documents_get ?docs ?d ?w] =>
        let H := fresh "Hanswer" in
        destruct (documents_get docs d w) as [[? | ?] ?] eqn:H
    | |- context [findTable ?b ?i] => destruct (findTable b i)
    | |- context [if ?c then _ else _] => destruct c
    end.

(** The failing call was the last one, and the cause is its answer. *)
Ltac last_call_rejected :=
  eapply rejectedLast_intro;
  [ cbn [snd calls]; rewrite <- ?app_assoc; reflexivity
  | discriminate
  | repeat (cbn [answer worldAfter fst snd last removelast app];
            try match goal with
              | H : ?x = _ |- context [?x] => rewrite H
              end);
    reflexivity ].

(** X13: whenever [updateDocument], [appendText], [insertLink],
    [readDocument] or [formatTitles] fails, the error the caller receives is
    an [Error] whose message is the operation's fixed prefix followed by the
    rendering of the cause, and the cause is what the backend answered to
    the last call the operation made.  The same holds of [insertTable],
    whose cause may also be its own error for a table it cannot find. *)
Theorem failures_name_the_operation :
  forall (World : Type) (docs : DocsApi World) (documentId : string)
         (st : RunState World) (e : JsError),
    (forall text,
        fst (updateDocument docs documentId text st) = inl e ->
        exists cause,
          e = new_Error ("Failed to update document: " ++ error_toString cause)
          /\ rejectedLast docs st
               (snd (updateDocument docs documentId text st)) cause)
    /\ (forall text,
           fst (appendText docs documentId text st) = inl e ->
           exists cause,
             e = new_Error ("Failed to append text: " ++ error_toString cause)
             /\ rejectedLast docs st
                  (snd (appendText docs documentId text st)) cause)
    /\ (forall index text url,
           fst (insertLink docs documentId index text url st) = inl e ->
           exists cause,
             e = new_Error ("Failed to insert link: " ++ error_toString cause)
             /\ rejectedLast docs st
                  (snd (insertLink docs documentId index text url st)) cause)
    /\ (forall index rows columns data headerRow,
           fst (insertTable docs documentId index rows columns data headerRow
                  st) = inl e ->
           exists cause,
             e = new_Error ("Failed to insert table: "
                            ++ error_toString cause)
             /\ (cause =
                   new_Error "Failed to find the inserted table in document"
                 \/ rejectedLast docs st
                      (snd (insertTable docs documentId index rows columns
                              data headerRow st)) cause))
    /\ (fst (readDocument docs documentId st) = inl e ->
        exists cause,
          e = new_Error ("Failed to read document: " ++ error_toString cause)
          /\ rejectedLast docs st (snd (readDocument docs documentId st))
               cause)
    /\ (fst (formatTitles docs documentId st) = inl e ->
        exists cause,
          e = new_Error ("Failed to format titles: " ++ error_toString cause)
          /\ rejectedLast docs st (snd (formatTitles docs documentId st))
               cause).
Proof.
  intros World docs documentId st e.
  split; [ | split; [ | split; [ | split; [ | split]]]].
  - intros text.
    unfold updateDocument, try_catch, bind, docs_get, docs_batchUpdate, throw.
    run_cases; intros H; try discriminate H; injection H as <-;
      eexists; (split; [reflexivity | last_call_rejected]).
  - intros text.
    unfold appendText, try_catch, bind, docs_get, docs_batchUpdate, throw.
    run_cases; intros H; try discriminate H; injection H as <-;
      eexists; (split; [reflexivity | last_call_rejected]).
  - intros index text url.
    unfold insertLink, try_catch, docs_batchUpdate, throw.
    run_cases; intros H; try discriminate H; injection H as <-;
      eexists; (split; [reflexivity | last_call_rejected]).
  - intros index rows columns data headerRow.
    unfold insertTable, insertEmptyTable, fillCells, formatTable, try_catch,
      bind, docs_batchUpdate, docs_get, throw, ret.
    run_cases; intros H; try discriminate H; injection H as <-;
      eexists; (split; [reflexivity | ]);
      first [left; reflexivity | right; last_call_rejected].
  - unfold readDocument, try_catch, bind, docs_get, throw, ret.
    run_cases; intros H; try discriminate H; injection H as <-;
      eexists; (split; [reflexivity | last_call_rejected]).
  - unfold formatTitles, try_catch, bind, docs_get, docs_batchUpdate, throw,
      ret.
    cbv zeta.
    run_cases; intros H; try discriminate H; injection H as <-;
      eexists; (split; [reflexivity | last_call_rejected]).
Qed.

Lemma failures_name_the_operation_witness :
  exists cause,
    new_Error ("Failed to insert link: " ++ error_toString Samples2.quota) =
    new_Error ("Failed to insert link: " ++ error_toString cause)
    /\ rejectedLast Samples2.rejectAll (Scripted.start [])
         (snd (insertLink Samples2.rejectAll "d" 5 (js "x") "u"
                 (Scripted.start []))) cause.
Proof.
  apply (proj1 (proj2 (proj2 (failures_name_the_operation (list Document)
                                Samples2.rejectAll "d" (Scripted.start [])
                                (new_Error ("Failed to insert link: "
                                            ++ error_toString Samples2.quota)))))
           5 (js "x") "u"%string).
  reflexivity.
Defined.

(** A rejection without a message is rendered by its name alone. *)
Example failure_without_message :
  fst (insertLink
         {| documents_get := documents_get Scripted.api;
            documents_batchUpdate := fun _ _ w => (Some (new_Error ""), w) |}
         "d" 5 (js "x") "u" (Scripted.start [])) =
  inl (new_Error "Failed to insert link: Error").
Proof. reflexivity. Qed.

(** ** Locating the table *)

Lemma tableAtOrAfter_test (tableIndex : Z) (element : StructuralElement) :
  match table element, startIndex element with
  | Some _, Some s => s >=? tableIndex
  | _, _ => false
  end = true <-> tableAtOrAfter tableIndex element.
Proof.
  unfold tableAtOrAfter.
  destruct (table element) as [rows | ], (startIndex element) as [s | ].
  - rewrite Z.geb_leb, Z.leb_le. split.
    + intros H. split; [discriminate | ]. exists s. split; [reflexivity | lia].
    + intros [_ [s' [[= <-] H]]]. lia.
  - split; [discriminate | intros [_ [s [H _]]]; discriminate H].
  - split; [discriminate | intros [H _]; now contradiction H].
  - split; [discriminate | intros [H _]; now contradiction H].
Qed.

(** X14: the lookup used by both phases returns the first top-level element
    that is a table with a start index at or after [tableIndex]: every
    element before it is not such a table; and it finds nothing exactly
    when the body holds no such table.  Tables that start before
    [tableIndex], and tables nested in cells, are not considered. *)
Theorem findTable_first :
  forall (body : list StructuralElement) (tableIndex : Z),
    (forall t,
        findTable body tableIndex = Some t ->
        exists before after,
          body = before ++ t :: after
          /\ tableAtOrAfter tableIndex t
          /\ Forall (fun x => ~ tableAtOrAfter tableIndex x) before)
    /\ (findTable body tableIndex = None <->
        Forall (fun x => ~ tableAtOrAfter tableIndex x) body).
Proof.
  intros body tableIndex. unfold findTable.
  induction body as [ | element body [IHsome IHnone]].
  - split; [intros t H; discriminate H | ].
    split; [constructor | reflexivity].
  - simpl.
    destruct (match table element, startIndex element with
              | Some _, Some s => s >=? tableIndex
              | _, _ => false
              end) eqn:Htest.
    + apply tableAtOrAfter_test in Htest. split.
      * intros t [= <-]. exists [], body. repeat split; try apply Htest.
        constructor.
      * split; [discriminate | ].
        intros H. inversion H; subst. contradiction.
    + assert (Hnot : ~ tableAtOrAfter tableIndex element).
      { intros H. apply tableAtOrAfter_test in H. congruence. }
      split.
      * intros t Ht. destruct (IHsome t Ht) as [before [after [-> [H1 H2]]]].
        exists (element :: before), after.
        repeat split; try apply H1. now constructor.
      * rewrite IHnone. split; [now constructor | now inversion 1].
Qed.

Lemma findTable_first_witness :
  exists before after,
    body_content Samples.afterFill = before ++ Samples.filledTable :: after
    /\ tableAtOrAfter 2 Samples.filledTable
    /\ Forall (fun x => ~ tableAtOrAfter 2 x) before.
Proof.
  apply (proj1 (findTable_first (body_content Samples.afterFill) 2)
           Samples.filledTable).
  reflexivity.
Defined.

(** ** The borders *)

Lemma upto_NoDup (n : Z) : NoDup (upto n).
Proof.
  unfold upto. apply NoDup_map_NoDup_ForallPairs; [ | apply seq_NoDup].
  intros x y _ _ H. lia.
Qed.

Lemma upto_length (n : Z) : List.length (upto n) = Z.to_nat n.
Proof. unfold upto. now rewrite length_map, length_seq. Qed.

Lemma borderRows_NoDup (tableStartIndex : Z) (cols rowsList : list Z) :
  NoDup cols -> NoDup rowsList ->
  NoDup (flat_map
           (fun rowIdx =>
              List.map (fun colIdx =>
                          borderRequest tableStartIndex rowIdx colIdx) cols)
           rowsList).
Proof.
  intros Hcols. induction rowsList as [ | r rowsList IH]; intros Hrows;
    [constructor | ].
  inversion Hrows as [ | ? ? Hnotin Hrest]; subst. simpl.
  apply NoDup_app.
  - apply NoDup_map_NoDup_ForallPairs; [ | exact Hcols].
    intros x y _ _ H. now injection H.
  - now apply IH.
  - intros req Hin Hin'.
    apply in_map_iff in Hin as [c [<- _]].
    apply in_flat_map in Hin' as [r' [Hr' Hin']].
    apply in_map_iff in Hin' as [c' [Heq _]].
    injection Heq as -> _. contradiction.
Qed.

(** X15: the border pass addresses every pair (row, column) with
    0 <= row < numRows and 0 <= column < numCols, each exactly once, and
    nothing else: numRows * numCols requests without repetition. *)
Theorem borders_each_cell_once :
  forall (tableStartIndex numRows numCols : Z),
    NoDup (borderRequests tableStartIndex numRows numCols)
    /\ List.length (borderRequests tableStartIndex numRows numCols) =
       (Z.to_nat numRows * Z.to_nat numCols)%nat
    /\ (forall req,
           In req (borderRequests tableStartIndex numRows numCols) <->
           exists rowIdx colIdx,
             0 <= rowIdx < numRows /\ 0 <= colIdx < numCols
             /\ req =
                UpdateTableCellStyleRequest
                  {| borderTop := Some borderStyle;
                     borderBottom := Some borderStyle;
                     borderLeft := Some borderStyle;
                     borderRight := Some borderStyle;
                     backgroundColor := None |}
                  {| tableStartLocation := tableStartIndex;
                     rowIndex := rowIdx; columnIndex := colIdx;
                     rowSpan := 1; columnSpan := 1 |}
                  "borderTop,borderBottom,borderLeft,borderRight").
Proof.
  intros tableStartIndex numRows numCols. split; [ | split].
  - apply borderRows_NoDup; apply upto_NoDup.
  - unfold borderRequests.
    rewrite (flat_map_constant_length (c := Z.to_nat numCols)).
    + now rewrite upto_length.
    + intros r _. now rewrite length_map, upto_length.
  - intros req. apply in_borderRequests.
Qed.

(** ** Formatting options *)

Lemma outOfRange_false (value : Q) :
  outOfRange value = false <-> (0 <= value /\ value <= 1)%Q.
Proof.
  unfold outOfRange.
  rewrite orb_false_iff, !negb_false_iff, !Qle_bool_iff. reflexivity.
Qed.

Lemma outOfRange_true (value : Q) :
  outOfRange value = true <-> ~ (0 <= value /\ value <= 1)%Q.
Proof.
  rewrite <- outOfRange_false. destruct (outOfRange value); split; congruence.
Qed.

Lemma validateColor_none (numberToString : Q -> string) (color : RgbColor) :
  validateColor numberToString color = None <-> validColor color.
Proof.
  unfold validateColor, validColor, firstInvalid.
  destruct (outOfRange (red color)) eqn:Hr;
    [apply outOfRange_true in Hr | apply outOfRange_false in Hr];
    [split; [discriminate | tauto] | ].
  destruct (outOfRange (green color)) eqn:Hg;
    [apply outOfRange_true in Hg | apply outOfRange_false in Hg];
    [split; [discriminate | tauto] | ].
  destruct (outOfRange (blue color)) eqn:Hb;
    [apply outOfRange_true in Hb | apply outOfRange_false in Hb];
    [split; [discriminate | tauto] | ].
  tauto.
Qed.

(** X16: [validateColor] returns normally exactly when red, green and blue
    all lie in [0, 1]; otherwise it throws for the first component, in the
    order red, green, blue, that is out of range, and the message names that
    component and its value. *)
Theorem validateColor_first_offender :
  forall (numberToString : Q -> string) (color : RgbColor),
    (validateColor numberToString color = None <-> validColor color)
    /\ (~ (0 <= red color /\ red color <= 1)%Q ->
        validateColor numberToString color =
        Some (new_Error ("Invalid red value: " ++ numberToString (red color)
                         ++ ". Must be between 0 and 1.")))
    /\ ((0 <= red color /\ red color <= 1)%Q ->
        ~ (0 <= green color /\ green color <= 1)%Q ->
        validateColor numberToString color =
        Some (new_Error ("Invalid green value: "
                         ++ numberToString (green color)
                         ++ ". Must be between 0 and 1.")))
    /\ ((0 <= red color /\ red color <= 1)%Q ->
        (0 <= green color /\ green color <= 1)%Q ->
        ~ (0 <= blue color /\ blue color <= 1)%Q ->
        validateColor numberToString color =
        Some (new_Error ("Invalid blue value: "
                         ++ numberToString (blue color)
                         ++ ". Must be between 0 and 1."))).
Proof.
  intros numberToString color.
  split; [apply validateColor_none | ].
  unfold validateColor, firstInvalid, invalidComponent.
  split; [ | split].
  - intros Hr. apply outOfRange_true in Hr. now rewrite Hr.
  - intros Hr Hg. apply outOfRange_false in Hr. apply outOfRange_true in Hg.
    now rewrite Hr, Hg.
  - intros Hr Hg Hb. apply outOfRange_false in Hr, Hg.
    apply outOfRange_true in Hb. now rewrite Hr, Hg, Hb.
Qed.

Lemma validateColor_first_offender_witness :
  validateColor Samples2.showNumber
    {| red := 1 # 2; green := 3 # 2; blue := -1 # 1 |} =
  Some (new_Error ("Invalid green value: "
                   ++ Samples2.showNumber (3 # 2)
                   ++ ". Must be between 0 and 1.")).
Proof.
  apply (proj1 (proj2 (proj2 (validateColor_first_offender
                                Samples2.showNumber
                                {| red := 1 # 2; green := 3 # 2;
                                   blue := -1 # 1 |})))).
  - split; discriminate.
  - intros [_ H]. apply H. reflexivity.
Defined.

Lemma buildTextFormatting_spec (formatting : TextFormatting) :
  buildTextFormatting formatting =
  (formatting,
   fieldIf "bold" (tf_bold formatting)
   ++ fieldIf "italic" (tf_italic formatting)
   ++ fieldIf "underline" (tf_underline formatting)
   ++ fieldIf "foregroundColor" (tf_foregroundColor formatting)).
Proof.
  destruct formatting as [[b | ] [i | ] [u | ] [c | ]]; reflexivity.
Qed.

(** X17: [buildTextFormatting] returns a style with exactly the options that
    were given, unchanged, and the names of those options in the fixed
    order bold, italic, underline, foregroundColor: no name twice, and as
    many names as the style has keys. *)
Theorem buildTextFormatting_fields :
  forall (formatting : TextFormatting),
    fst (buildTextFormatting formatting) = formatting
    /\ snd (buildTextFormatting formatting) =
       fieldIf "bold" (tf_bold formatting)
       ++ fieldIf "italic" (tf_italic formatting)
       ++ fieldIf "underline" (tf_underline formatting)
       ++ fieldIf "foregroundColor" (tf_foregroundColor formatting)
    /\ NoDup (snd (buildTextFormatting formatting))
    /\ List.length (snd (buildTextFormatting formatting)) =
       keyCount (fst (buildTextFormatting formatting)).
Proof.
  intros formatting. rewrite buildTextFormatting_spec. cbn [fst snd].
  split; [reflexivity | ]. split; [reflexivity | ].
  destruct formatting as [[b | ] [i | ] [u | ] [c | ]]; cbn;
    (split; [ | reflexivity]);
    repeat (constructor; [simpl; intuition discriminate | ]); constructor.
Qed.

(** X18: [buildCellFormatting] builds the same text style as
    [buildTextFormatting] does from the text options; [hasTextFormat] holds
    exactly when some text option is set (when the field list is not
    empty), and [hasCellFormat] exactly when a background color is given. *)
Theorem buildCellFormatting_flags :
  forall (formatting : CellFormatting),
    textFormat (buildCellFormatting formatting) =
      fst (buildTextFormatting (textPart formatting))
    /\ (hasTextFormat (buildCellFormatting formatting) = true <->
        snd (buildTextFormatting (textPart formatting)) <> [])
    /\ (hasTextFormat (buildCellFormatting formatting) = false <->
        textPart formatting = noFormatting)
    /\ cellFormat_backgroundColor (buildCellFormatting formatting) =
       cf_backgroundColor formatting
    /\ (hasCellFormat (buildCellFormatting formatting) = true <->
        cf_backgroundColor formatting <> None).
Proof.
  intros formatting. rewrite buildTextFormatting_spec. cbn [fst snd].
  destruct formatting as [[b | ] [i | ] [u | ] [c | ] [g | ]]; cbn;
    repeat split; intros; try discriminate; try reflexivity;
    try congruence.
Qed.

(** ** Formatting text *)

(** X19: [formatText] validates the color before it contacts the backend: a
    color with a component outside [0, 1] makes it fail, under its prefix,
    without any call.  In every other case it submits exactly one batch
    holding one text-style request over [startIndex, endIndex), whose style
    carries the given options (the color nested) and whose field mask is
    the comma-joined list of their names; with no option at all the mask is
    empty and the request is submitted all the same. *)
Theorem formatText_validates_first :
  forall (World : Type) (docs : StyleApi World) (numberToString : Q -> string)
         (documentId : string) (startIndex endIndex : Z)
         (formatting : TextFormatting) (st : StyleState World),
    (forall color,
        tf_foregroundColor formatting = Some color ->
        ~ validColor color ->
        exists cause,
          validateColor numberToString color = Some cause
          /\ formatText docs numberToString documentId startIndex endIndex
               formatting st =
             (inl (new_Error ("Failed to format text: "
                              ++ error_toString cause)), st))
    /\ ((forall color,
            tf_foregroundColor formatting = Some color -> validColor color) ->
        scalls (snd (formatText docs numberToString documentId startIndex
                       endIndex formatting st)) =
        scalls st
        ++ [StyleBatchUpdate documentId
              [{| sr_range := {| range_startIndex := startIndex;
                                 range_endIndex := endIndex |};
                  sr_textStyle :=
                    {| ts_bold := tf_bold formatting;
                       ts_italic := tf_italic formatting;
                       ts_underline := tf_underline formatting;
                       ts_foregroundColor :=
                         option_map (fun c => {| color_rgbColor := c |})
                                    (tf_foregroundColor formatting);
                       ts_fontSize := None |};
                  sr_fields :=
                    String.concat ","
                      (fieldIf "bold" (tf_bold formatting)
                       ++ fieldIf "italic" (tf_italic formatting)
                       ++ fieldIf "underline" (tf_underline formatting)
                       ++ fieldIf "foregroundColor"
                            (tf_foregroundColor formatting)) |}]]).
Proof.
  intros World docs numberToString documentId startIndex endIndex formatting
    st.
  split.
  - intros color Hcolor Hbad.
    destruct (validateColor numberToString color) as [cause | ] eqn:Hv;
      [ | apply validateColor_none in Hv; contradiction].
    exists cause. split; [reflexivity | ].
    unfold formatText, stry, sbind, sthrow. now rewrite Hcolor, Hv.
  - intros Hvalid.
    assert (Hreq : formatTextRequest startIndex endIndex formatting =
                   {| sr_range := {| range_startIndex := startIndex;
                                     range_endIndex := endIndex |};
                      sr_textStyle :=
                        {| ts_bold := tf_bold formatting;
                           ts_italic := tf_italic formatting;
                           ts_underline := tf_underline formatting;
                           ts_foregroundColor :=
                             option_map (fun c => {| color_rgbColor := c |})
                                        (tf_foregroundColor formatting);
                           ts_fontSize := None |};
                      sr_fields :=
                        String.concat ","
                          (fieldIf "bold" (tf_bold formatting)
                           ++ fieldIf "italic" (tf_italic formatting)
                           ++ fieldIf "underline" (tf_underline formatting)
                           ++ fieldIf "foregroundColor"
                                (tf_foregroundColor formatting)) |}).
    { unfold formatTextRequest. rewrite buildTextFormatting_spec.
      now destruct (tf_foregroundColor formatting). }
    rewrite <- Hreq.
    unfold formatText, stry, sbind, sthrow, sret, style_docs_batchUpdate.
    destruct (tf_foregroundColor formatting) as [color | ] eqn:Hcolor.
    + pose proof (Hvalid color eq_refl) as Hc.
      apply (validateColor_none numberToString) in Hc. rewrite Hc.
      now destruct (style_batchUpdate docs documentId _ (sworld st))
        as [[err | ] w].
    + now destruct (style_batchUpdate docs documentId _ (sworld st))
        as [[err | ] w].
Qed.

Lemma formatText_validates_first_witness :
  exists cause,
    validateColor Samples2.showNumber
      {| red := 2 # 1; green := 0; blue := 0 |} = Some cause
    /\ formatText Samples2.styleApi Samples2.showNumber "d" 1 5
         {| tf_bold := Some true; tf_italic := None; tf_underline := None;
            tf_foregroundColor :=
              Some {| red := 2 # 1; green := 0; blue := 0 |} |}
         (Samples2.styleStart []) =
       (inl (new_Error ("Failed to format text: " ++ error_toString cause)),
        Samples2.styleStart []).
Proof.
  apply (proj1 (formatText_validates_first (list Document) Samples2.styleApi
                  Samples2.showNumber "d" 1 5
                  {| tf_bold := Some true; tf_italic := None;
                     tf_underline := None;
                     tf_foregroundColor :=
                       Some {| red := 2 # 1; green := 0; blue := 0 |} |}
                  (Samples2.styleStart []))
           {| red := 2 # 1; green := 0; blue := 0 |}).
  - reflexivity.
  - intros [[_ H] _]. apply H. reflexivity.
Defined.

(** With no option at all the request goes out with an empty mask. *)
Example formatText_without_options :
  scalls (snd (formatText Samples2.styleApi Samples2.showNumber "d" 1 5
                 noFormatting (Samples2.styleStart []))) =
  [StyleBatchUpdate "d"
     [{| sr_range := {| range_startIndex := 1; range_endIndex := 5 |};
         sr_textStyle :=
           {| ts_bold := None; ts_italic := None; ts_underline := None;
              ts_foregroundColor := None; ts_fontSize := None |};
         sr_fields := "" |}]].
Proof. reflexivity. Qed.

(** ** The first line as a title *)

Lemma firstTitleRun_cons (element : StructuralElement)
    (rest : list StructuralElement) :
  firstTitleRun (element :: rest) =
  match titleCandidate element with
  | Some range => Some range
  | None => firstTitleRun rest
  end.
Proof.
  unfold titleCandidate. simpl.
  destruct (paragraph element) as [[ | firstElem others] | ];
    try reflexivity.
  destruct (pe_textRun firstElem), (pe_startIndex firstElem),
    (pe_endIndex firstElem); reflexivity.
Qed.

Lemma firstTitleRun_some (body : list StructuralElement) (s e : Z) :
  firstTitleRun body = Some (s, e) ->
  exists before element after,
    body = before ++ element :: after
    /\ titleCandidate element = Some (s, e)
    /\ Forall (fun x => titleCandidate x = None) before.
Proof.
  induction body as [ | element body IH]; [discriminate | ].
  rewrite firstTitleRun_cons.
  destruct (titleCandidate element) as [range | ] eqn:Hc.
  - intros [= ->]. exists [], element, body. repeat split; [exact Hc | ].
    constructor.
  - intros H. destruct (IH H) as [before [el [after [-> [H1 H2]]]]].
    exists (element :: before), el, after.
    repeat split; [exact H1 | now constructor].
Qed.

Lemma firstTitleRun_none (body : list StructuralElement) :
  firstTitleRun body = None ->
  Forall (fun x => titleCandidate x = None) body.
Proof.
  induction body as [ | element body IH]; [constructor | ].
  rewrite firstTitleRun_cons.
  destruct (titleCandidate element) as [range | ] eqn:Hc; [discriminate | ].
  intros H. constructor; [exact Hc | now apply IH].
Qed.

(** X20: [formatFirstLineAsTitle] reads once and formats at most one run:
    the first element of the first top-level paragraph whose first element
    is a text run with both indices, made bold with the given font size in
    points.  Paragraphs before it that start with anything else (an inline
    image, a run without indices) are passed over; when no paragraph
    qualifies, nothing is submitted and the call succeeds. *)
Theorem formatFirstLineAsTitle_target :
  forall (World : Type) (docs : StyleApi World) (documentId : string)
         (fontSize : Q) (st : StyleState World) (doc : Document) (w : World),
    style_get docs documentId (sworld st) = (inr doc, w) ->
    (forall s e,
        firstTitleRun (body_content doc) = Some (s, e) ->
        scalls (snd (formatFirstLineAsTitle docs documentId fontSize st)) =
          scalls st
          ++ [StyleGet documentId;
              StyleBatchUpdate documentId
                [{| sr_range := {| range_startIndex := s;
                                   range_endIndex := e |};
                    sr_textStyle :=
                      {| ts_bold := Some true; ts_italic := None;
                         ts_underline := None; ts_foregroundColor := None;
                         ts_fontSize :=
                           Some {| dim_magnitude := fontSize;
                                   dim_unit := "PT" |} |};
                    sr_fields := "bold,fontSize" |}]]
        /\ exists before element after,
             body_content doc = before ++ element :: after
             /\ titleCandidate element = Some (s, e)
             /\ Forall (fun x => titleCandidate x = None) before)
    /\ (firstTitleRun (body_content doc) = None ->
        formatFirstLineAsTitle docs documentId fontSize st =
          (inr tt,
           {| sworld := w; scalls := scalls st ++ [StyleGet documentId] |})
        /\ Forall (fun x => titleCandidate x = None) (body_content doc)).
Proof.
  intros World docs documentId fontSize st doc w Hget.
  unfold formatFirstLineAsTitle, stry, sbind, style_docs_get,
    style_docs_batchUpdate, sret, sthrow.
  rewrite Hget. cbn [sworld scalls].
  split.
  - intros s e Hrun. rewrite Hrun.
    split; [ | now apply firstTitleRun_some].
    cbv beta iota. cbn [sworld scalls].
    destruct (style_batchUpdate docs documentId [titleRequest s e fontSize] w)
      as [[err | ] w'];
      cbn [snd scalls]; now rewrite <- app_assoc.
  - intros Hrun. rewrite Hrun.
    split; [reflexivity | now apply firstTitleRun_none].
Qed.

Lemma formatFirstLineAsTitle_target_witness :
  scalls (snd (formatFirstLineAsTitle Samples2.styleApi "d" 18
                 (Samples2.styleStart [Samples2.imageThenText]))) =
    [] ++ [StyleGet "d";
           StyleBatchUpdate "d"
             [{| sr_range := {| range_startIndex := 3;
                                range_endIndex := 9 |};
                 sr_textStyle :=
                   {| ts_bold := Some true; ts_italic := None;
                      ts_underline := None; ts_foregroundColor := None;
                      ts_fontSize :=
                        Some {| dim_magnitude := 18; dim_unit := "PT" |} |};
                 sr_fields := "bold,fontSize" |}]]
  /\ exists before element after,
       body_content Samples2.imageThenText = before ++ element :: after
       /\ titleCandidate element = Some (3, 9)
       /\ Forall (fun x => titleCandidate x = None) before.
Proof.
  apply (proj1 (formatFirstLineAsTitle_target (list Document)
                  Samples2.styleApi "d" 18
                  (Samples2.styleStart [Samples2.imageThenText])
                  Samples2.imageThenText [] eq_refl) 3 9).
  reflexivity.
Defined.

(** ** More on the cell fill *)

(** X21: whatever the snapshot and the data, also when insertion points
    coincide, the fill batch holds each collected insertion exactly once
    and its target indices never increase from one operation to the
    next. *)
Theorem cellFill_never_ascends :
  forall (headerRow : bool) (t : StructuralElement) (data : TableData),
    exists inserts,
      cellFillRequests headerRow t data =
        List.map (fun c => InsertTextRequest (ci_index c) (ci_text c)) inserts
      /\ Permutation inserts
           (collectCellInserts headerRow 0 (tableRows t) data)
      /\ StronglySorted Z.ge (List.map ci_index inserts).
Proof.
  intros headerRow t data.
  exists (sortDesc (collectCellInserts headerRow 0 (tableRows t) data)).
  split; [reflexivity | ].
  split; [apply sortDesc_perm | apply sortDesc_sorted].
Qed.

Lemma firstParagraphStart_none (cellElements : list StructuralElement) :
  firstParagraphStart cellElements = None <->
  Forall (fun el => paragraph el = None \/ startIndex el = None) cellElements.
Proof.
  induction cellElements as [ | el rest IH]; simpl.
  - split; [constructor | reflexivity].
  - destruct (paragraph el) as [els | ] eqn:Hp.
    + destruct (startIndex el) as [s | ] eqn:Hs.
      * split; [discriminate | ].
        inversion 1 as [ | ? ? [H1 | H1] _]; congruence.
      * rewrite IH. split; [constructor; tauto | now inversion 1].
    + rewrite IH. split; [constructor; tauto | now inversion 1].
Qed.

Lemma firstParagraphStart_some (cellElements : list StructuralElement)
    (s : Z) :
  firstParagraphStart cellElements = Some s ->
  exists before el after,
    cellElements = before ++ el :: after
    /\ paragraph el <> None /\ startIndex el = Some s
    /\ Forall (fun x => paragraph x = None \/ startIndex x = None) before.
Proof.
  induction cellElements as [ | el rest IH]; simpl; [discriminate | ].
  destruct (paragraph el) as [els | ] eqn:Hp.
  - destruct (startIndex el) as [s' | ] eqn:Hs.
    + intros [= ->]. exists [], el, rest.
      repeat split; [congruence | exact Hs | constructor].
    + intros H. destruct (IH H) as [before [el' [after [-> [H1 [H2 H3]]]]]].
      exists (el :: before), el', after.
      repeat split; try assumption. constructor; tauto.
  - intros H. destruct (IH H) as [before [el' [after [-> [H1 [H2 H3]]]]]].
    exists (el :: before), el', after.
    repeat split; try assumption. constructor; tauto.
Qed.

(** X22: the insertion point of a cell is the start of the first element of
    its content that is a paragraph and has a start index.  A cell without
    such an element gets no insertion whatever its data entry: the entry is
    dropped without any error. *)
Theorem cell_without_paragraph_is_skipped :
  forall (headerRow : bool) (rowIdx : nat) (cell : TableCell)
         (entry : option jsstring),
    (Forall (fun el => paragraph el = None \/ startIndex el = None)
            (content cell) ->
     cellInsert headerRow rowIdx cell entry = [])
    /\ (forall text c,
           entry = Some text -> text <> [] ->
           In c (cellInsert headerRow rowIdx cell entry) ->
           ci_text c = text
           /\ exists before el after,
                content cell = before ++ el :: after
                /\ paragraph el <> None
                /\ startIndex el = Some (ci_index c)
                /\ Forall (fun x => paragraph x = None \/ startIndex x = None)
                          before).
Proof.
  intros headerRow rowIdx cell entry. split.
  - intros Hnone. apply firstParagraphStart_none in Hnone.
    unfold cellInsert. rewrite Hnone.
    destruct entry as [s | ]; [ | reflexivity].
    now destruct (js_length s >? 0).
  - intros text c -> Hne Hin.
    apply in_cellInsert in Hin as [s [[= <-] [_ [Hstart Htext]]]].
    split; [exact Htext | ].
    now apply firstParagraphStart_some.
Qed.

Lemma cell_without_paragraph_is_skipped_witness :
  cellInsert true 0 (mkCell [Samples.sectionBreak]) (Some (js "A")) = [].
Proof.
  apply (proj1 (cell_without_paragraph_is_skipped true 0
                  (mkCell [Samples.sectionBreak]) (Some (js "A")))).
  repeat constructor.
Defined.

(** ** The cost of a table insertion *)

Ltac answer_cases :=
  repeat match goal with
    | |- context [documents_batchUpdate ?docs ?d ?r ?w] =>
        destruct (documents_batchUpdate docs d r w) as [[? | ] ?]
    | |- context [documents_get ?docs ?d ?w] =>
        destruct (documents_get docs d w) as [[? | ?] ?]
    | |- context [findTable ?b ?i] => destruct (findTable b i)
    | |- context [if ?c then _ else _] => destruct c
    | _ => progress cbn [world calls fst snd]
    end.

(** X23: whatever the backend answers, [insertTable] makes at most six
    calls, at most two of them reads, and its first call is the newline
    batch. *)
Theorem insertTable_call_bounds :
  forall (World : Type) (docs : DocsApi World) (documentId : string)
         (index rows columns : Z) (data : TableData) (headerRow : bool)
         (st : RunState World),
    exists more,
      calls (snd (insertTable docs documentId index rows columns data
                    headerRow st)) =
      calls st
      ++ CallBatchUpdate documentId [InsertTextRequest index newline] :: more
      /\ (List.length more <= 5)%nat
      /\ (List.length (filter isGet more) <= 2)%nat.
Proof.
  intros World docs documentId index rows columns data headerRow st.
  unfold insertTable, insertEmptyTable, fillCells, formatTable, try_catch,
    bind, docs_batchUpdate, docs_get, throw, ret.
  answer_cases;
    eexists; (split; [rewrite <- ?app_assoc; reflexivity | simpl; lia]).
Qed.
